(** * phi-pi resonance simulations: a shallow embedding of the simulation core

    The Python sources under [simulations/phi_pi_resonance_sim] are embedded
    as Rocq functions.  Python floats are IEEE-754 binary64 values, modelled
    by the kernel's primitive floats; Python ints are [Z]; lists are [list];
    raised exceptions are the [Raise] case of [result]; the module-level
    generator of [random] is explicit state.  The functions of [math],
    [random] and [statistics] that the code calls are the fields of
    [Library]: every theorem holds for all of them. *)

From Stdlib Require Import ZArith List Bool Lia Floats Reals Lra.
From Stdlib Require Uint63.
Import ListNotations.

Set Warnings "-inexact-float".
Set Implicit Arguments.

(** ** The Python runtime the simulations rely on *)

Module Py.

Inductive exn : Type :=
| ZeroDivisionError
| ValueError
| IndexError
| OverflowError
| StatisticsError.

Inductive result (A : Type) : Type :=
| Ok (a : A)
| Raise (e : exn).

Arguments Ok {A} a.
Arguments Raise {A} e.

Definition is_error {A : Type} (r : result A) : bool :=
  match r with Ok _ => false | Raise _ => true end.

Definition rbind {A B : Type} (r : result A) (k : A -> result B) : result B :=
  match r with Ok a => k a | Raise e => Raise e end.

(** [float(z)] for an int: exact below 2^53, which covers every grid size,
    index and step count of the simulations. *)
Definition float_of_Z (z : Z) : float :=
  match z with
  | Z0 => 0%float
  | Zpos _ => of_uint63 (Uint63.of_Z z)
  | Zneg q => (- of_uint63 (Uint63.of_Z (Zpos q)))%float
  end.

(** [x / y] on floats raises on a zero divisor (of either sign). *)
Definition truediv (x y : float) : result float :=
  if (y =? 0)%float then Raise ZeroDivisionError else Ok (x / y)%float.

(** [math.sqrt]: a domain error below zero. *)
Definition math_sqrt (x : float) : result float :=
  if (x <? 0)%float then Raise ValueError else Ok (PrimFloat.sqrt x).

(** [int(x)] truncates toward zero; infinities and NaN raise. *)
Definition int_of_float (x : float) : result Z :=
  match Prim2SF x with
  | S754_zero _ => Ok 0%Z
  | S754_infinity _ => Raise OverflowError
  | S754_nan => Raise ValueError
  | S754_finite s m e =>
      let a := (if 0 <=? e then Zpos m * 2 ^ e else Zpos m / 2 ^ (- e))%Z in
      Ok (if s then (- a)%Z else a)
  end.

(** [max(a, b)] and [min(a, b)] of the builtins, on floats: the first
    argument is kept unless the second compares strictly beyond it. *)
Definition fmax (a b : float) : float := if (a <? b)%float then b else a.
Definition fmin (a b : float) : float := if (b <? a)%float then b else a.

(** [max(l)] of a non-empty list of floats. *)
Definition max_list (l : list float) : result float :=
  match l with
  | [] => Raise ValueError
  | x :: t => Ok (fold_left fmax t x)
  end.

(** [range(lo, hi)]: the [hi - lo] integers from [lo] on (none when
    [hi <= lo]). *)
Fixpoint range_from (lo : Z) (n : nat) : list Z :=
  match n with
  | O => []
  | S n' => lo :: range_from (lo + 1) n'
  end.

Definition range (lo hi : Z) : list Z := range_from lo (Z.to_nat (hi - lo)).

(** List indexing: a negative index counts from the end, anything outside
    [-len, len) raises [IndexError]. *)
Definition norm_index (len i : Z) : option nat :=
  if (i <? 0)%Z
  then (if (0 <=? i + len)%Z then Some (Z.to_nat (i + len)) else None)
  else (if (i <? len)%Z then Some (Z.to_nat i) else None).

Fixpoint list_set {A : Type} (l : list A) (k : nat) (v : A) : list A :=
  match l, k with
  | [], _ => []
  | _ :: t, O => v :: t
  | x :: t, S k' => x :: list_set t k' v
  end.

Definition getitem {A : Type} (l : list A) (i : Z) : result A :=
  match norm_index (Z.of_nat (length l)) i with
  | Some k => match nth_error l k with Some x => Ok x | None => Raise IndexError end
  | None => Raise IndexError
  end.

Definition setitem {A : Type} (l : list A) (i : Z) (v : A) : result (list A) :=
  match norm_index (Z.of_nat (length l)) i with
  | Some k => Ok (list_set l k v)
  | None => Raise IndexError
  end.

(** [l[i] += d]. *)
Definition additem (l : list float) (i : Z) (d : float) : result (list float) :=
  rbind (getitem l i) (fun x => setitem l i (x + d)%float).

(** Slices [l[:stop]] and [l[start:]]: a negative bound counts from the end
    and every bound is clipped to the list. *)
Definition slice_bound (len i : Z) : nat :=
  Z.to_nat (Z.max 0 (Z.min len (if (i <? 0)%Z then (i + len)%Z else i))).

Definition slice_to {A : Type} (l : list A) (stop : Z) : list A :=
  firstn (slice_bound (Z.of_nat (length l)) stop) l.

Definition slice_from {A : Type} (l : list A) (start : Z) : list A :=
  skipn (slice_bound (Z.of_nat (length l)) start) l.

(** [[x] * n]: empty when [n <= 0]. *)
Definition replicate {A : Type} (x : A) (n : Z) : list A := repeat x (Z.to_nat n).

(** A [for] loop over a list of indices whose body may raise. *)
Fixpoint for_each {I S : Type} (l : list I) (body : I -> S -> result S) (s : S)
  : result S :=
  match l with
  | [] => Ok s
  | i :: t => rbind (body i s) (for_each t body)
  end.

(** [math.pi] and the module constants [PHI], [PHI_PI].  [5.0 ** 0.5] is
    the C library's [pow(5.0, 0.5)], the correctly rounded square root. *)
Definition math_pi : float := 3.141592653589793%float.
Definition PHI : float := Eval cbv in ((1 + PrimFloat.sqrt 5) / 2)%float.
Definition PHI_PI : float := Eval cbv in (PHI * math_pi)%float.

End Py.
Import Py.

(** ** Library functions the code calls

    [rng] is the whole state of the module-level generator of [random]
    (the twister's words and the deviate [gauss] caches).  [rng_seed n] is
    the state [random.seed(n)] installs, whatever the state before;
    [rng_gauss] is the standard normal deviate [random.gauss] obtains and the
    state after; [rng_random] is [random.random()].  [math_sin], [math_cos]
    are [math.sin], [math.cos]; [float_pow] is [**] on floats;
    [stat_fmean] is [statistics.fmean] on a non-empty list. *)
Class Library : Type := {
  rng : Type;
  rng_seed : Z -> rng;
  rng_gauss : rng -> float * rng;
  rng_random : rng -> float * rng;
  math_sin : float -> float;
  math_cos : float -> float;
  float_pow : float -> float -> float;
  stat_fmean : list float -> float
}.

Section Effects.
Context {lib : Library}.

(** Code that reads and advances the generator and may raise: the state
    outlives a raised exception, as module state does. *)
Definition M (A : Type) : Type := rng -> result A * rng.

Definition ret {A : Type} (a : A) : M A := fun g => (Ok a, g).

Definition bind {A B : Type} (m : M A) (k : A -> M B) : M B :=
  fun g => match m g with
           | (Ok a, g') => k a g'
           | (Raise e, g') => (Raise e, g')
           end.

Definition lift {A : Type} (r : result A) : M A := fun g => (r, g).

Definition raise {A : Type} (e : exn) : M A := fun g => (Raise e, g).

(** [random.seed(n)]. *)
Definition random_seed (n : Z) : M unit := fun _ => (Ok tt, rng_seed n).

(** [random.gauss(mu, sigma)]: [mu + z * sigma] for the next deviate [z]. *)
Definition random_gauss (mu sigma : float) : M float :=
  fun g => (Ok (mu + fst (rng_gauss g) * sigma)%float, snd (rng_gauss g)).

(** [random.random()]. *)
Definition random_random : M float :=
  fun g => (Ok (fst (rng_random g)), snd (rng_random g)).

(** [statistics.fmean]: raises on no data. *)
Definition fmean (l : list float) : result float :=
  match l with
  | [] => Raise StatisticsError
  | _ => Ok (stat_fmean l)
  end.

(** A [for] loop whose body draws random numbers and may raise. *)
Fixpoint for_eachM {I S : Type} (l : list I) (body : I -> S -> M S) (s : S) : M S :=
  match l with
  | [] => ret s
  | i :: t => bind (body i s) (for_eachM t body)
  end.

End Effects.

Declare Scope py_scope.
Delimit Scope py_scope with py.
Notation "x <- m ;; k" := (bind m (fun x => k))
  (at level 61, m at next level, right associativity) : py_scope.
Notation "m ;;; k" := (bind m (fun _ => k))
  (at level 61, right associativity) : py_scope.
Notation "x <~ r ;; k" := (bind (lift r) (fun x => k))
  (at level 61, r at next level, right associativity) : py_scope.

(** The two boundary modes, ["confined"] and ["open"]; every constructor
    asserts that its mode is one of them. *)
Inductive Mode : Type := confined | open.

(** ** wave_cavity_phi_pi.py: the 1-D field *)

Module wave_cavity_phi_pi.

Record CavityParams : Type := {
  N : Z;
  c : float;
  dx : float;
  dt : float;
  steps : Z;
  gamma_interior : float;
  pml_len : Z;
  pml_max : float;
  i_src : Z;
  A : float;
  f_cycles : float;
  sigma_amp : float;
  phase_jitter : float;
  seed : Z
}.

(** [CavityParams()]: the dataclass defaults. *)
Definition default_params : CavityParams := {|
  N := 600; c := 1.0; dx := 1.0; dt := 0.5; steps := 9000;
  gamma_interior := 1e-3; pml_len := 80; pml_max := 0.02;
  i_src := 60; A := 0.6; f_cycles := 0.02;
  sigma_amp := 0.10; phase_jitter := 0.02; seed := 4
|}.

Record WaveCavity : Type := {
  p : CavityParams;
  mode : Mode;
  r : float;
  u_prev : list float;
  u : list float;
  u_next : list float;
  gamma : list float;
  omega : float;
  phase : float
}.

(** The loop of [__init__] that adds the layer at both ends:
    [g = p.pml_max * (i + 1) / L; gamma[i] += g; gamma[N - 1 - i] += g]. *)
Definition pml_body (pr : CavityParams) (i : Z) (gam : list float)
  : result (list float) :=
  let L := pml_len pr in
  rbind (truediv (pml_max pr * float_of_Z (i + 1)) (float_of_Z L)) (fun g =>
  rbind (additem gam i g) (fun gam1 =>
  additem gam1 (N pr - 1 - i) g)).

(** The damping profile [self.gamma] that [__init__] builds. *)
Definition damping_profile (pr : CavityParams) (m : Mode) : result (list float) :=
  let base := replicate (gamma_interior pr) (N pr) in
  match m with
  | confined => Ok base
  | open => for_each (range 0 (pml_len pr)) (pml_body pr) base
  end.

Section Code.
Context {lib : Library}.
Local Open Scope py_scope.

(** [WaveCavity.__init__]. *)
Definition WaveCavity_init (pr : CavityParams) (m : Mode) : M WaveCavity :=
  random_seed (seed pr) ;;;
  r0 <~ truediv (c pr * dt pr) (dx pr) ;;
  if (1.0 <? r0)%float then raise ValueError
  else
    gam <~ damping_profile pr m ;;
    ret {| p := pr; mode := m; r := r0;
           u_prev := replicate 0%float (N pr);
           u := replicate 0%float (N pr);
           u_next := replicate 0%float (N pr);
           gamma := gam;
           omega := (2.0 * math_pi * f_cycles pr)%float;
           phase := PHI_PI |}.

(** The phase update that opens [step]:
    [self.phase += random.gauss(0.0, p.phase_jitter)]. *)
Definition phase_update (pr : CavityParams) (ph : float) : M float :=
  j <- random_gauss 0.0 (phase_jitter pr) ;;
  ret (ph + j)%float.

(** The drive sample [s] of [step]. *)
Definition drive_sample (cav : WaveCavity) (n : Z) (ph : float) : M float :=
  z <- random_gauss 0.0 1.0 ;;
  let amp_noise := (1.0 + sigma_amp (p cav) * z)%float in
  ret (A (p cav) * amp_noise * math_sin (omega cav * float_of_Z n + ph))%float.

(** One interior node of [step]. *)
Definition interior_body (cav : WaveCavity) (i : Z) (nxt : list float)
  : result (list float) :=
  let d := dt (p cav) in
  let r2 := (r cav * r cav)%float in
  rbind (getitem (u cav) (i + 1)) (fun ur =>
  rbind (getitem (u cav) i) (fun uc =>
  rbind (getitem (u cav) (i - 1)) (fun ul =>
  let lap := (ur - 2 * uc + ul)%float in
  rbind (getitem (gamma cav) i) (fun g =>
  rbind (getitem (u cav) i) (fun uc' =>
  rbind (getitem (u_prev cav) i) (fun up =>
  setitem nxt i ((2 - 2 * g * d) * uc' - (1 - g * d) * up + r2 * lap)%float)))))).

(** The node that receives the drive: [i0 = max(1, min(N - 2, p.i_src))]. *)
Definition source_index (pr : CavityParams) : Z :=
  Z.max 1 (Z.min (N pr - 2) (i_src pr)).

(** The boundary writes of [step]. *)
Definition boundary_update (cav : WaveCavity) (nxt : list float)
  : result (list float) :=
  let n := N (p cav) in
  match mode cav with
  | confined =>
      rbind (setitem nxt 0 0.0%float) (fun nxt1 => setitem nxt1 (n - 1) 0.0%float)
  | open =>
      rbind (getitem (u cav) 1) (fun a =>
      rbind (setitem nxt 0 a) (fun nxt1 =>
      rbind (getitem (u cav) (n - 2)) (fun b =>
      setitem nxt1 (n - 1) b)))
  end.

(** [WaveCavity.step]. *)
Definition step (cav : WaveCavity) (n : Z) : M WaveCavity :=
  let pr := p cav in
  ph <- phase_update pr (phase cav) ;;
  s <- drive_sample cav n ph ;;
  nxt1 <~ for_each (range 1 (N pr - 1)) (interior_body cav) (u_next cav) ;;
  let i0 := source_index pr in
  nxt2 <~ additem nxt1 i0 (dt pr * dt pr * s)%float ;;
  nxt3 <~ boundary_update cav nxt2 ;;
  ret {| p := pr; mode := mode cav; r := r cav;
         u_prev := u cav; u := nxt3; u_next := u_prev cav;
         gamma := gamma cav; omega := omega cav; phase := ph |}.

(** One node of the sums of [energy]. *)
Definition energy_body (cav : WaveCavity) (i : Z) (acc : float * float)
  : result (float * float) :=
  let pr := p cav in
  rbind (getitem (u cav) i) (fun uc =>
  rbind (getitem (u_prev cav) i) (fun up =>
  rbind (truediv (uc - up) (dt pr)) (fun v =>
  rbind (getitem (u cav) (i + 1)) (fun ur =>
  rbind (getitem (u cav) (i - 1)) (fun ul =>
  rbind (truediv (0.5 * (ur - ul)) (dx pr)) (fun ux =>
  Ok (fst acc + v * v, snd acc + ux * ux)%float)))))).

(** [WaveCavity.energy]. *)
Definition energy (cav : WaveCavity) : result float :=
  let pr := p cav in
  rbind (for_each (range 1 (N pr - 1)) (energy_body cav) (0.0, 0.0)%float)
    (fun sums =>
       Ok (0.5 * (fst sums + (c pr * c pr) * snd sums) * dx pr)%float).

(** The body of the loop of [run_once]. *)
Definition run_body (pr : CavityParams) (n : Z) (st : WaveCavity * list float)
  : M (WaveCavity * list float) :=
  cav <- step (fst st) n ;;
  if (steps pr / 2 <? n)%Z
  then e <~ energy cav ;; ret (cav, snd st ++ [e])
  else ret (cav, snd st).

(** The simulation after the constructor and the first [k] iterations of
    the loop of [run_once]: the field and the energies collected so far. *)
Definition run_prefix (k : nat) (m : Mode) (pr : CavityParams)
  : M (WaveCavity * list float) :=
  cav <- WaveCavity_init pr m ;;
  for_eachM (firstn k (range 0 (steps pr))) (run_body pr) (cav, []).

(** [run_once]: the mean and the peak of the collected energies. *)
Definition run_once (m : Mode) (pr : CavityParams) : M (float * float) :=
  cav <- WaveCavity_init pr m ;;
  st <- for_eachM (range 0 (steps pr)) (run_body pr) (cav, []) ;;
  avg <~ fmean (snd st) ;;
  pk <~ max_list (snd st) ;;
  ret (avg, pk).

End Code.
End wave_cavity_phi_pi.

(** ** wave3d_phi_pi.py: the 3-D field *)

Module wave3d_phi_pi.

Record P3D : Type := {
  N : Z;
  c : float;
  dx : float;
  dt : float;
  steps : Z;
  gamma_interior : float;
  pml_len : Z;
  pml_max : float;
  A : float;
  f_cycles : float;
  sigma_amp : float;
  phase_jitter : float;
  seed : Z
}.

(** [P3D()]: the dataclass defaults. *)
Definition default_params : P3D := {|
  N := 22; c := 1.0; dx := 1.0; dt := 0.35; steps := 700;
  gamma_interior := 2e-3; pml_len := 3; pml_max := 0.06;
  A := 0.7; f_cycles := 0.02; sigma_amp := 0.10; phase_jitter := 0.02;
  seed := 5
|}.

Record Wave3D : Type := {
  p : P3D;
  mode : Mode;
  r : float;
  N_ : Z;
  u_prev : list float;
  u : list float;
  u_next : list float;
  src : Z * Z * Z;
  gamma : list float;
  omega : float;
  phase : float
}.

(** [Wave3D.idx]: the flat index of node [(i, j, k)]. *)
Definition idx (n i j k : Z) : Z := ((k * n + j) * n + i)%Z.

(** [d = min(i, j, k, N-1-i, N-1-j, N-1-k)]: the depth of a node. *)
Definition depth (n i j k : Z) : Z :=
  Z.min i (Z.min j (Z.min k (Z.min (n - 1 - i) (Z.min (n - 1 - j) (n - 1 - k))))).

(** The extra damping of a node at depth [d]:
    [g = 0.0; if d < L: g = p.pml_max * (L - d) / L]. *)
Definition layer_damping (pr : P3D) (d : Z) : result float :=
  let L := pml_len pr in
  if (d <? L)%Z
  then truediv (pml_max pr * float_of_Z (L - d)) (float_of_Z L)
  else Ok 0.0%float.

(** The innermost statement of the three nested loops of [__init__]. *)
Definition pml_body (pr : P3D) (k j i : Z) (gam : list float) : result (list float) :=
  let n := N pr in
  rbind (layer_damping pr (depth n i j k)) (fun g =>
  additem gam (idx n i j k) g).

(** The damping profile [self.gamma] that [__init__] builds. *)
Definition damping_profile (pr : P3D) (m : Mode) : result (list float) :=
  let n := N pr in
  let base := replicate (gamma_interior pr) (n * n * n) in
  match m with
  | confined => Ok base
  | open =>
      for_each (range 0 n) (fun k =>
        for_each (range 0 n) (fun j =>
          for_each (range 0 n) (fun i => pml_body pr k j i))) base
  end.

(** The stability limit of [__init__], [1.0 / (3 ** 0.5)]: the power is
    the C library's [pow(3.0, 0.5)], the correctly rounded square root. *)
Definition courant_max : float := (1.0 / PrimFloat.sqrt 3)%float.

Section Code.
Context {lib : Library}.
Local Open Scope py_scope.

(** [Wave3D.__init__]. *)
Definition Wave3D_init (pr : P3D) (m : Mode) : M Wave3D :=
  random_seed (seed pr) ;;;
  r0 <~ truediv (c pr * dt pr) (dx pr) ;;
  if (courant_max <? r0)%float then raise ValueError
  else
    let n := N pr in
    gam <~ damping_profile pr m ;;
    ret {| p := pr; mode := m; r := r0; N_ := n;
           u_prev := replicate 0%float (n * n * n);
           u := replicate 0%float (n * n * n);
           u_next := replicate 0%float (n * n * n);
           src := (n / 2, n / 2, n / 2)%Z;
           gamma := gam;
           omega := (2.0 * math_pi * f_cycles pr)%float;
           phase := PHI_PI |}.

(** The drive sample [s] of [step], after the phase update. *)
Definition drive_sample (w : Wave3D) (n : Z) (ph : float) : M float :=
  z <- random_gauss 0.0 1.0 ;;
  let amp_noise := (1.0 + sigma_amp (p w) * z)%float in
  ret (A (p w) * amp_noise * math_sin (omega w * float_of_Z n + ph))%float.

(** One interior node of [step], at [idx = (k*N + j)*N + i]. *)
Definition interior_body (w : Wave3D) (k j i : Z) (nxt : list float)
  : result (list float) :=
  let n := N_ w in
  let d := dt (p w) in
  let r2 := (r w * r w)%float in
  let base := ((k * n + j) * n)%Z in
  let ix := (base + i)%Z in
  rbind (getitem (u w) (ix - 1)) (fun a1 =>
  rbind (getitem (u w) (ix + 1)) (fun a2 =>
  rbind (getitem (u w) (ix - n)) (fun a3 =>
  rbind (getitem (u w) (ix + n)) (fun a4 =>
  rbind (getitem (u w) (ix - n * n)) (fun a5 =>
  rbind (getitem (u w) (ix + n * n)) (fun a6 =>
  rbind (getitem (u w) ix) (fun a7 =>
  let lap := (a1 + a2 + a3 + a4 + a5 + a6 - 6.0 * a7)%float in
  rbind (getitem (gamma w) ix) (fun g =>
  rbind (getitem (u w) ix) (fun uc =>
  rbind (getitem (u_prev w) ix) (fun up =>
  setitem nxt ix ((2 - 2 * g * d) * uc - (1 - g * d) * up + r2 * lap)%float)))))))))).

(** The three nested loops of the interior update. *)
Definition interior_update (w : Wave3D) (nxt : list float) : result (list float) :=
  let n := N_ w in
  for_each (range 1 (n - 1)) (fun k =>
    for_each (range 1 (n - 1)) (fun j =>
      for_each (range 1 (n - 1)) (fun i => interior_body w k j i))) nxt.

(** The boundary writes of [step] in confined mode: the first pair of
    loops visits the planes [k = 0] and [k = N-1] only. *)
Definition confined_boundary (w : Wave3D) (nxt : list float) : result (list float) :=
  let n := N_ w in
  rbind
    (for_each [0%Z; (n - 1)%Z] (fun k =>
       let basek := (k * n * n)%Z in
       for_each (range 0 n) (fun j nx =>
         let base := (basek + j * n)%Z in
         rbind (setitem nx (base + 0) 0.0%float) (fun nx1 =>
         setitem nx1 (base + (n - 1)) 0.0%float))) nxt)
    (for_each (range 0 n) (fun k =>
       let basek := (k * n * n)%Z in
       for_each (range 0 n) (fun i nx =>
         rbind (setitem nx (basek + 0 * n + i) 0.0%float) (fun nx1 =>
         setitem nx1 (basek + (n - 1) * n + i) 0.0%float)))).

(** The boundary writes of [step] in open mode: the neighbour is copied
    on the faces [i = 0], [i = N-1], [j = 0] and [j = N-1]. *)
Definition open_boundary (w : Wave3D) (nxt : list float) : result (list float) :=
  let n := N_ w in
  rbind
    (for_each (range 0 n) (fun k =>
       let basek := (k * n * n)%Z in
       for_each (range 0 n) (fun j nx =>
         let base := (basek + j * n)%Z in
         rbind (getitem (u w) (base + 1)) (fun a =>
         rbind (setitem nx (base + 0) a) (fun nx1 =>
         rbind (getitem (u w) (base + (n - 2))) (fun b =>
         setitem nx1 (base + (n - 1)) b))))) nxt)
    (for_each (range 0 n) (fun k =>
       let basek := (k * n * n)%Z in
       for_each (range 0 n) (fun i nx =>
         rbind (getitem (u w) (basek + 1 * n + i)) (fun a =>
         rbind (setitem nx (basek + 0 * n + i) a) (fun nx1 =>
         rbind (getitem (u w) (basek + (n - 2) * n + i)) (fun b =>
         setitem nx1 (basek + (n - 1) * n + i) b)))))).

Definition boundary_update (w : Wave3D) (nxt : list float) : result (list float) :=
  match mode w with
  | confined => confined_boundary w nxt
  | open => open_boundary w nxt
  end.

(** [Wave3D.step]. *)
Definition step (w : Wave3D) (n : Z) : M Wave3D :=
  let pr := p w in
  j <- random_gauss 0.0 (phase_jitter pr) ;;
  let ph := (phase w + j)%float in
  s <- drive_sample w n ph ;;
  nxt1 <~ interior_update w (u_next w) ;;
  let '(isrc, jsrc, ksrc) := src w in
  let idx0 := idx (N_ w) isrc jsrc ksrc in
  nxt2 <~ additem nxt1 idx0 (dt pr * dt pr * s)%float ;;
  nxt3 <~ boundary_update w nxt2 ;;
  ret {| p := pr; mode := mode w; r := r w; N_ := N_ w;
         u_prev := u w; u := nxt3; u_next := u_prev w;
         src := src w; gamma := gamma w; omega := omega w; phase := ph |}.

(** One node of the sums of [energy]. *)
Definition energy_body (w : Wave3D) (k j i : Z) (acc : float * float)
  : result (float * float) :=
  let pr := p w in
  let n := N_ w in
  let ix := ((k * n + j) * n + i)%Z in
  rbind (getitem (u w) ix) (fun uc =>
  rbind (getitem (u_prev w) ix) (fun up =>
  rbind (truediv (uc - up) (dt pr)) (fun v =>
  rbind (getitem (u w) (ix + 1)) (fun x1 =>
  rbind (getitem (u w) (ix - 1)) (fun x0 =>
  rbind (truediv (0.5 * (x1 - x0)) (dx pr)) (fun ux =>
  rbind (getitem (u w) (ix + n)) (fun y1 =>
  rbind (getitem (u w) (ix - n)) (fun y0 =>
  rbind (truediv (0.5 * (y1 - y0)) (dx pr)) (fun uy =>
  rbind (getitem (u w) (ix + n * n)) (fun z1 =>
  rbind (getitem (u w) (ix - n * n)) (fun z0 =>
  rbind (truediv (0.5 * (z1 - z0)) (dx pr)) (fun uz =>
  Ok (fst acc + v * v, snd acc + (ux * ux + uy * uy + uz * uz))%float)))))))))))).

(** [Wave3D.energy]. *)
Definition energy (w : Wave3D) : result float :=
  let pr := p w in
  let n := N_ w in
  rbind
    (for_each (range 1 (n - 1)) (fun k =>
       for_each (range 1 (n - 1)) (fun j =>
         for_each (range 1 (n - 1)) (fun i => energy_body w k j i)))
       (0.0, 0.0)%float)
    (fun sums =>
       Ok (0.5 * (fst sums + (c pr * c pr) * snd sums) * float_pow (dx pr) 3)%float).

(** The body of the loop of [run_once]. *)
Definition run_body (pr : P3D) (n : Z) (st : Wave3D * list float)
  : M (Wave3D * list float) :=
  w <- step (fst st) n ;;
  if (steps pr / 2 <? n)%Z
  then e <~ energy w ;; ret (w, snd st ++ [e])
  else ret (w, snd st).

(** The simulation after the constructor and the first [k] iterations of
    the loop of [run_once]. *)
Definition run_prefix (k : nat) (m : Mode) (pr : P3D) : M (Wave3D * list float) :=
  w <- Wave3D_init pr m ;;
  for_eachM (firstn k (range 0 (steps pr))) (run_body pr) (w, []).

(** [run_once]: the returned expression is the pair of
    [statistics.fmean(energies)] and the conditional, so the mean is taken
    first, of an empty list too. *)
Definition run_once (m : Mode) (pr : P3D) : M (float * float) :=
  w <- Wave3D_init pr m ;;
  st <- for_eachM (range 0 (steps pr)) (run_body pr) (w, []) ;;
  avg <~ fmean (snd st) ;;
  pk <~ max_list (snd st) ;;
  ret (avg, pk).

End Code.
End wave3d_phi_pi.

(** ** ascii_phi_pi.py: the 2-D field *)

Module ascii_phi_pi.

Record Sim2D : Type := {
  W : Z;
  H : Z;
  dx : float;
  dt : float;
  c : float;
  r : float;
  u_prev : list (list float);
  u : list (list float);
  u_next : list (list float);
  A : float;
  f_cycles : float;
  omega : float;
  phase : float;
  sigma_amp : float;
  phase_jitter : float;
  gamma_interior : float;
  lock_on : bool;
  detune : float;
  boundary : Mode;
  sy : Z;
  sx : Z
}.

(** [[[0.0]*W for _ in range(H)]]. *)
Definition zero_grid (w h : Z) : list (list float) :=
  map (fun _ => replicate 0.0%float w) (range 0 h).

Section Code.
Context {lib : Library}.
Local Open Scope py_scope.

(** [Sim2D.__init__]: the steps and the wave speed are constants of the
    class, there is no stability check, and the generator is seeded last. *)
Definition Sim2D_init (w h : Z) : M Sim2D :=
  let dx0 := 1.0%float in
  let dt0 := 0.45%float in
  let c0 := 1.0%float in
  r0 <~ truediv (c0 * dt0) dx0 ;;
  let f := 0.02%float in
  random_seed 7 ;;;
  ret {| W := w; H := h; dx := dx0; dt := dt0; c := c0; r := r0;
         u_prev := zero_grid w h; u := zero_grid w h; u_next := zero_grid w h;
         A := 0.8; f_cycles := f; omega := (2.0 * math_pi * f)%float;
         phase := PHI_PI; sigma_amp := 0.10; phase_jitter := 0.02;
         gamma_interior := 1.5e-3; lock_on := true; detune := 1.00;
         boundary := confined; sy := (h / 2)%Z; sx := (w / 2)%Z |}.

(** [grid[y][x]], [grid[y][x] = v] and [grid[y][x] += d] on a list of rows.
    The rows of the three buffers are distinct lists (the constructor builds
    each one anew and [step] only exchanges the buffers), so a write to a
    row of one buffer is seen through that buffer only. *)
Definition cell (g : list (list float)) (y x : Z) : result float :=
  rbind (getitem g y) (fun row => getitem row x).

Definition set_cell (g : list (list float)) (y x : Z) (v : float)
  : result (list (list float)) :=
  rbind (getitem g y) (fun row =>
  rbind (setitem row x v) (fun row' => setitem g y row')).

Definition add_cell (g : list (list float)) (y x : Z) (d : float)
  : result (list (list float)) :=
  rbind (getitem g y) (fun row =>
  rbind (additem row x d) (fun row' => setitem g y row')).

(** One interior cell of [step], in the row [nx] of [u_next]. *)
Definition cell_body (s : Sim2D) (r2 : float) (up uc dn pv : list float) (x : Z)
  (nx : list float) : result (list float) :=
  rbind (getitem uc (x - 1)) (fun a1 =>
  rbind (getitem uc (x + 1)) (fun a2 =>
  rbind (getitem up x) (fun a3 =>
  rbind (getitem dn x) (fun a4 =>
  rbind (getitem uc x) (fun a5 =>
  let lap := (a1 + a2 + a3 + a4 - 4.0 * a5)%float in
  let g := gamma_interior s in
  rbind (getitem uc x) (fun c0 =>
  rbind (getitem pv x) (fun p0 =>
  setitem nx x ((2 - 2 * g * dt s) * c0 - (1 - g * dt s) * p0 + r2 * lap)%float))))))).

(** One interior row of [step]. *)
Definition row_body (s : Sim2D) (r2 : float) (y : Z) (nxt : list (list float))
  : result (list (list float)) :=
  rbind (getitem (u s) (y - 1)) (fun up =>
  rbind (getitem (u s) y) (fun uc =>
  rbind (getitem (u s) (y + 1)) (fun dn =>
  rbind (getitem nxt y) (fun nx =>
  rbind (getitem (u_prev s) y) (fun pv =>
  rbind (for_each (range 1 (W s - 1)) (cell_body s r2 up uc dn pv) nx) (fun nx' =>
  setitem nxt y nx')))))).

(** The boundary writes of [step]. *)
Definition boundary_update (s : Sim2D) (nxt : list (list float))
  : result (list (list float)) :=
  let h := H s in
  let w := W s in
  match boundary s with
  | confined =>
      rbind
        (for_each (range 0 w) (fun x g =>
           rbind (set_cell g 0 x 0.0%float) (fun g1 =>
           set_cell g1 (h - 1) x 0.0%float)) nxt)
        (for_each (range 0 h) (fun y g =>
           rbind (set_cell g y 0 0.0%float) (fun g1 =>
           set_cell g1 y (w - 1) 0.0%float)))
  | open =>
      rbind
        (for_each (range 0 w) (fun x g =>
           rbind (cell (u s) 1 x) (fun a =>
           rbind (set_cell g 0 x a) (fun g1 =>
           rbind (cell (u s) (h - 2) x) (fun b =>
           set_cell g1 (h - 1) x b)))) nxt)
        (for_each (range 0 h) (fun y g =>
           rbind (cell (u s) y 1) (fun a =>
           rbind (set_cell g y 0 a) (fun g1 =>
           rbind (cell (u s) y (w - 2)) (fun b =>
           set_cell g1 y (w - 1) b)))))
  end.

(** [Sim2D.step]. *)
Definition step (s : Sim2D) (n : Z) : M Sim2D :=
  z1 <- random_gauss 0 1 ;;
  let jitter := (phase_jitter s * z1)%float in
  let ph := if lock_on s
            then (phase s + (-0.15 * math_sin (phase s - PHI_PI) + jitter))%float
            else (phase s + jitter)%float in
  z2 <- random_gauss 0 1 ;;
  let amp_noise := (1.0 + sigma_amp s * z2)%float in
  let src := (A s * amp_noise
              * math_sin (detune s * omega s * float_of_Z n + ph))%float in
  let r2 := (r s * r s)%float in
  nxt1 <~ for_each (range 1 (H s - 1)) (row_body s r2) (u_next s) ;;
  nxt2 <~ add_cell nxt1 (sy s) (sx s) (dt s * dt s * src)%float ;;
  nxt3 <~ boundary_update s nxt2 ;;
  ret {| W := W s; H := H s; dx := dx s; dt := dt s; c := c s; r := r s;
         u_prev := u s; u := nxt3; u_next := u_prev s;
         A := A s; f_cycles := f_cycles s; omega := omega s;
         phase := ph; sigma_amp := sigma_amp s; phase_jitter := phase_jitter s;
         gamma_interior := gamma_interior s; lock_on := lock_on s;
         detune := detune s; boundary := boundary s; sy := sy s; sx := sx s |}.

(** [Sim2D.snapshot]. *)
Definition snapshot (s : Sim2D) : list (list float) := u s.

End Code.
End ascii_phi_pi.

(** ** The phase-lock rule

    The phase-error update of the oscillator loops is written once, over a
    carrier with the operations it uses.  The simulations run it on
    binary64 floats; read over the real numbers it is the same rule with
    exact arithmetic, the reading under which convergence is analysed. *)

Class Scalar (F : Type) : Type := {
  sadd : F -> F -> F;
  smul : F -> F -> F;
  sopp : F -> F;
  ssin : F -> F;
  spos : F -> bool   (* [x > 0.0] *)
}.

(** The first statement of the loop of [simulate_parametric]:
    [if K_eff > 0.0:
       delta += (-K_eff * math.sin(delta)) * dt + phase_jitter_scale * random.gauss(0.0, 1.0)
     else:
       delta += phase_jitter_scale * random.gauss(0.0, 1.0)],
    [xi] being the value [random.gauss(0.0, 1.0)] returned. *)
Definition phase_step {F : Type} {sc : Scalar F}
  (K_eff dt scale : F) (delta xi : F) : F :=
  if spos K_eff
  then sadd delta (sadd (smul (smul (sopp K_eff) (ssin delta)) dt) (smul scale xi))
  else sadd delta (smul scale xi).

(** The phase error after [n] iterations of the loop, [xi k] being the
    deviate drawn by iteration [k]. *)
Fixpoint phase_iter {F : Type} {sc : Scalar F}
  (K_eff dt scale : F) (xi : nat -> F) (n : nat) (delta0 : F) : F :=
  match n with
  | O => delta0
  | S n' => phase_step K_eff dt scale (phase_iter K_eff dt scale xi n' delta0) (xi n')
  end.

#[export] Instance float_scalar {lib : Library} : Scalar float := {|
  sadd := PrimFloat.add;
  smul := PrimFloat.mul;
  sopp := PrimFloat.opp;
  ssin := math_sin;
  spos := fun x => (0.0 <? x)%float
|}.

(** ** phi_pi_parametric_sim.py: the parametrically pumped oscillator *)

Module phi_pi_parametric_sim.

Record ParamParams : Type := {
  f0 : float;
  Q0 : float;
  beta : float;
  omega_drive_ratio : float;
  m_param : float;
  F0 : float;
  sigma_gamma : float;
  sigma_add : float;
  chaos_phase_sigma : float;
  K_lock : float;
  C_field : float;
  C_affect_gamma : float;
  C_affect_lock : float;
  phi_align : float;
  G_gain : float;
  dt : float;
  T : float;
  seed : Z;
  x0_seed : float;
  v0_seed : float
}.

(** [ParamParams()]: the dataclass defaults. *)
Definition default_params : ParamParams := {|
  f0 := 60.0; Q0 := 100.0; beta := 3.0e4;
  omega_drive_ratio := 1.0; m_param := 0.012; F0 := 0.0;
  sigma_gamma := 0.0; sigma_add := 1e-4; chaos_phase_sigma := 30.0;
  K_lock := 1500.0; C_field := 0.7; C_affect_gamma := 0.6; C_affect_lock := 1.0;
  phi_align := (math_pi - PHI_PI)%float;
  G_gain := 0.0; dt := 2e-5; T := 3.0; seed := 2;
  x0_seed := 1e-6; v0_seed := 0.0
|}.

(** What the code before the loop computes. *)
Record Setup : Type := {
  omega0 : float;
  omega_d : float;
  gamma0 : float;
  K_eff : float;
  steps : Z;
  phase_jitter_scale : float
}.

(** The variables the loop updates. *)
Record State : Type := {
  x : float;
  v : float;
  t : float;
  delta : float;
  E_vals : list float;
  x2_vals : list float
}.

(** The returned dictionary. *)
Record Metrics : Type := {
  E_avg : float;
  E_peak : float;
  x_rms : float;
  growth_ratio : float
}.

(** The statements from the seeding of the generator to the loop. *)
Definition setup (locked : bool) (pr : ParamParams) : result Setup :=
  let w0 := (2.0 * math_pi * f0 pr)%float in
  let wd := (omega_drive_ratio pr * w0)%float in
  rbind (truediv w0 (2.0 * Q0 pr)) (fun g0 =>
  let g0' := fmax 0.0 (g0 * (1.0 - C_field pr * C_affect_gamma pr))%float in
  let K := if locked then (K_lock pr * (1.0 + C_field pr * C_affect_lock pr))%float
           else 0.0%float in
  rbind (truediv (T pr) (dt pr)) (fun q =>
  rbind (int_of_float q) (fun n =>
  rbind (math_sqrt (dt pr)) (fun sq =>
  Ok {| omega0 := w0; omega_d := wd; gamma0 := g0'; K_eff := K;
        steps := n; phase_jitter_scale := (chaos_phase_sigma pr * sq)%float |})))).

Definition initial_state (pr : ParamParams) : State :=
  {| x := x0_seed pr; v := v0_seed pr; t := 0.0; delta := 0.0;
     E_vals := []; x2_vals := [] |}.

Section Code.
Context {lib : Library}.
Local Open Scope py_scope.

(** The helper [energy]. *)
Definition energy (pr : ParamParams) (su : Setup) (x0 v0 : float) : float :=
  (0.5 * v0 * v0 + 0.5 * omega0 su * omega0 su * x0 * x0
   + 0.25 * beta pr * x0 * x0 * x0 * x0)%float.

(** The helper [acc]: every call draws its own additive noise. *)
Definition acc (pr : ParamParams) (su : Setup)
  (t_local x_local v_local k_mod gamma_eff delta_phase : float) : M float :=
  let theta := (PHI_PI + delta_phase)%float in
  let drive := (F0 pr * math_cos (omega_d su * t_local + theta))%float in
  z <- random_gauss 0.0 1.0 ;;
  let a_noise := (sigma_add pr * z)%float in
  ret (-2.0 * gamma_eff * v_local - (omega0 su * omega0 su + k_mod) * x_local
       - beta pr * float_pow x_local 3 + drive + a_noise)%float.

(** The body of the main loop. *)
Definition loop_body (pr : ParamParams) (su : Setup) (n : Z) (st : State) : M State :=
  let h := dt pr in
  xi <- random_gauss 0.0 1.0 ;;
  let delta1 := phase_step (K_eff su) h (phase_jitter_scale su) (delta st) xi in
  zg <- random_gauss 0.0 1.0 ;;
  let gamma_eff := (fmax 0.0 (gamma0 su - G_gain pr) + sigma_gamma pr * zg)%float in
  let theta_pump := (PHI_PI + delta1 + phi_align pr)%float in
  let k_mod := (omega0 su * omega0 su * m_param pr
                * math_cos (2.0 * omega_d su * t st + theta_pump))%float in
  let x0 := x st in
  let v0 := v st in
  let t0 := t st in
  a1 <- acc pr su t0 x0 v0 k_mod gamma_eff delta1 ;;
  let k1x := v0 in
  let k1v := a1 in
  a2 <- acc pr su (t0 + 0.5 * h) (x0 + 0.5 * h * k1x) (v0 + 0.5 * h * k1v)
          k_mod gamma_eff delta1 ;;
  let k2x := (v0 + 0.5 * h * k1v)%float in
  let k2v := a2 in
  a3 <- acc pr su (t0 + 0.5 * h) (x0 + 0.5 * h * k2x) (v0 + 0.5 * h * k2v)
          k_mod gamma_eff delta1 ;;
  let k3x := (v0 + 0.5 * h * k2v)%float in
  let k3v := a3 in
  a4 <- acc pr su (t0 + h) (x0 + h * k3x) (v0 + h * k3v) k_mod gamma_eff delta1 ;;
  let k4x := (v0 + h * k3v)%float in
  let k4v := a4 in
  let hsix := (h / 6.0)%float in
  let x1 := (x0 + hsix * (k1x + 2.0 * k2x + 2.0 * k3x + k4x))%float in
  let v1 := (v0 + hsix * (k1v + 2.0 * k2v + 2.0 * k3v + k4v))%float in
  let t1 := (t0 + h)%float in
  if (steps su / 2 <? n)%Z
  then ret {| x := x1; v := v1; t := t1; delta := delta1;
              E_vals := E_vals st ++ [energy pr su x1 v1];
              x2_vals := x2_vals st ++ [(x1 * x1)%float] |}
  else ret {| x := x1; v := v1; t := t1; delta := delta1;
              E_vals := E_vals st; x2_vals := x2_vals st |}.

(** The growth indicator computed from the collected energies. *)
Definition growth_indicator (E : list float) : result float :=
  let m := Z.of_nat (length E) in
  if (20 <=? m)%Z
  then
    rbind (fmean (slice_to E (m / 10))) (fun E_head =>
    rbind (fmean (slice_from E (- m / 10))) (fun E_tail =>
    if (0 <? E_head)%float then truediv E_tail E_head else Ok infinity))
  else Ok 1.0%float.

(** The statements after the loop. *)
Definition metrics (st : State) : result Metrics :=
  rbind (match E_vals st with [] => Ok 0.0%float | _ => fmean (E_vals st) end) (fun avg =>
  rbind (match E_vals st with [] => Ok 0.0%float | _ => max_list (E_vals st) end) (fun pk =>
  rbind (match x2_vals st with
         | [] => Ok 0.0%float
         | _ => rbind (fmean (x2_vals st)) math_sqrt
         end) (fun rms =>
  rbind (growth_indicator (E_vals st)) (fun gr =>
  Ok {| E_avg := avg; E_peak := pk; x_rms := rms; growth_ratio := gr |})))).

(** The state after the first [k] iterations of the loop. *)
Definition run_prefix (k : nat) (locked : bool) (pr : ParamParams) (sd : Z) : M State :=
  random_seed sd ;;;
  su <~ setup locked pr ;;
  for_eachM (firstn k (range 0 (steps su))) (loop_body pr su) (initial_state pr).

(** [simulate_parametric]. *)
Definition simulate_parametric (locked : bool) (pr : ParamParams) (sd : Z) : M Metrics :=
  random_seed sd ;;;
  su <~ setup locked pr ;;
  st <- for_eachM (range 0 (steps su)) (loop_body pr su) (initial_state pr) ;;
  lift (metrics st).

End Code.
End phi_pi_parametric_sim.

(** ** phi_pi_wireless_sim.py: the directly driven oscillator *)

Module phi_pi_wireless_sim.

Record SimParams : Type := {
  f0 : float;
  Q0 : float;
  beta : float;
  F0 : float;
  omega_drive_ratio : float;
  sigma_drive : float;
  chaos_phase_sigma : float;
  K_lock : float;
  C_field : float;
  C_affect_gamma : float;
  C_affect_lock : float;
  G_gain : float;
  dt : float;
  T : float
}.

(** [SimParams()]: the dataclass defaults. *)
Definition default_params : SimParams := {|
  f0 := 50.0; Q0 := 200.0; beta := 1e4; F0 := 1.0; omega_drive_ratio := 1.0;
  sigma_drive := 0.3; chaos_phase_sigma := 20.0; K_lock := 800.0;
  C_field := 0.5; C_affect_gamma := 0.5; C_affect_lock := 1.0;
  G_gain := 0.0; dt := 2e-5; T := 0.5
|}.

Record SimState : Type := {
  x : float;
  v : float;
  delta : float
}.

(** The quantities fixed before the loop. *)
Record Setup : Type := {
  omega0 : float;
  omega_d : float;
  gamma : float;
  K : float;
  n_steps : Z
}.

(** The variables the loop updates. *)
Record Loop : Type := {
  st : SimState;
  t : float;
  energy_hist : list float;
  drive_power_hist : list float;
  diss_power_hist : list float;
  x_hist : list float
}.

(** The returned dictionary. *)
Record Metrics : Type := {
  E_avg : float;
  E_peak : float;
  x_rms : float;
  P_in_avg : float;
  P_diss_avg : float;
  eff_proxy : float;
  gamma_out : float;
  K_out : float;
  omega0_out : float;
  omega_d_out : float
}.

(** [_gamma_from_Q]: the quality factor is clamped from below, not checked. *)
Definition _gamma_from_Q (w0 Q : float) : result float :=
  truediv w0 (2.0 * fmax Q 1e-6).

Section Code.
Context {lib : Library}.
Local Open Scope py_scope.

(** The closure [derivatives] of one iteration: it reads the two noise
    values drawn before it and draws nothing itself. *)
Definition derivatives (lock : bool) (pr : SimParams) (su : Setup)
  (noise_phase drive_noise : float) (x0 v0 delta0 local_t : float)
  : float * float * float * float :=
  let d_delta := if lock then (- K su * math_sin delta0 + noise_phase)%float
                 else noise_phase in
  let drive := (F0 pr * math_cos (omega_d su * local_t + PHI_PI + delta0)
                + drive_noise)%float in
  let a := (- (2.0 * gamma su - G_gain pr) * v0 - float_pow (omega0 su) 2 * x0
            - beta pr * float_pow x0 3 + drive)%float in
  (v0, a, d_delta, drive).

(** The body of the integration loop. *)
Definition loop_body (lock : bool) (pr : SimParams) (su : Setup) (i : Z) (lp : Loop)
  : M Loop :=
  let h := dt pr in
  z1 <- random_gauss 0.0 1.0 ;;
  let noise_phase := (chaos_phase_sigma pr * z1 * float_pow h 0.5)%float in
  z2 <- random_gauss 0.0 1.0 ;;
  let drive_noise := (sigma_drive pr * z2 * float_pow h 0.5)%float in
  let f := derivatives lock pr su noise_phase drive_noise in
  let s := st lp in
  let t0 := t lp in
  let '(x1, v1, d1, drv1) := f (x s) (v s) (delta s) t0 in
  let '(x2, v2, d2, drv2) :=
    f (x s + 0.5 * h * x1)%float (v s + 0.5 * h * v1)%float
      (delta s + 0.5 * h * d1)%float (t0 + 0.5 * h)%float in
  let '(x3, v3, d3, drv3) :=
    f (x s + 0.5 * h * x2)%float (v s + 0.5 * h * v2)%float
      (delta s + 0.5 * h * d2)%float (t0 + 0.5 * h)%float in
  let '(x4, v4, d4, drv4) :=
    f (x s + h * x3)%float (v s + h * v3)%float
      (delta s + h * d3)%float (t0 + h)%float in
  let xn := (x s + (h / 6.0) * (x1 + 2 * x2 + 2 * x3 + x4))%float in
  let vn := (v s + (h / 6.0) * (v1 + 2 * v2 + 2 * v3 + v4))%float in
  let dn := (delta s + (h / 6.0) * (d1 + 2 * d2 + 2 * d3 + d4))%float in
  let drive_inst := ((drv1 + 2 * drv2 + 2 * drv3 + drv4) / 6.0)%float in
  let energy_inst := (0.5 * (float_pow vn 2 + float_pow (omega0 su) 2 * float_pow xn 2)
                      + 0.25 * beta pr * float_pow xn 4)%float in
  let p_in_inst := (drive_inst * vn)%float in
  let p_diss_inst := (2.0 * gamma su * float_pow vn 2)%float in
  ret {| st := {| x := xn; v := vn; delta := dn |};
         t := (t0 + h)%float;
         energy_hist := energy_hist lp ++ [energy_inst];
         drive_power_hist := drive_power_hist lp ++ [p_in_inst];
         diss_power_hist := diss_power_hist lp ++ [p_diss_inst];
         x_hist := x_hist lp ++ [xn] |}.

(** The statements after the loop. *)
Definition metrics (su : Setup) (lp : Loop) : result Metrics :=
  let half := (Z.of_nat (length (energy_hist lp)) / 2)%Z in
  rbind (fmean (slice_from (energy_hist lp) half)) (fun avg =>
  rbind (max_list (slice_from (energy_hist lp) half)) (fun pk =>
  rbind (fmean (map (fun xx => (xx * xx)%float) (slice_from (x_hist lp) half))) (fun m2 =>
  rbind (math_sqrt m2) (fun rms =>
  rbind (fmean (slice_from (drive_power_hist lp) half)) (fun pin =>
  rbind (fmean (slice_from (diss_power_hist lp) half)) (fun pdiss =>
  let denom := if (1e-12 <? abs pin)%float then abs pin else 1e-12%float in
  rbind (truediv (abs pdiss) denom) (fun q =>
  let eff := fmax 0.0 (fmin 2.0 q) in
  Ok {| E_avg := avg; E_peak := pk; x_rms := rms; P_in_avg := pin;
        P_diss_avg := pdiss; eff_proxy := eff; gamma_out := gamma su;
        K_out := K su; omega0_out := omega0 su; omega_d_out := omega_d su |}))))))).

(** The statements before the loop, from the seeding of the generator on;
    the initial phase error is drawn uniformly from [-pi, pi). *)
Definition start (lock : bool) (pr : SimParams) (sd : Z) : M (Setup * Loop) :=
  random_seed sd ;;;
  let w0 := (2.0 * math_pi * f0 pr)%float in
  let wd := (w0 * omega_drive_ratio pr)%float in
  g0 <~ _gamma_from_Q w0 (Q0 pr) ;;
  let g := fmax 1e-8 (g0 * (1.0 - C_affect_gamma pr * C_field pr))%float in
  let k := if lock then (K_lock pr * (1.0 + C_affect_lock pr * C_field pr))%float
           else 0.0%float in
  u0 <- random_random ;;
  let s0 := {| x := 0.0; v := 0.0; delta := ((u0 - 0.5) * 2.0 * math_pi)%float |} in
  q <~ truediv (T pr) (dt pr) ;;
  n <~ int_of_float q ;;
  ret ({| omega0 := w0; omega_d := wd; gamma := g; K := k; n_steps := n |},
       {| st := s0; t := 0.0; energy_hist := []; drive_power_hist := [];
          diss_power_hist := []; x_hist := [] |}).

(** The loop variables after the first [k] iterations. *)
Definition run_prefix (k : nat) (lock : bool) (pr : SimParams) (sd : Z) : M Loop :=
  sl <- start lock pr sd ;;
  let su := fst sl in
  for_eachM (firstn k (range 0 (n_steps su))) (loop_body lock pr su) (snd sl).

(** [simulate]. *)
Definition simulate (lock : bool) (pr : SimParams) (sd : Z) : M Metrics :=
  sl <- start lock pr sd ;;
  let su := fst sl in
  lp <- for_eachM (range 0 (n_steps su)) (loop_body lock pr su) (snd sl) ;;
  lift (metrics su lp).

End Code.
End phi_pi_wireless_sim.

(** ** sweep_phi_pi.py: the damping the sweep scales its gain by *)

Module sweep_phi_pi.

(** [compute_gamma]; [pi] is [math.pi]. *)
Definition compute_gamma (pr : phi_pi_wireless_sim.SimParams) : result float :=
  let omega0 := (2.0 * math_pi * phi_pi_wireless_sim.f0 pr)%float in
  rbind (phi_pi_wireless_sim._gamma_from_Q omega0 (phi_pi_wireless_sim.Q0 pr))
    (fun gamma0 =>
       Ok (fmax 1e-8 (gamma0 * (1.0 - phi_pi_wireless_sim.C_affect_gamma pr
                                      * phi_pi_wireless_sim.C_field pr))%float)).

(** The record with the active gain [G_gain] replaced and every other
    field copied, as [main] builds its active scenarios. *)
Definition with_G_gain (pr : phi_pi_wireless_sim.SimParams) (g : float)
  : phi_pi_wireless_sim.SimParams :=
  {| phi_pi_wireless_sim.f0 := phi_pi_wireless_sim.f0 pr;
     phi_pi_wireless_sim.Q0 := phi_pi_wireless_sim.Q0 pr;
     phi_pi_wireless_sim.beta := phi_pi_wireless_sim.beta pr;
     phi_pi_wireless_sim.F0 := phi_pi_wireless_sim.F0 pr;
     phi_pi_wireless_sim.omega_drive_ratio := phi_pi_wireless_sim.omega_drive_ratio pr;
     phi_pi_wireless_sim.sigma_drive := phi_pi_wireless_sim.sigma_drive pr;
     phi_pi_wireless_sim.chaos_phase_sigma := phi_pi_wireless_sim.chaos_phase_sigma pr;
     phi_pi_wireless_sim.K_lock := phi_pi_wireless_sim.K_lock pr;
     phi_pi_wireless_sim.C_field := phi_pi_wireless_sim.C_field pr;
     phi_pi_wireless_sim.C_affect_gamma := phi_pi_wireless_sim.C_affect_gamma pr;
     phi_pi_wireless_sim.C_affect_lock := phi_pi_wireless_sim.C_affect_lock pr;
     phi_pi_wireless_sim.G_gain := g;
     phi_pi_wireless_sim.dt := phi_pi_wireless_sim.dt pr;
     phi_pi_wireless_sim.T := phi_pi_wireless_sim.T pr |}.

End sweep_phi_pi.

(** ** parametric_sweep.py: the colour scale of the heat map *)

Module parametric_sweep.

(** [_scale]. *)
Definition _scale (value vmin vmax : float) : result float :=
  if (vmax <=? vmin)%float then Ok 0.0%float
  else rbind (truediv (value - vmin) (vmax - vmin)) (fun q =>
       Ok (fmax 0.0 (fmin 1.0 q))).

End parametric_sweep.

(** ** Field configurations and the stability limit *)

(** What a field simulation is constructed from: the parameter record and
    the boundary mode of the 1-D and 3-D classes, the grid size of the 2-D
    class (whose steps and wave speed are constants of the class). *)
Inductive FieldConfig : Type :=
| Field1D (pr : wave_cavity_phi_pi.CavityParams) (m : Mode)
| Field2D (w h : Z)
| Field3D (pr : wave3d_phi_pi.P3D) (m : Mode).

(** The grid dimensionality [d]. *)
Definition dimension (cfg : FieldConfig) : Z :=
  match cfg with Field1D _ _ => 1 | Field2D _ _ => 2 | Field3D _ _ => 3 end.

(** The Courant number [r = c * dt / dx] of a configuration. *)
Definition courant_number (cfg : FieldConfig) : float :=
  match cfg with
  | Field1D pr _ =>
      (wave_cavity_phi_pi.c pr * wave_cavity_phi_pi.dt pr / wave_cavity_phi_pi.dx pr)%float
  | Field2D _ _ => (1.0 * 0.45 / 1.0)%float
  | Field3D pr _ =>
      (wave3d_phi_pi.c pr * wave3d_phi_pi.dt pr / wave3d_phi_pi.dx pr)%float
  end.

(** The stability limit [1 / sqrt(d)]. *)
Definition courant_limit (d : Z) : float := (1 / PrimFloat.sqrt (float_of_Z d))%float.

(** Running the constructor of a configuration: the exception it raises,
    if any. *)
Definition construct {lib : Library} (cfg : FieldConfig) : M unit :=
  match cfg with
  | Field1D pr m => bind (wave_cavity_phi_pi.WaveCavity_init pr m) (fun _ => ret tt)
  | Field2D w h => bind (ascii_phi_pi.Sim2D_init w h) (fun _ => ret tt)
  | Field3D pr m => bind (wave3d_phi_pi.Wave3D_init pr m) (fun _ => ret tt)
  end.

(** ** A library instance for concrete runs

    The generator counts its draws from the seed on and returns the count
    as the deviate; sine and cosine are replaced by the identity and by the
    constant one, powers by repeated products for the exponents the code
    uses, and the mean by the plain sum divided by the length.  It serves
    only to run the embedding on concrete inputs. *)
Definition counting_library : Library := {|
  rng := Z;
  rng_seed := fun n => n;
  rng_gauss := fun g => (float_of_Z g, (g + 1)%Z);
  rng_random := fun g => (0.5%float, (g + 1)%Z);
  math_sin := fun x => x;
  math_cos := fun _ => 1.0%float;
  float_pow := fun x y =>
    if (y =? 2)%float then (x * x)%float
    else if (y =? 3)%float then (x * x * x)%float
    else if (y =? 4)%float then (x * x * x * x)%float
    else PrimFloat.sqrt x;
  stat_fmean := fun l =>
    (fold_left PrimFloat.add l 0.0 / float_of_Z (Z.of_nat (length l)))%float
|}.

(** The 1-D defaults with the time step raised to [2.0]: Courant number 2. *)
Definition unstable_params : wave_cavity_phi_pi.CavityParams :=
  {| wave_cavity_phi_pi.N := 600; wave_cavity_phi_pi.c := 1.0;
     wave_cavity_phi_pi.dx := 1.0; wave_cavity_phi_pi.dt := 2.0;
     wave_cavity_phi_pi.steps := 9000; wave_cavity_phi_pi.gamma_interior := 1e-3;
     wave_cavity_phi_pi.pml_len := 80; wave_cavity_phi_pi.pml_max := 0.02;
     wave_cavity_phi_pi.i_src := 60; wave_cavity_phi_pi.A := 0.6;
     wave_cavity_phi_pi.f_cycles := 0.02; wave_cavity_phi_pi.sigma_amp := 0.10;
     wave_cavity_phi_pi.phase_jitter := 0.02; wave_cavity_phi_pi.seed := 4 |}.

(** ** Diagnostics, as the specification words them *)

(** The growth ratio of a sequence of post-burn-in energy samples: 1.0
    below 20 samples; otherwise the mean of the last tenth of the samples
    (rounded up to a whole number of samples) over the mean of the first
    tenth (rounded down), and infinity when the head mean is not greater
    than 0. *)
Definition spec_growth_ratio {lib : Library} (E : list float) : float :=
  let m := length E in
  if (m <? 20)%nat then 1.0%float
  else
    let head_mean := stat_fmean (firstn (m / 10) E) in
    let tail_mean := stat_fmean (skipn (m - (m + 9) / 10) E) in
    if (0 <? head_mean)%float then (tail_mean / head_mean)%float else infinity.

(** The generator after [n] successive calls of [random.gauss]. *)
Fixpoint draws {lib : Library} (n : nat) (g : rng) : rng :=
  match n with
  | O => g
  | S n' => snd (rng_gauss (draws n' g))
  end.

(** The deviate the [n]-th next call of [random.gauss] obtains ([n] from 0). *)
Definition deviate {lib : Library} (n : nat) (g : rng) : float :=
  fst (rng_gauss (draws n g)).

(** A two-node grid with the source configured on node 0. *)
Definition two_node_params : wave_cavity_phi_pi.CavityParams :=
  {| wave_cavity_phi_pi.N := 2; wave_cavity_phi_pi.c := 1.0;
     wave_cavity_phi_pi.dx := 1.0; wave_cavity_phi_pi.dt := 0.5;
     wave_cavity_phi_pi.steps := 9000; wave_cavity_phi_pi.gamma_interior := 1e-3;
     wave_cavity_phi_pi.pml_len := 0; wave_cavity_phi_pi.pml_max := 0.02;
     wave_cavity_phi_pi.i_src := 0; wave_cavity_phi_pi.A := 0.6;
     wave_cavity_phi_pi.f_cycles := 0.02; wave_cavity_phi_pi.sigma_amp := 0.10;
     wave_cavity_phi_pi.phase_jitter := 0.02; wave_cavity_phi_pi.seed := 4 |}.

(** The parametric defaults with the horizon cut to 50 steps, of which 24
    fall after burn-in. *)
Definition short_run_params : phi_pi_parametric_sim.ParamParams :=
  {| phi_pi_parametric_sim.f0 := 60.0; phi_pi_parametric_sim.Q0 := 100.0;
     phi_pi_parametric_sim.beta := 3.0e4;
     phi_pi_parametric_sim.omega_drive_ratio := 1.0;
     phi_pi_parametric_sim.m_param := 0.012; phi_pi_parametric_sim.F0 := 0.0;
     phi_pi_parametric_sim.sigma_gamma := 0.0;
     phi_pi_parametric_sim.sigma_add := 1e-4;
     phi_pi_parametric_sim.chaos_phase_sigma := 30.0;
     phi_pi_parametric_sim.K_lock := 1500.0; phi_pi_parametric_sim.C_field := 0.7;
     phi_pi_parametric_sim.C_affect_gamma := 0.6;
     phi_pi_parametric_sim.C_affect_lock := 1.0;
     phi_pi_parametric_sim.phi_align := (math_pi - PHI_PI)%float;
     phi_pi_parametric_sim.G_gain := 0.0; phi_pi_parametric_sim.dt := 2e-5;
     phi_pi_parametric_sim.T := 1e-3; phi_pi_parametric_sim.seed := 2;
     phi_pi_parametric_sim.x0_seed := 1e-6; phi_pi_parametric_sim.v0_seed := 0.0 |}.

(** The parametric defaults with one field of the record replaced. *)
Definition with_Q0_dt (q h : float) : phi_pi_parametric_sim.ParamParams :=
  {| phi_pi_parametric_sim.f0 := 60.0; phi_pi_parametric_sim.Q0 := q;
     phi_pi_parametric_sim.beta := 3.0e4;
     phi_pi_parametric_sim.omega_drive_ratio := 1.0;
     phi_pi_parametric_sim.m_param := 0.012; phi_pi_parametric_sim.F0 := 0.0;
     phi_pi_parametric_sim.sigma_gamma := 0.0;
     phi_pi_parametric_sim.sigma_add := 1e-4;
     phi_pi_parametric_sim.chaos_phase_sigma := 30.0;
     phi_pi_parametric_sim.K_lock := 1500.0; phi_pi_parametric_sim.C_field := 0.7;
     phi_pi_parametric_sim.C_affect_gamma := 0.6;
     phi_pi_parametric_sim.C_affect_lock := 1.0;
     phi_pi_parametric_sim.phi_align := (math_pi - PHI_PI)%float;
     phi_pi_parametric_sim.G_gain := 0.0; phi_pi_parametric_sim.dt := h;
     phi_pi_parametric_sim.T := 3.0; phi_pi_parametric_sim.seed := 2;
     phi_pi_parametric_sim.x0_seed := 1e-6; phi_pi_parametric_sim.v0_seed := 0.0 |}.

(** ** The phase-lock rule over the real numbers *)

(** [x > 0.0] on reals. *)
Definition Rpos (x : R) : bool := if Rlt_dec 0 x then true else false.

(** The carrier of exact arithmetic: the rule of [phase_step] with real
    addition, multiplication and sine. *)
#[export] Instance real_scalar : Scalar R := {|
  sadd := Rplus;
  smul := Rmult;
  sopp := Ropp;
  ssin := sin;
  spos := Rpos
|}.

(** ** Well-formed 1-D fields *)

(** The three buffers and the damping profile of a field have one entry
    per grid node. *)
Definition well_formed (cav : wave_cavity_phi_pi.WaveCavity) : Prop :=
  let n := wave_cavity_phi_pi.N (wave_cavity_phi_pi.p cav) in
  Z.of_nat (length (wave_cavity_phi_pi.u_prev cav)) = n
  /\ Z.of_nat (length (wave_cavity_phi_pi.u cav)) = n
  /\ Z.of_nat (length (wave_cavity_phi_pi.u_next cav)) = n
  /\ Z.of_nat (length (wave_cavity_phi_pi.gamma cav)) = n.

(** ** The 1-D damping profile in closed form *)

(** What the 1-D constructor adds at the node [i] nodes away from an end:
    [p.pml_max * (i + 1) / L]. *)
Definition layer_extra_1d (pr : wave_cavity_phi_pi.CavityParams) (i : Z) : float :=
  (wave_cavity_phi_pi.pml_max pr * float_of_Z (i + 1)
   / float_of_Z (wave_cavity_phi_pi.pml_len pr))%float.

(** The damping of node [i] once the layer loop has handled the depths
    below [j]. *)
Definition profile_1d_after (pr : wave_cavity_phi_pi.CavityParams) (j i : Z) : float :=
  let base := wave_cavity_phi_pi.gamma_interior pr in
  let n := wave_cavity_phi_pi.N pr in
  if (i <? j)%Z then (base + layer_extra_1d pr i)%float
  else if (n - 1 - j <? i)%Z then (base + layer_extra_1d pr (n - 1 - i))%float
  else base.

(** The extra damping the specification asks for at depth [d] of a layer of
    length [L]: ramped linearly from 0 at depth [L] to [max] at depth 0. *)
Definition spec_layer_extra (max : float) (L d : Z) : float :=
  (max * float_of_Z (L - d) / float_of_Z L)%float.

(** A 3-D grid of 6 nodes per axis with a layer of length 2. *)
Definition small_3d_params : wave3d_phi_pi.P3D :=
  {| wave3d_phi_pi.N := 6; wave3d_phi_pi.c := 1.0; wave3d_phi_pi.dx := 1.0;
     wave3d_phi_pi.dt := 0.35; wave3d_phi_pi.steps := 700;
     wave3d_phi_pi.gamma_interior := 2e-3; wave3d_phi_pi.pml_len := 2;
     wave3d_phi_pi.pml_max := 0.06; wave3d_phi_pi.A := 0.7;
     wave3d_phi_pi.f_cycles := 0.02; wave3d_phi_pi.sigma_amp := 0.10;
     wave3d_phi_pi.phase_jitter := 0.02; wave3d_phi_pi.seed := 5 |}.

(** ** Finite floats *)

(** A float that is neither an infinity nor NaN. *)
Definition finite (x : float) : bool :=
  match Prim2SF x with
  | S754_zero _ | S754_finite _ _ _ => true
  | S754_infinity _ | S754_nan => false
  end.

(** A float other than the negative zero. *)
Definition not_negative_zero (x : float) : bool :=
  match Prim2SF x with
  | S754_zero true => false
  | _ => true
  end.

(** ** Burn-in *)

(** How many of the loop indices [0, ..., i - 1] pass the burn-in test
    [n > steps // 2]. *)
Definition samples_after (steps i : Z) : Z :=
  Z.max 0 (i - Z.max 0 (steps / 2 + 1)).

(** A five-node cavity run with a given step count and time step. *)
Definition small_cavity (n_steps : Z) (h : float) : wave_cavity_phi_pi.CavityParams :=
  {| wave_cavity_phi_pi.N := 5; wave_cavity_phi_pi.c := 1.0;
     wave_cavity_phi_pi.dx := 1.0; wave_cavity_phi_pi.dt := h;
     wave_cavity_phi_pi.steps := n_steps; wave_cavity_phi_pi.gamma_interior := 1e-3;
     wave_cavity_phi_pi.pml_len := 1; wave_cavity_phi_pi.pml_max := 0.02;
     wave_cavity_phi_pi.i_src := 2; wave_cavity_phi_pi.A := 0.6;
     wave_cavity_phi_pi.f_cycles := 0.02; wave_cavity_phi_pi.sigma_amp := 0.10;
     wave_cavity_phi_pi.phase_jitter := 0.02; wave_cavity_phi_pi.seed := 4 |}.

(** The field the constructor returns for [small_cavity] in confined mode
    with the Courant number [r0]. *)
Definition small_cavity_field (n_steps : Z) (h r0 : float) : wave_cavity_phi_pi.WaveCavity :=
  {| wave_cavity_phi_pi.p := small_cavity n_steps h;
     wave_cavity_phi_pi.mode := confined;
     wave_cavity_phi_pi.r := r0;
     wave_cavity_phi_pi.u_prev := replicate 0%float 5;
     wave_cavity_phi_pi.u := replicate 0%float 5;
     wave_cavity_phi_pi.u_next := replicate 0%float 5;
     wave_cavity_phi_pi.gamma := replicate 1e-3%float 5;
     wave_cavity_phi_pi.omega := (2.0 * math_pi * 0.02)%float;
     wave_cavity_phi_pi.phase := PHI_PI |}.

(** The parametric defaults with the horizon [T] replaced. *)
Definition with_horizon (horizon : float) : phi_pi_parametric_sim.ParamParams :=
  {| phi_pi_parametric_sim.f0 := 60.0; phi_pi_parametric_sim.Q0 := 100.0;
     phi_pi_parametric_sim.beta := 3.0e4;
     phi_pi_parametric_sim.omega_drive_ratio := 1.0;
     phi_pi_parametric_sim.m_param := 0.012; phi_pi_parametric_sim.F0 := 0.0;
     phi_pi_parametric_sim.sigma_gamma := 0.0;
     phi_pi_parametric_sim.sigma_add := 1e-4;
     phi_pi_parametric_sim.chaos_phase_sigma := 30.0;
     phi_pi_parametric_sim.K_lock := 1500.0; phi_pi_parametric_sim.C_field := 0.7;
     phi_pi_parametric_sim.C_affect_gamma := 0.6;
     phi_pi_parametric_sim.C_affect_lock := 1.0;
     phi_pi_parametric_sim.phi_align := (math_pi - PHI_PI)%float;
     phi_pi_parametric_sim.G_gain := 0.0; phi_pi_parametric_sim.dt := 1.0;
     phi_pi_parametric_sim.T := horizon; phi_pi_parametric_sim.seed := 2;
     phi_pi_parametric_sim.x0_seed := 1e-6; phi_pi_parametric_sim.v0_seed := 0.0 |}.

(** The defaults of [SimParams] with the time step and the horizon
    replaced. *)
Definition wireless_run (h horizon : float) : phi_pi_wireless_sim.SimParams :=
  {| phi_pi_wireless_sim.f0 := 50.0; phi_pi_wireless_sim.Q0 := 200.0;
     phi_pi_wireless_sim.beta := 1e4; phi_pi_wireless_sim.F0 := 1.0;
     phi_pi_wireless_sim.omega_drive_ratio := 1.0;
     phi_pi_wireless_sim.sigma_drive := 0.3;
     phi_pi_wireless_sim.chaos_phase_sigma := 20.0;
     phi_pi_wireless_sim.K_lock := 800.0; phi_pi_wireless_sim.C_field := 0.5;
     phi_pi_wireless_sim.C_affect_gamma := 0.5;
     phi_pi_wireless_sim.C_affect_lock := 1.0;
     phi_pi_wireless_sim.G_gain := 0.0; phi_pi_wireless_sim.dt := h;
     phi_pi_wireless_sim.T := horizon |}.

(** ** Parameter records that differ in the absorbing layer only *)

(** The record with [pml_len] and [pml_max] replaced and every other field
    copied, as the absorption sweep builds the records of its open runs. *)
Definition with_layer (pr : wave_cavity_phi_pi.CavityParams) (len : Z) (mx : float)
  : wave_cavity_phi_pi.CavityParams :=
  {| wave_cavity_phi_pi.N := wave_cavity_phi_pi.N pr;
     wave_cavity_phi_pi.c := wave_cavity_phi_pi.c pr;
     wave_cavity_phi_pi.dx := wave_cavity_phi_pi.dx pr;
     wave_cavity_phi_pi.dt := wave_cavity_phi_pi.dt pr;
     wave_cavity_phi_pi.steps := wave_cavity_phi_pi.steps pr;
     wave_cavity_phi_pi.gamma_interior := wave_cavity_phi_pi.gamma_interior pr;
     wave_cavity_phi_pi.pml_len := len;
     wave_cavity_phi_pi.pml_max := mx;
     wave_cavity_phi_pi.i_src := wave_cavity_phi_pi.i_src pr;
     wave_cavity_phi_pi.A := wave_cavity_phi_pi.A pr;
     wave_cavity_phi_pi.f_cycles := wave_cavity_phi_pi.f_cycles pr;
     wave_cavity_phi_pi.sigma_amp := wave_cavity_phi_pi.sigma_amp pr;
     wave_cavity_phi_pi.phase_jitter := wave_cavity_phi_pi.phase_jitter pr;
     wave_cavity_phi_pi.seed := wave_cavity_phi_pi.seed pr |}.

(** The same field state under the record with the layer replaced. *)
Definition relayer (len : Z) (mx : float) (cav : wave_cavity_phi_pi.WaveCavity)
  : wave_cavity_phi_pi.WaveCavity :=
  {| wave_cavity_phi_pi.p := with_layer (wave_cavity_phi_pi.p cav) len mx;
     wave_cavity_phi_pi.mode := wave_cavity_phi_pi.mode cav;
     wave_cavity_phi_pi.r := wave_cavity_phi_pi.r cav;
     wave_cavity_phi_pi.u_prev := wave_cavity_phi_pi.u_prev cav;
     wave_cavity_phi_pi.u := wave_cavity_phi_pi.u cav;
     wave_cavity_phi_pi.u_next := wave_cavity_phi_pi.u_next cav;
     wave_cavity_phi_pi.gamma := wave_cavity_phi_pi.gamma cav;
     wave_cavity_phi_pi.omega := wave_cavity_phi_pi.omega cav;
     wave_cavity_phi_pi.phase := wave_cavity_phi_pi.phase cav |}.

(** The result of a computation with its value mapped. *)
Definition map_result {A B : Type} (f : A -> B) (r : result A) : result B :=
  match r with Ok a => Ok (f a) | Raise e => Raise e end.

(** ** Well-formed 3-D fields *)

(** The nodes of the faces [k = 0] and [k = N-1] that lie on no other
    face, and the nodes of any face. *)
Definition inner_k_face (n i j k : Z) : Prop :=
  (1 <= i <= n - 2)%Z /\ (1 <= j <= n - 2)%Z /\ (k = 0 \/ k = n - 1)%Z.

Definition on_boundary (n i j k : Z) : Prop :=
  (i = 0 \/ i = n - 1 \/ j = 0 \/ j = n - 1 \/ k = 0 \/ k = n - 1)%Z.

(** The buffer [l] holds [0.0] at every node of the grid in the region. *)
Definition zero_on (region : Z -> Z -> Z -> Prop) (n : Z) (l : list float) : Prop :=
  forall i j k : Z,
    (0 <= i < n)%Z -> (0 <= j < n)%Z -> (0 <= k < n)%Z -> region i j k ->
    getitem l (wave3d_phi_pi.idx n i j k) = Ok 0.0%float.

(** A buffer of [n^3] entries that holds zeros in the region. *)
Definition kept_zero (region : Z -> Z -> Z -> Prop) (n : Z) (l : list float) : Prop :=
  Z.of_nat (length l) = (n * n * n)%Z /\ zero_on region n l.

(** A 3-D field on at least two nodes per axis whose buffers and damping
    profile have one entry per node, with the source at the centre and
    zeros in the three buffers throughout a region. *)
Definition well_formed_on (region : Z -> Z -> Z -> Prop) (w : wave3d_phi_pi.Wave3D)
  : Prop :=
  let n := wave3d_phi_pi.N_ w in
  (2 <= n)%Z
  /\ wave3d_phi_pi.src w = (n / 2, n / 2, n / 2)%Z
  /\ Z.of_nat (length (wave3d_phi_pi.u_prev w)) = (n * n * n)%Z
  /\ Z.of_nat (length (wave3d_phi_pi.u w)) = (n * n * n)%Z
  /\ Z.of_nat (length (wave3d_phi_pi.u_next w)) = (n * n * n)%Z
  /\ Z.of_nat (length (wave3d_phi_pi.gamma w)) = (n * n * n)%Z
  /\ zero_on region n (wave3d_phi_pi.u_prev w)
  /\ zero_on region n (wave3d_phi_pi.u w)
  /\ zero_on region n (wave3d_phi_pi.u_next w).

(** A 3-D run on a grid of [n] nodes per axis with the default steps. *)
Definition small_p3d (n n_steps : Z) : wave3d_phi_pi.P3D :=
  {| wave3d_phi_pi.N := n; wave3d_phi_pi.c := 1.0; wave3d_phi_pi.dx := 1.0;
     wave3d_phi_pi.dt := 0.35; wave3d_phi_pi.steps := n_steps;
     wave3d_phi_pi.gamma_interior := 2e-3; wave3d_phi_pi.pml_len := 1;
     wave3d_phi_pi.pml_max := 0.06; wave3d_phi_pi.A := 0.7;
     wave3d_phi_pi.f_cycles := 0.02; wave3d_phi_pi.sigma_amp := 0.10;
     wave3d_phi_pi.phase_jitter := 0.02; wave3d_phi_pi.seed := 5 |}.

(** ** Well-formed 2-D fields *)

(** A grid of [h] rows of [w] cells. *)
Definition grid_shape (h w : Z) (g : list (list float)) : Prop :=
  Z.of_nat (length g) = h
  /\ forall row, In row g -> Z.of_nat (length row) = w.

(** Every cell of the four edges of the grid holds [0.0]. *)
Definition border_zero (h w : Z) (g : list (list float)) : Prop :=
  forall y x : Z,
    (0 <= y < h)%Z -> (0 <= x < w)%Z ->
    (y = 0 \/ y = h - 1 \/ x = 0 \/ x = w - 1)%Z ->
    ascii_phi_pi.cell g y x = Ok 0.0%float.

(** A 2-D field of at least one row and one column whose three buffers
    have the shape of the grid, with the source at the centre. *)
Definition well_formed_2d (s : ascii_phi_pi.Sim2D) : Prop :=
  let h := ascii_phi_pi.H s in
  let w := ascii_phi_pi.W s in
  (1 <= h)%Z /\ (1 <= w)%Z
  /\ ascii_phi_pi.sy s = (h / 2)%Z /\ ascii_phi_pi.sx s = (w / 2)%Z
  /\ grid_shape h w (ascii_phi_pi.u_prev s)
  /\ grid_shape h w (ascii_phi_pi.u s)
  /\ grid_shape h w (ascii_phi_pi.u_next s).

(** ** A library instance with a constant deviate

    The generator has a single state and [random.gauss] obtains 0.5 from
    it every time; the other functions are those of [counting_library]. *)
Definition still_library : Library := {|
  rng := unit;
  rng_seed := fun _ => tt;
  rng_gauss := fun _ => (0.5%float, tt);
  rng_random := fun _ => (0.5%float, tt);
  math_sin := fun x => x;
  math_cos := fun _ => 1.0%float;
  float_pow := fun x y =>
    if (y =? 2)%float then (x * x)%float
    else if (y =? 3)%float then (x * x * x)%float
    else if (y =? 4)%float then (x * x * x * x)%float
    else PrimFloat.sqrt x;
  stat_fmean := fun l =>
    (fold_left PrimFloat.add l 0.0 / float_of_Z (Z.of_nat (length l)))%float
|}.

(** The parametric defaults with no phase noise and a horizon of 50
    steps. *)
Definition quiet_params : phi_pi_parametric_sim.ParamParams :=
  {| phi_pi_parametric_sim.f0 := 60.0; phi_pi_parametric_sim.Q0 := 100.0;
     phi_pi_parametric_sim.beta := 3.0e4;
     phi_pi_parametric_sim.omega_drive_ratio := 1.0;
     phi_pi_parametric_sim.m_param := 0.012; phi_pi_parametric_sim.F0 := 0.0;
     phi_pi_parametric_sim.sigma_gamma := 0.0;
     phi_pi_parametric_sim.sigma_add := 1e-4;
     phi_pi_parametric_sim.chaos_phase_sigma := 0.0;
     phi_pi_parametric_sim.K_lock := 1500.0; phi_pi_parametric_sim.C_field := 0.7;
     phi_pi_parametric_sim.C_affect_gamma := 0.6;
     phi_pi_parametric_sim.C_affect_lock := 1.0;
     phi_pi_parametric_sim.phi_align := (math_pi - PHI_PI)%float;
     phi_pi_parametric_sim.G_gain := 0.0; phi_pi_parametric_sim.dt := 2e-5;
     phi_pi_parametric_sim.T := 1e-3; phi_pi_parametric_sim.seed := 2;
     phi_pi_parametric_sim.x0_seed := 1e-6; phi_pi_parametric_sim.v0_seed := 0.0 |}.

(** * Properties *)

(** ** Stability precondition *)

Lemma bind_raise {lib : Library} {A B : Type} (m : M A) (k : A -> M B) g e :
  fst (m g) = Raise e -> fst (bind m k g) = Raise e.
Proof.
  unfold bind. destruct (m g) as [[a|e'] g']; simpl; intros E.
  - discriminate.
  - congruence.
Qed.

Lemma bind_error {lib : Library} {A B : Type} (m : M A) (k : A -> M B) g :
  is_error (fst (m g)) = true -> is_error (fst (bind m k g)) = true.
Proof.
  unfold bind. destruct (m g) as [[a|e'] g']; simpl; intros E.
  - discriminate.
  - reflexivity.
Qed.

(** The 1-D constructor raises as soon as [c * dt / dx] exceeds [1.0]. *)
Lemma WaveCavity_init_courant {lib : Library} pr m g :
  (1.0 <? wave_cavity_phi_pi.c pr * wave_cavity_phi_pi.dt pr
          / wave_cavity_phi_pi.dx pr)%float = true ->
  is_error (fst (wave_cavity_phi_pi.WaveCavity_init pr m g)) = true.
Proof.
  intros Hr. unfold wave_cavity_phi_pi.WaveCavity_init, bind, random_seed, lift, truediv.
  destruct (wave_cavity_phi_pi.dx pr =? 0)%float; simpl; [reflexivity|].
  rewrite Hr. reflexivity.
Qed.

(** The 3-D constructor raises as soon as [c * dt / dx] exceeds
    [1.0 / (3 ** 0.5)]. *)
Lemma Wave3D_init_courant {lib : Library} pr m g :
  (wave3d_phi_pi.courant_max <? wave3d_phi_pi.c pr * wave3d_phi_pi.dt pr
          / wave3d_phi_pi.dx pr)%float = true ->
  is_error (fst (wave3d_phi_pi.Wave3D_init pr m g)) = true.
Proof.
  intros Hr. unfold wave3d_phi_pi.Wave3D_init, bind, random_seed, lift, truediv.
  destruct (wave3d_phi_pi.dx pr =? 0)%float; simpl; [reflexivity|].
  rewrite Hr. reflexivity.
Qed.

(** The 2-D constructor checks nothing and never raises; its Courant
    number is the constant 0.45, below the 2-D limit. *)
Lemma Sim2D_init_total {lib : Library} w h g :
  exists s, fst (ascii_phi_pi.Sim2D_init w h g) = Ok s
            /\ ascii_phi_pi.r s = 0.45%float
            /\ (courant_limit 2 <? ascii_phi_pi.r s)%float = false.
Proof.
  eexists. split; [reflexivity|]. split; reflexivity.
Qed.

(** C1. A field simulation whose Courant number [c * dt / dx] exceeds
    [1 / sqrt(d)], [d] the grid dimensionality, is refused by its
    constructor: the constructor raises, so no object exists on which a step
    could run, and in 1-D [run_once] ends with that exception without any
    iteration of its loop.  In 1-D and 3-D the constructor makes the
    comparison; the 2-D constructor has fixed steps whose Courant number
    0.45 never exceeds the limit. *)
Theorem courant_violation_fails_in_constructor {lib : Library}
  (cfg : FieldConfig) (g : rng) :
  (courant_limit (dimension cfg) <? courant_number cfg)%float = true ->
  is_error (fst (construct cfg g)) = true
  /\ match cfg with
     | Field1D pr m =>
         is_error (fst (wave_cavity_phi_pi.run_once m pr g)) = true
         /\ forall k, is_error (fst (wave_cavity_phi_pi.run_prefix k m pr g)) = true
     | _ => True
     end.
Proof.
  destruct cfg as [pr m | w h | pr m]; simpl; intros Hr.
  - pose proof (WaveCavity_init_courant pr m g Hr) as He.
    split; [apply bind_error; exact He|].
    split; [|intros k]; apply bind_error; exact He.
  - discriminate Hr.
  - split; [|exact I]. apply bind_error. apply Wave3D_init_courant. exact Hr.
Qed.

Lemma courant_violation_fails_in_constructor_witness :
  (courant_limit (dimension (Field1D unstable_params open))
     <? courant_number (Field1D unstable_params open))%float = true
  /\ is_error (fst (@construct counting_library (Field1D unstable_params open) 0%Z)) = true.
Proof.
  split.
  - reflexivity.
  - apply (@courant_violation_fails_in_constructor counting_library
             (Field1D unstable_params open) 0%Z).
    reflexivity.
Defined.

(** ** Damping profiles *)

(** The reflective profile is uniform at the interior baseline, in 1-D and
    in 3-D. *)
Lemma confined_profile_uniform pr1 pr3 :
  wave_cavity_phi_pi.damping_profile pr1 confined
  = Ok (replicate (wave_cavity_phi_pi.gamma_interior pr1) (wave_cavity_phi_pi.N pr1))
  /\ wave3d_phi_pi.damping_profile pr3 confined
     = Ok (replicate (wave3d_phi_pi.gamma_interior pr3)
             (wave3d_phi_pi.N pr3 * wave3d_phi_pi.N pr3 * wave3d_phi_pi.N pr3)).
Proof. split; reflexivity. Qed.

(** C3. At the default 1-D parameters (600 nodes, layer length 80,
    maximum 0.02, baseline 0.001) the absorbing profile is ramped the wrong
    way round: the outermost nodes 0 and 599 (depth 0) carry the smallest
    extra damping, [0.02 * 1 / 80], and the innermost layer nodes 79 and 520
    carry the full maximum; just inside the layer the profile drops back to
    the baseline. *)
Theorem pml_ramp_1d_is_inverted :
  let gam := wave_cavity_phi_pi.damping_profile wave_cavity_phi_pi.default_params open in
  rbind gam (fun l => getitem l 0) = Ok (0.001 + 0.02 * 1 / 80)%float
  /\ rbind gam (fun l => getitem l 0) = Ok 0.00125%float
  /\ rbind gam (fun l => getitem l 599) = Ok 0.00125%float
  /\ rbind gam (fun l => getitem l 79) = Ok (0.001 + 0.02)%float
  /\ rbind gam (fun l => getitem l 520) = Ok (0.001 + 0.02)%float
  /\ rbind gam (fun l => getitem l 80) = Ok 0.001%float
  /\ rbind gam (fun l => getitem l 519) = Ok 0.001%float.
Proof. vm_compute. repeat split. Qed.

(** ** The drive node of the 1-D field *)

Lemma norm_index_in_range len i :
  (0 <= i < len)%Z -> norm_index len i = Some (Z.to_nat i).
Proof.
  intros [H0 H1]. unfold norm_index.
  destruct (Z.ltb_spec i 0); [lia|].
  destruct (Z.ltb_spec i len); [reflexivity|lia].
Qed.

Lemma nth_error_list_set_same {A : Type} (l : list A) k v :
  (k < length l)%nat -> nth_error (list_set l k v) k = Some v.
Proof.
  revert k. induction l as [|a l IH]; intros [|k] Hk; simpl in *; try lia.
  - reflexivity.
  - apply IH. lia.
Qed.

Lemma nth_error_list_set_other {A : Type} (l : list A) k j v :
  j <> k -> nth_error (list_set l k v) j = nth_error l j.
Proof.
  revert k j. induction l as [|a l IH]; intros [|k] [|j] Hjk; simpl; try reflexivity.
  - congruence.
  - apply IH. congruence.
Qed.

Lemma length_list_set {A : Type} (l : list A) k v :
  length (list_set l k v) = length l.
Proof.
  revert k. induction l as [|a l IH]; intros [|k]; simpl; try reflexivity.
  now rewrite IH.
Qed.

(** On a grid of at least three nodes the clamp yields an interior node. *)
Lemma source_index_interior pr :
  (3 <= wave_cavity_phi_pi.N pr)%Z ->
  (1 <= wave_cavity_phi_pi.source_index pr <= wave_cavity_phi_pi.N pr - 2)%Z.
Proof. unfold wave_cavity_phi_pi.source_index. lia. Qed.

(** On a buffer of [N >= 3] nodes the forcing [u_next[i0] += d] does not
    raise, adds [d] to node [i0] and leaves the two boundary nodes as they
    were. *)
Lemma forcing_touches_only_source pr (l : list float) (d : float) :
  (3 <= wave_cavity_phi_pi.N pr)%Z ->
  Z.of_nat (length l) = wave_cavity_phi_pi.N pr ->
  let i0 := wave_cavity_phi_pi.source_index pr in
  exists x l',
       getitem l i0 = Ok x
       /\ additem l i0 d = Ok l'
       /\ length l' = length l
       /\ getitem l' i0 = Ok (x + d)%float
       /\ getitem l' 0 = getitem l 0
       /\ getitem l' (wave_cavity_phi_pi.N pr - 1) = getitem l (wave_cavity_phi_pi.N pr - 1).
Proof.
  intros HN Hlen i0.
  pose proof (source_index_interior pr HN) as Hi. fold i0 in Hi.
  assert (Hk : (Z.to_nat i0 < length l)%nat) by lia.
  destruct (nth_error l (Z.to_nat i0)) as [x|] eqn:Ex.
  2:{ apply nth_error_None in Ex. lia. }
  exists x, (list_set l (Z.to_nat i0) (x + d)%float).
  assert (Hget : getitem l i0 = Ok x).
  { unfold getitem. rewrite norm_index_in_range by lia. now rewrite Ex. }
  assert (Hadd : additem l i0 d = Ok (list_set l (Z.to_nat i0) (x + d)%float)).
  { unfold additem. rewrite Hget. simpl. unfold setitem.
    now rewrite norm_index_in_range by lia. }
  repeat split; try assumption.
  - apply length_list_set.
  - unfold getitem. rewrite length_list_set, norm_index_in_range by lia.
    now rewrite nth_error_list_set_same.
  - unfold getitem. rewrite length_list_set, !norm_index_in_range by lia.
    rewrite nth_error_list_set_other by lia. reflexivity.
  - unfold getitem. rewrite length_list_set, !norm_index_in_range by lia.
    rewrite nth_error_list_set_other by lia. reflexivity.
Qed.


(** ** Reproducibility *)

(** Whatever the state of the generator before, code that starts by
    seeding it behaves the same. *)
Lemma seeded_independent {lib : Library} {B : Type} (n : Z) (k : unit -> M B) g1 g2 :
  bind (random_seed n) k g1 = bind (random_seed n) k g2.
Proof. reflexivity. Qed.

(** C5. Two executions of the same run, for the same parameter record and
    seed, started in arbitrary generator states [g1] and [g2] (whatever ran
    before them), agree on everything: the state after each number [k] of
    loop iterations (position, velocity, phase error, the three field
    buffers, the samples collected so far), the returned metrics or the
    exception raised, and the generator left behind.  Each run re-seeds the
    generator before its first draw. *)
Theorem runs_are_reproducible {lib : Library} (g1 g2 : rng) :
  (forall locked pr sd (k : nat),
      phi_pi_parametric_sim.run_prefix k locked pr sd g1
      = phi_pi_parametric_sim.run_prefix k locked pr sd g2
      /\ phi_pi_parametric_sim.simulate_parametric locked pr sd g1
         = phi_pi_parametric_sim.simulate_parametric locked pr sd g2)
  /\ (forall lock pr sd (k : nat),
      phi_pi_wireless_sim.run_prefix k lock pr sd g1
      = phi_pi_wireless_sim.run_prefix k lock pr sd g2
      /\ phi_pi_wireless_sim.simulate lock pr sd g1
         = phi_pi_wireless_sim.simulate lock pr sd g2)
  /\ (forall m pr (k : nat),
      wave_cavity_phi_pi.run_prefix k m pr g1 = wave_cavity_phi_pi.run_prefix k m pr g2
      /\ wave_cavity_phi_pi.run_once m pr g1 = wave_cavity_phi_pi.run_once m pr g2).
Proof.
  split; [|split]; intros; split; reflexivity.
Qed.

(** ** The growth ratio *)

(** A float that compares above zero is not a zero divisor. *)
Lemma positive_not_zero (x : float) :
  (0 <? x)%float = true -> (x =? 0)%float = false.
Proof.
  rewrite ltb_spec, FloatAxioms.eqb_spec.
  change (Prim2SF 0) with (S754_zero false).
  destruct (Prim2SF x) as [s|s| |s m e]; simpl; try discriminate;
    destruct s; simpl; try discriminate; reflexivity.
Qed.

Lemma fmean_nonempty {lib : Library} (l : list float) :
  (0 < length l)%nat -> fmean l = Ok (stat_fmean l).
Proof. destruct l; simpl; [lia|reflexivity]. Qed.

(** [E[: m // 10]] is the first [m / 10] samples. *)
Lemma head_window {A : Type} (E : list A) :
  slice_to E (Z.of_nat (length E) / 10) = firstn (length E / 10) E.
Proof.
  unfold slice_to, slice_bound. f_equal.
  set (n := length E).
  assert (H : (Z.of_nat n / 10 = Z.of_nat (n / 10))%Z)
    by (rewrite Nat2Z.inj_div; reflexivity).
  rewrite H.
  destruct (Z.ltb_spec (Z.of_nat (n / 10)) 0); [lia|].
  assert (n / 10 <= n)%nat by (apply Nat.Div0.div_le_upper_bound; lia).
  lia.
Qed.

(** [E[- m // 10 :]] is the last [ceil(m / 10)] samples: the unary minus
    binds before the floor division. *)
Lemma tail_window {A : Type} (E : list A) :
  (0 < length E)%nat ->
  slice_from E (- Z.of_nat (length E) / 10)
  = skipn (length E - (length E + 9) / 10) E.
Proof.
  intros Hpos. unfold slice_from, slice_bound. f_equal.
  set (n := length E) in *.
  assert (H : ((Z.of_nat n + 9) / 10 = Z.of_nat ((n + 9) / 10))%Z).
  { rewrite Nat2Z.inj_div, Nat2Z.inj_add. reflexivity. }
  assert (Hneg : (- Z.of_nat n / 10 = - ((Z.of_nat n + 9) / 10))%Z).
  { Z.to_euclidean_division_equations. lia. }
  rewrite Hneg, H.
  assert ((n + 9) / 10 <= n)%nat.
  { apply Nat.Div0.div_le_upper_bound. lia. }
  assert (0 < (n + 9) / 10)%nat.
  { apply Nat.div_str_pos. lia. }
  destruct (Z.ltb_spec (- Z.of_nat ((n + 9) / 10)) 0); lia.
Qed.

(** The growth indicator never raises and is the specified ratio. *)
Lemma growth_indicator_spec {lib : Library} (E : list float) :
  phi_pi_parametric_sim.growth_indicator E = Ok (spec_growth_ratio E).
Proof.
  unfold phi_pi_parametric_sim.growth_indicator, spec_growth_ratio.
  destruct (Nat.ltb_spec (length E) 20) as [Hlt|Hge].
  - destruct (Z.leb_spec 20 (Z.of_nat (length E))); [lia|reflexivity].
  - destruct (Z.leb_spec 20 (Z.of_nat (length E))); [|lia].
    rewrite head_window, tail_window by lia.
    assert (Hdiv : (2 <= length E / 10)%nat).
    { apply Nat.div_le_lower_bound; lia. }
    assert (Hup : ((length E + 9) / 10 <= length E)%nat).
    { apply Nat.Div0.div_le_upper_bound. lia. }
    assert (Hup0 : (0 < (length E + 9) / 10)%nat).
    { apply Nat.div_str_pos. lia. }
    rewrite fmean_nonempty by (rewrite length_firstn; lia). cbn [rbind].
    rewrite fmean_nonempty by (rewrite length_skipn; lia). cbn [rbind].
    destruct (0 <? stat_fmean (firstn (length E / 10) E))%float eqn:Hh.
    + unfold truediv. rewrite (positive_not_zero Hh). reflexivity.
    + reflexivity.
Qed.

(** C4. Whenever [simulate_parametric] returns its metrics, the growth
    ratio among them is the specified one for the energies [E] collected
    after burn-in: exactly 1.0 when fewer than 20 were collected; otherwise
    the mean of the last tenth of [E] (the last [ceil(m / 10)] samples)
    divided by the mean of the first tenth (the first [floor(m / 10)]
    samples), and positive infinity when that head mean is not greater
    than 0. *)
Theorem growth_ratio_of_run {lib : Library}
  (locked : bool) (pr : phi_pi_parametric_sim.ParamParams) (sd : Z) (g : rng)
  (mt : phi_pi_parametric_sim.Metrics) :
  fst (phi_pi_parametric_sim.simulate_parametric locked pr sd g) = Ok mt ->
  exists su st,
    phi_pi_parametric_sim.setup locked pr = Ok su
    /\ fst (for_eachM (range 0 (phi_pi_parametric_sim.steps su))
              (phi_pi_parametric_sim.loop_body pr su)
              (phi_pi_parametric_sim.initial_state pr) (rng_seed sd)) = Ok st
    /\ phi_pi_parametric_sim.growth_ratio mt
       = spec_growth_ratio (phi_pi_parametric_sim.E_vals st)
    /\ ((length (phi_pi_parametric_sim.E_vals st) < 20)%nat ->
        phi_pi_parametric_sim.growth_ratio mt = 1.0%float)
    /\ ((20 <= length (phi_pi_parametric_sim.E_vals st))%nat ->
        (0 <? stat_fmean (firstn (length (phi_pi_parametric_sim.E_vals st) / 10)
                            (phi_pi_parametric_sim.E_vals st)))%float = false ->
        phi_pi_parametric_sim.growth_ratio mt = infinity).
Proof.
  intros H.
  unfold phi_pi_parametric_sim.simulate_parametric, bind, random_seed, lift in H.
  destruct (phi_pi_parametric_sim.setup locked pr) as [su|e] eqn:Esu;
    [|discriminate H].
  destruct (for_eachM _ _ _ _) as [[st|e] g'] eqn:Eloop; [|discriminate H].
  cbn [fst] in H.
  unfold phi_pi_parametric_sim.metrics in H.
  rewrite growth_indicator_spec in H.
  destruct (match phi_pi_parametric_sim.E_vals st with
            | [] => Ok 0.0%float | _ => fmean _ end) as [avg|e];
    [|discriminate H].
  destruct (match phi_pi_parametric_sim.E_vals st with
            | [] => Ok 0.0%float | _ => max_list _ end) as [pk|e];
    [|discriminate H].
  destruct (match phi_pi_parametric_sim.x2_vals st with
            | [] => Ok 0.0%float | _ => _ end) as [rms|e];
    [|discriminate H].
  cbn [rbind] in H. injection H as <-.
  cbn [phi_pi_parametric_sim.growth_ratio].
  exists su, st. split; [reflexivity|]. split; [rewrite Eloop; reflexivity|].
  split; [reflexivity|]. split.
  - intros Hlt. unfold spec_growth_ratio.
    destruct (Nat.ltb_spec (length (phi_pi_parametric_sim.E_vals st)) 20);
      [reflexivity|lia].
  - intros Hge Hhead. unfold spec_growth_ratio.
    destruct (Nat.ltb_spec (length (phi_pi_parametric_sim.E_vals st)) 20); [lia|].
    rewrite Hhead. reflexivity.
Qed.

Lemma growth_ratio_of_run_witness :
  exists mt,
    fst (@phi_pi_parametric_sim.simulate_parametric counting_library
           true short_run_params 11 0%Z) = Ok mt
    /\ exists su st,
         phi_pi_parametric_sim.setup true short_run_params = Ok su
         /\ fst (@for_eachM counting_library _ _
                   (range 0 (phi_pi_parametric_sim.steps su))
                   (phi_pi_parametric_sim.loop_body short_run_params su)
                   (phi_pi_parametric_sim.initial_state short_run_params)
                   (@rng_seed counting_library 11)) = Ok st
         /\ phi_pi_parametric_sim.growth_ratio mt
            = @spec_growth_ratio counting_library (phi_pi_parametric_sim.E_vals st)
         /\ ((length (phi_pi_parametric_sim.E_vals st) < 20)%nat ->
             phi_pi_parametric_sim.growth_ratio mt = 1.0%float)
         /\ ((20 <= length (phi_pi_parametric_sim.E_vals st))%nat ->
             (0 <? @stat_fmean counting_library
                     (firstn (length (phi_pi_parametric_sim.E_vals st) / 10)
                        (phi_pi_parametric_sim.E_vals st)))%float = false ->
             phi_pi_parametric_sim.growth_ratio mt = infinity).
Proof.
  eexists. split.
  - vm_compute. reflexivity.
  - apply (@growth_ratio_of_run counting_library true short_run_params 11 0%Z).
    vm_compute. reflexivity.
Defined.

(** ** Noise draws per integration step *)

(** One call of [random.gauss] returns [mu + z * sigma] for the next
    deviate and advances the generator by one draw. *)
Lemma random_gauss_draw {lib : Library} mu sigma g :
  random_gauss mu sigma g = (Ok (mu + deviate 0 g * sigma)%float, draws 1 g).
Proof. reflexivity. Qed.

(** Every call of [acc] draws a fresh additive noise value: the result is
    the deterministic acceleration plus [sigma_add] times the next
    deviate, and the generator has advanced by one draw. *)
Lemma acc_draws_fresh_noise {lib : Library} pr su t0 x0 v0 k_mod gamma_eff dph g :
  phi_pi_parametric_sim.acc pr su t0 x0 v0 k_mod gamma_eff dph g
  = (Ok (-2.0 * gamma_eff * v0
         - (phi_pi_parametric_sim.omega0 su * phi_pi_parametric_sim.omega0 su + k_mod) * x0
         - phi_pi_parametric_sim.beta pr * float_pow x0 3
         + phi_pi_parametric_sim.F0 pr
           * math_cos (phi_pi_parametric_sim.omega_d su * t0 + (PHI_PI + dph))
         + phi_pi_parametric_sim.sigma_add pr * (0.0 + deviate 0 g * 1.0))%float,
     draws 1 g).
Proof. reflexivity. Qed.


(** With a generator whose deviates are 1, 2, ..., two calls of [acc] with
    identical arguments, as in two stages of one step, return different
    accelerations: the additive noise is not held fixed over the step. *)
Lemma acc_same_arguments_differ :
  rbind (phi_pi_parametric_sim.setup true short_run_params) (fun su =>
    fst (@bind counting_library _ _
           (phi_pi_parametric_sim.acc short_run_params su 0 0 0 0 0 0) (fun a1 =>
         bind (phi_pi_parametric_sim.acc short_run_params su 0 0 0 0 0 0) (fun a2 =>
         ret (a1, a2))) 1%Z))
  = Ok (1e-4, 2e-4)%float.
Proof. vm_compute. reflexivity. Qed.

(** ** The phase update of the 1-D field *)

(** C8, as amended.  The phase update of [WaveCavity.step] is a plain
    random walk: the new phase is the old one plus
    [random.gauss(0.0, phase_jitter)], one draw; there is no lock term (no
    gain, no sine of the phase) and the jitter is the configured amplitude
    itself, not scaled by the square root of the time step.  A completed
    step stores exactly that phase.  The unlocked rule of the oscillator has
    the same shape with its own scale, [phase + scale * xi]. *)
Theorem field_phase_is_plain_random_walk {lib : Library} :
  (forall pr ph g,
      wave_cavity_phi_pi.phase_update pr ph g
      = (Ok (ph + (0.0 + deviate 0 g * wave_cavity_phi_pi.phase_jitter pr))%float,
         draws 1 g))
  /\ (forall cav n g,
      match fst (wave_cavity_phi_pi.step cav n g) with
      | Ok cav' =>
          wave_cavity_phi_pi.phase cav'
          = (wave_cavity_phi_pi.phase cav
             + (0.0 + deviate 0 g
                      * wave_cavity_phi_pi.phase_jitter (wave_cavity_phi_pi.p cav)))%float
      | Raise _ => True
      end)
  /\ (forall h scale ph xi : float,
      phase_step 0.0%float h scale ph xi = (ph + scale * xi)%float).
Proof.
  split; [|split].
  - reflexivity.
  - intros cav n g.
    unfold wave_cavity_phi_pi.step, wave_cavity_phi_pi.phase_update,
      wave_cavity_phi_pi.drive_sample, bind, lift, ret, random_gauss.
    cbn [fst snd].
    destruct (for_each _ _ _) as [nxt1|e]; cbn [fst]; [|exact I].
    destruct (additem _ _ _) as [nxt2|e]; cbn [fst]; [|exact I].
    destruct (wave_cavity_phi_pi.boundary_update _ _) as [nxt3|e]; cbn [fst];
      [|exact I].
    reflexivity.
  - reflexivity.
Qed.

(** At the default 1-D parameters ([phase_jitter = 0.02], [dt = 0.5]) and a
    deviate of 1, the field adds 0.02 to a zero phase while the unlocked
    oscillator rule with the jitter scaled by [sqrt(dt)] adds about 0.01414:
    the two updates are not the same function. *)
Lemma field_phase_is_not_the_lock_rule :
  ~ (forall (lib : Library) (pr : wave_cavity_phi_pi.CavityParams)
            (K_eff ph : float) (g : rng),
       wave_cavity_phi_pi.phase_update pr ph g
       = (Ok (phase_step K_eff (wave_cavity_phi_pi.dt pr)
                (wave_cavity_phi_pi.phase_jitter pr
                 * PrimFloat.sqrt (wave_cavity_phi_pi.dt pr))%float
                ph (0.0 + deviate 0 g * 1.0)%float),
          draws 1 g)).
Proof.
  intros H.
  specialize (H counting_library wave_cavity_phi_pi.default_params
                0.0%float 0.0%float 1%Z).
  apply (f_equal (fun r => match fst r with
                           | Ok y => (y =? 0.02)%float
                           | Raise _ => false
                           end)) in H.
  vm_compute in H. discriminate H.
Qed.

(** ** Configuration checks of the oscillator runs *)

Lemma zero_doubled_is_zero (q : float) :
  (q =? 0)%float = true -> (2.0 * q =? 0)%float = true.
Proof.
  rewrite !FloatAxioms.eqb_spec, mul_spec.
  change (Prim2SF 0) with (S754_zero false).
  destruct (Prim2SF q) as [s|s| |s m e]; simpl; try discriminate.
  - intros _. destruct s; reflexivity.
  - destruct s; discriminate.
  - destruct s; discriminate.
Qed.

Lemma nonpositive_below_clamp (q : float) :
  (q <=? 0)%float = true -> (q <? 1e-6)%float = true.
Proof.
  rewrite leb_spec, ltb_spec.
  change (Prim2SF 0) with (S754_zero false).
  set (k := Prim2SF 1e-6). vm_compute in k. subst k.
  destruct (Prim2SF q) as [s|s| |s m e]; simpl; try discriminate;
    destruct s; simpl; try discriminate; reflexivity.
Qed.

(** C9, as amended.  In [simulate_parametric] a zero quality factor raises
    [ZeroDivisionError] and a negative time step raises too (at the latest
    in [math.sqrt(dt)]), both while the setup before the loop is computed:
    the run returns that exception and no prefix of the loop exists.  In
    [simulate] a non-positive quality factor is not rejected:
    [_gamma_from_Q] replaces it by [1e-6].  Nor does [simulate_parametric]
    reject a negative quality factor: with [Q0 = -100] and the default time
    step its setup succeeds. *)
Theorem oscillator_configuration_checks {lib : Library}
  (locked : bool) (pr : phi_pi_parametric_sim.ParamParams) (w0 q : float) :
  ((phi_pi_parametric_sim.Q0 pr =? 0)%float = true ->
     phi_pi_parametric_sim.setup locked pr = Raise ZeroDivisionError)
  /\ ((phi_pi_parametric_sim.dt pr <? 0)%float = true ->
     is_error (phi_pi_parametric_sim.setup locked pr) = true)
  /\ (is_error (phi_pi_parametric_sim.setup locked pr) = true ->
     forall sd g (k : nat),
       is_error (fst (phi_pi_parametric_sim.simulate_parametric locked pr sd g)) = true
       /\ is_error (fst (phi_pi_parametric_sim.run_prefix k locked pr sd g)) = true)
  /\ ((q <=? 0)%float = true ->
     phi_pi_wireless_sim._gamma_from_Q w0 q = Ok (w0 / (2.0 * 1e-6))%float)
  /\ is_error (phi_pi_parametric_sim.setup locked (with_Q0_dt (-100.0) 2e-5)) = false.
Proof.
  split; [|split; [|split; [|split]]].
  - intros HQ. unfold phi_pi_parametric_sim.setup, truediv.
    rewrite (zero_doubled_is_zero HQ). reflexivity.
  - intros Hdt. unfold phi_pi_parametric_sim.setup.
    destruct (truediv _ (2.0 * phi_pi_parametric_sim.Q0 pr)) as [g0|e];
      cbn [rbind]; [|reflexivity].
    destruct (truediv (phi_pi_parametric_sim.T pr) _) as [qq|e];
      cbn [rbind]; [|reflexivity].
    destruct (int_of_float qq) as [n|e]; cbn [rbind]; [|reflexivity].
    unfold math_sqrt. rewrite Hdt. reflexivity.
  - intros He sd g k.
    unfold phi_pi_parametric_sim.simulate_parametric,
      phi_pi_parametric_sim.run_prefix, bind, random_seed, lift.
    destruct (phi_pi_parametric_sim.setup locked pr) as [su|e];
      [discriminate He|].
    split; reflexivity.
  - intros Hq. unfold phi_pi_wireless_sim._gamma_from_Q, fmax.
    rewrite (nonpositive_below_clamp Hq). reflexivity.
  - destruct locked; vm_compute; reflexivity.
Qed.

Lemma oscillator_configuration_checks_witness :
  phi_pi_parametric_sim.setup true (with_Q0_dt 0.0 2e-5) = Raise ZeroDivisionError
  /\ is_error (phi_pi_parametric_sim.setup true (with_Q0_dt 100.0 (-2e-5))) = true
  /\ phi_pi_wireless_sim._gamma_from_Q 100.0 (-5.0) = Ok (100.0 / (2.0 * 1e-6))%float.
Proof.
  split; [|split].
  - apply (@oscillator_configuration_checks counting_library true
             (with_Q0_dt 0.0 2e-5) 0.0 0.0). reflexivity.
  - apply (@oscillator_configuration_checks counting_library true
             (with_Q0_dt 100.0 (-2e-5)) 0.0 0.0). reflexivity.
  - apply (@oscillator_configuration_checks counting_library true
             (with_Q0_dt 100.0 2e-5) 100.0 (-5.0)). reflexivity.
Defined.

(** With [Q0 = -100] and the default time step the setup succeeds: the
    damping is clamped to zero, 150000 steps are scheduled, and the first
    iteration of the loop runs.  A non-positive quality factor is not
    rejected before the loop. *)
Lemma negative_Q_is_accepted :
  ~ (forall (locked : bool) (pr : phi_pi_parametric_sim.ParamParams),
       ((phi_pi_parametric_sim.Q0 pr <=? 0) || (phi_pi_parametric_sim.dt pr <? 0))%float
       = true ->
       is_error (phi_pi_parametric_sim.setup locked pr) = true).
Proof.
  intros H. specialize (H true (with_Q0_dt (-100.0) 2e-5)).
  vm_compute in H. specialize (H eq_refl). discriminate H.
Qed.

Lemma negative_Q_run_steps :
  rbind (phi_pi_parametric_sim.setup true (with_Q0_dt (-100.0) 2e-5))
    (fun su => Ok (phi_pi_parametric_sim.gamma0 su, phi_pi_parametric_sim.steps su))
  = Ok (0.0%float, 150000%Z)
  /\ is_error (fst (@phi_pi_parametric_sim.run_prefix counting_library 1 true
                      (with_Q0_dt (-100.0) 2e-5) 11 0%Z)) = false.
Proof. split; vm_compute; reflexivity. Qed.

(** ** Phase-lock convergence, in exact arithmetic *)

Section PhaseLockReal.
Local Open Scope R_scope.

Lemma sin_linear_lower x : 0 <= x <= 1 -> 5 / 6 * x <= sin x.
Proof.
  intros [H0 H1].
  assert (H4 : x <= 4) by lra.
  pose proof (pre_sin_bound x 0 H0 H4) as [Hlb _].
  replace (2 * 0 + 1)%nat with 1%nat in Hlb by reflexivity.
  unfold sin_approx, sin_term in Hlb. simpl in Hlb.
  assert (x * (x * x) <= x) by nra.
  lra.
Qed.

Lemma locked_step_bounds a x :
  0 < a <= 1 -> 0 < x < PI -> 0 < x - a * sin x < x.
Proof.
  intros [Ha0 Ha1] [Hx0 Hx1].
  pose proof (sin_gt_0 x Hx0 Hx1) as Hs0.
  pose proof (sin_lt_x x Hx0) as Hs1.
  split; nra.
Qed.

Lemma locked_step_contracts a x :
  0 < a <= 1 -> 0 <= x <= 1 -> 0 <= x - a * sin x <= (1 - 5 / 6 * a) * x.
Proof.
  intros [Ha0 Ha1] [Hx0 Hx1].
  pose proof (sin_linear_lower (conj Hx0 Hx1)) as Hl.
  assert (Hu : sin x <= x).
  { destruct (Req_dec x 0) as [->|Hn]; [rewrite sin_0; lra|].
    left. apply sin_lt_x. lra. }
  split; nra.
Qed.

(** The rules over the reals with zero jitter amplitude. *)
Lemma locked_step_real K dt delta xi :
  0 < K -> phase_step K dt (0 * sqrt dt) delta xi = delta - K * dt * sin delta.
Proof.
  intros HK. unfold phase_step. cbn [spos sadd smul sopp ssin real_scalar].
  unfold Rpos. destruct (Rlt_dec 0 K); [ring|contradiction].
Qed.

Lemma unlocked_step_real dt delta xi :
  phase_step 0 dt (0 * sqrt dt) delta xi = delta.
Proof.
  unfold phase_step. cbn [spos sadd smul sopp ssin real_scalar].
  unfold Rpos. destruct (Rlt_dec 0 0); [lra|ring].
Qed.

Lemma unlocked_iter_real dt xi n delta0 :
  phase_iter 0 dt (0 * sqrt dt) xi n delta0 = delta0.
Proof.
  induction n as [|n IH]; [reflexivity|].
  cbn [phase_iter]. rewrite IH. apply unlocked_step_real.
Qed.

Lemma locked_iter_succ K dt xi n delta0 :
  0 < K ->
  phase_iter K dt (0 * sqrt dt) xi (S n) delta0
  = phase_iter K dt (0 * sqrt dt) xi n delta0
    - K * dt * sin (phase_iter K dt (0 * sqrt dt) xi n delta0).
Proof. intros HK. cbn [phase_iter]. now apply locked_step_real. Qed.

(** The locked rule is odd in the phase error. *)
Lemma locked_iter_odd K dt xi n delta0 :
  0 < K ->
  phase_iter K dt (0 * sqrt dt) xi n (- delta0)
  = - phase_iter K dt (0 * sqrt dt) xi n delta0.
Proof.
  intros HK. induction n as [|n IH]; [reflexivity|].
  rewrite !locked_iter_succ by assumption. rewrite IH, sin_neg. ring.
Qed.

Lemma locked_iter_pi K dt xi n :
  0 < K -> phase_iter K dt (0 * sqrt dt) xi n PI = PI.
Proof.
  intros HK. induction n as [|n IH]; [reflexivity|].
  rewrite locked_iter_succ by assumption. rewrite IH, sin_PI. ring.
Qed.

(** Positive start inside the capture range. *)
Lemma locked_iter_pos K dt xi delta0 :
  0 < K -> 0 < K * dt <= 1 -> 0 < delta0 < PI ->
  forall n,
    0 < phase_iter K dt (0 * sqrt dt) xi (S n) delta0
      < phase_iter K dt (0 * sqrt dt) xi n delta0
    /\ phase_iter K dt (0 * sqrt dt) xi n delta0 <= delta0.
Proof.
  intros HK Ha Hd n. induction n as [|n [IH1 IH2]].
  - rewrite locked_iter_succ by assumption. cbn [phase_iter].
    split; [apply locked_step_bounds; assumption|lra].
  - rewrite (@locked_iter_succ K dt xi (S n)) by assumption.
    split; [apply locked_step_bounds; [assumption|lra]|lra].
Qed.

Lemma locked_iter_geometric_pos K dt xi delta0 :
  0 < K -> 0 < K * dt <= 1 -> 0 <= delta0 <= 1 ->
  forall n,
    0 <= phase_iter K dt (0 * sqrt dt) xi n delta0
      <= (1 - 5 / 6 * (K * dt)) ^ n * delta0.
Proof.
  intros HK Ha Hd n. induction n as [|n IH].
  - cbn [phase_iter pow]. lra.
  - rewrite locked_iter_succ by assumption.
    set (u := phase_iter K dt (0 * sqrt dt) xi n delta0) in *.
    assert (Hq : 0 <= 1 - 5 / 6 * (K * dt) <= 1) by lra.
    assert (Hp : 0 <= (1 - 5 / 6 * (K * dt)) ^ n <= 1).
    { split; [apply pow_le; lra|].
      apply Rle_trans with (1 ^ n); [apply pow_incr; lra|].
      rewrite pow1. lra. }
    assert (Hpd : (1 - 5 / 6 * (K * dt)) ^ n * delta0 <= 1 * 1)
      by (apply Rmult_le_compat; lra).
    assert (Hu : 0 <= u <= 1) by lra.
    pose proof (@locked_step_contracts (K * dt) u Ha Hu) as Hc.
    cbn [pow]. split; [lra|].
    apply Rle_trans with ((1 - 5 / 6 * (K * dt)) * u); [lra|].
    rewrite Rmult_assoc. apply Rmult_le_compat_l; lra.
Qed.

Lemma locked_iter_positive K dt xi delta0 :
  0 < K -> 0 < K * dt <= 1 -> 0 < delta0 < PI ->
  forall n, 0 < phase_iter K dt (0 * sqrt dt) xi n delta0.
Proof.
  intros HK Ha Hd [|n].
  - cbn [phase_iter]. lra.
  - apply (@locked_iter_pos K dt xi delta0 HK Ha Hd n).
Qed.

Lemma CV_constant (c : R) : Un_cv (fun _ : nat => c) c.
Proof.
  intros eps He. exists 0%nat. intros n _.
  unfold Rdist. rewrite Rminus_diag, Rabs_R0. exact He.
Qed.

(** From a positive start inside the capture range the phase error
    decreases to zero. *)
Lemma locked_iter_converges_pos K dt xi delta0 :
  0 < K -> 0 < K * dt <= 1 -> 0 < delta0 < PI ->
  Un_cv (fun n => phase_iter K dt (0 * sqrt dt) xi n delta0) 0.
Proof.
  intros HK Ha Hd.
  set (u := fun n => phase_iter K dt (0 * sqrt dt) xi n delta0).
  assert (Hpos : forall n, 0 < u n) by (apply locked_iter_positive; assumption).
  assert (Hdec : Un_decreasing u).
  { intros n. left. apply (@locked_iter_pos K dt xi delta0 HK Ha Hd n). }
  assert (Hlb : has_lb u).
  { exists 0. intros x [i ->]. unfold opp_seq. specialize (Hpos i). lra. }
  destruct (decreasing_cv u Hdec Hlb) as [l Hl].
  assert (Hl0 : 0 <= l).
  { apply Rle_cv_lim with (Un := fun _ : nat => 0) (Vn := u);
      [|apply CV_constant|exact Hl].
    intros n. left. apply Hpos. }
  assert (Hl1 : l <= delta0).
  { change delta0 with (u 0%nat). apply decreasing_ineq; assumption. }
  assert (Hnext : Un_cv (fun n => u (S n)) l).
  { intros eps He. destruct (Hl eps He) as [N HN]. exists N.
    intros n Hn. apply HN. lia. }
  assert (Hstep : Un_cv (fun n => u n - K * dt * sin (u n)) (l - K * dt * sin l)).
  { apply CV_minus; [exact Hl|].
    apply CV_mult with (An := fun _ : nat => K * dt) (Bn := fun n => sin (u n));
      [apply CV_constant|].
    apply continuity_seq with (f := sin) (Un := u); [apply continuity_sin|exact Hl]. }
  assert (Hnext' : Un_cv (fun n => u (S n)) (l - K * dt * sin l)).
  { intros eps He. destruct (Hstep eps He) as [N HN]. exists N.
    intros n Hn. unfold u at 1. rewrite locked_iter_succ by assumption.
    apply HN. exact Hn. }
  assert (Hfix : l = l - K * dt * sin l).
  { apply UL_sequence with (Un := fun n => u (S n)); assumption. }
  assert (Hsin : sin l = 0) by nra.
  destruct (Rle_lt_or_eq_dec 0 l Hl0) as [Hlt|Heq].
  - pose proof (sin_gt_0 l Hlt). lra.
  - rewrite Heq. exact Hl.
Qed.

Lemma exp_power (x : R) (n : nat) : exp x ^ n = exp (INR n * x).
Proof.
  induction n as [|n IH].
  - cbn [pow INR]. rewrite Rmult_0_l, exp_0. reflexivity.
  - rewrite S_INR. cbn [pow]. rewrite IH, <- exp_plus. f_equal. ring.
Qed.

Lemma exp_monotone (x y : R) : x <= y -> exp x <= exp y.
Proof.
  intros [H| ->]; [left; now apply exp_increasing|right; reflexivity].
Qed.

(** After a number of steps proportional to [1 / (K * dt)] the geometric
    bound is below any tolerance. *)
Lemma geometric_below_tolerance a d eps (n : nat) :
  0 < a <= 1 -> 0 < d -> 0 < eps ->
  6 / 5 * ln (d / eps) <= INR n * a ->
  (1 - 5 / 6 * a) ^ n * d <= eps.
Proof.
  intros Ha Hd He Hn.
  assert (Hq : 0 <= 1 - 5 / 6 * a <= exp (- (5 / 6 * a))).
  { split; [lra|]. pose proof (exp_ineq1_le (- (5 / 6 * a))). lra. }
  apply Rle_trans with (exp (- (5 / 6 * a)) ^ n * d).
  { apply Rmult_le_compat_r; [lra|]. apply pow_incr. exact Hq. }
  rewrite exp_power.
  assert (Hde : 0 < d / eps) by (apply Rdiv_lt_0_compat; assumption).
  apply Rle_trans with (exp (- ln (d / eps)) * d).
  { apply Rmult_le_compat_r; [lra|]. apply exp_monotone. nra. }
  rewrite exp_Ropp, exp_ln by assumption.
  right. field. split; lra.
Qed.

Lemma locked_iter_zero K dt xi n :
  0 < K -> phase_iter K dt (0 * sqrt dt) xi n 0 = 0.
Proof.
  intros HK. induction n as [|n IH]; [reflexivity|].
  rewrite locked_iter_succ by assumption. rewrite IH, sin_0. ring.
Qed.

(** Inside the capture range the size of the phase error evolves as the
    phase error started from [|delta0|]. *)
Lemma locked_iter_abs K dt xi delta0 n :
  0 < K -> 0 < K * dt <= 1 -> Rabs delta0 < PI ->
  Rabs (phase_iter K dt (0 * sqrt dt) xi n delta0)
  = phase_iter K dt (0 * sqrt dt) xi n (Rabs delta0).
Proof.
  intros HK Ha Hd.
  destruct (Rtotal_order delta0 0) as [Hneg|[->|Hpos]].
  - rewrite (Rabs_left _ Hneg) in *.
    rewrite <- (Ropp_involutive delta0) at 1.
    rewrite locked_iter_odd by assumption. rewrite Rabs_Ropp.
    apply Rabs_right. left. apply locked_iter_positive; try assumption. lra.
  - rewrite Rabs_R0, locked_iter_zero by assumption. apply Rabs_R0.
  - rewrite (Rabs_right delta0) in * by lra.
    apply Rabs_right. left. apply locked_iter_positive; try assumption. lra.
Qed.




End PhaseLockReal.

(** ** The phase error of the oscillator loop follows the rule *)

Lemma for_eachM_app {lib : Library} {I S : Type} (l1 l2 : list I)
  (body : I -> S -> M S) (s : S) (g : rng) :
  for_eachM (l1 ++ l2) body s g = bind (for_eachM l1 body s) (for_eachM l2 body) g.
Proof.
  revert s g. induction l1 as [|i l1 IH]; intros s g.
  - reflexivity.
  - cbn [for_eachM app]. unfold bind.
    destruct (body i s g) as [[s'|e] g']; [|reflexivity].
    rewrite IH. reflexivity.
Qed.

Lemma firstn_succ_snoc {A : Type} (l : list A) (k : nat) :
  (k < length l)%nat -> exists x, firstn (S k) l = firstn k l ++ [x].
Proof.
  revert k. induction l as [|a l IH]; intros k Hk; simpl in Hk; [lia|].
  destruct k as [|k].
  - exists a. reflexivity.
  - destruct (IH k) as [x Hx]; [lia|]. exists x.
    change (firstn (S (S k)) (a :: l)) with (a :: firstn (S k) l).
    rewrite Hx. reflexivity.
Qed.

Lemma length_range_from lo n : length (range_from lo n) = n.
Proof. revert lo. induction n as [|n IH]; intros lo; simpl; [|rewrite IH]; reflexivity. Qed.

Lemma draws_add {lib : Library} (n m : nat) (g : rng) :
  draws (n + m) g = draws n (draws m g).
Proof. induction n as [|n IH]; simpl; [|rewrite IH]; reflexivity. Qed.

(** One iteration of the loop of [simulate_parametric] applies [phase_step]
    to the phase error with the first deviate it draws. *)
Lemma loop_body_phase {lib : Library} pr su n st g :
  exists st',
    phi_pi_parametric_sim.loop_body pr su n st g = (Ok st', draws 6 g)
    /\ phi_pi_parametric_sim.delta st'
       = phase_step (phi_pi_parametric_sim.K_eff su) (phi_pi_parametric_sim.dt pr)
           (phi_pi_parametric_sim.phase_jitter_scale su)
           (phi_pi_parametric_sim.delta st) (0.0 + deviate 0 g * 1.0)%float.
Proof.
  unfold phi_pi_parametric_sim.loop_body, phi_pi_parametric_sim.acc,
    bind, random_gauss, ret.
  cbn [fst snd].
  destruct (phi_pi_parametric_sim.steps su / 2 <? n)%Z;
    eexists; split; reflexivity.
Qed.

(** After [k] iterations of the loop the phase error is the [k]-th iterate
    of the rule, fed with every sixth deviate of the generator. *)
Lemma loop_phase_is_phase_iter {lib : Library} pr su (k : nat) g :
  (Z.of_nat k <= phi_pi_parametric_sim.steps su)%Z ->
  exists st,
    for_eachM (firstn k (range 0 (phi_pi_parametric_sim.steps su)))
      (phi_pi_parametric_sim.loop_body pr su)
      (phi_pi_parametric_sim.initial_state pr) g
    = (Ok st, draws (6 * k) g)
    /\ phi_pi_parametric_sim.delta st
       = phase_iter (phi_pi_parametric_sim.K_eff su) (phi_pi_parametric_sim.dt pr)
           (phi_pi_parametric_sim.phase_jitter_scale su)
           (fun i => (0.0 + deviate (6 * i) g * 1.0)%float) k 0.0%float.
Proof.
  induction k as [|k IH]; intros Hk.
  - exists (phi_pi_parametric_sim.initial_state pr). split; reflexivity.
  - destruct IH as (st & Hrun & Hdelta); [lia|].
    destruct (@firstn_succ_snoc _ (range 0 (phi_pi_parametric_sim.steps su)) k)
      as [n Hn].
    { unfold range. rewrite length_range_from. lia. }
    rewrite Hn, for_eachM_app. unfold bind. rewrite Hrun.
    cbn [for_eachM]. unfold bind.
    destruct (loop_body_phase pr su n st (draws (6 * k) g)) as (st' & Hb & Hd).
    rewrite Hb. exists st'. split.
    + unfold ret. f_equal. rewrite <- draws_add. f_equal. lia.
    + rewrite Hd, Hdelta. reflexivity.
Qed.

(** ** The 1-D step on well-formed fields *)

Lemma In_range_from i lo n :
  In i (range_from lo n) -> (lo <= i < lo + Z.of_nat n)%Z.
Proof.
  revert lo. induction n as [|n IH]; intros lo; simpl; [tauto|].
  intros [<-|H]; [lia|]. apply IH in H. lia.
Qed.

Lemma In_range i lo hi : In i (range lo hi) -> (lo <= i < hi)%Z.
Proof. unfold range. intros H. apply In_range_from in H. lia. Qed.

Lemma getitem_in_range {A : Type} (l : list A) i :
  (0 <= i < Z.of_nat (length l))%Z -> exists x, getitem l i = Ok x.
Proof.
  intros Hi. unfold getitem. rewrite norm_index_in_range by assumption.
  destruct (nth_error l (Z.to_nat i)) as [x|] eqn:E; [now exists x|].
  apply nth_error_None in E. lia.
Qed.

Lemma setitem_in_range {A : Type} (l : list A) i v :
  (0 <= i < Z.of_nat (length l))%Z ->
  setitem l i v = Ok (list_set l (Z.to_nat i) v).
Proof. intros Hi. unfold setitem. now rewrite norm_index_in_range. Qed.

Lemma getitem_list_set_same {A : Type} (l : list A) i v :
  (0 <= i < Z.of_nat (length l))%Z ->
  getitem (list_set l (Z.to_nat i) v) i = Ok v.
Proof.
  intros Hi. unfold getitem.
  rewrite length_list_set, norm_index_in_range by assumption.
  rewrite nth_error_list_set_same by lia. reflexivity.
Qed.

Lemma getitem_list_set_other {A : Type} (l : list A) i j v :
  (0 <= i < Z.of_nat (length l))%Z -> (0 <= j < Z.of_nat (length l))%Z -> i <> j ->
  getitem (list_set l (Z.to_nat i) v) j = getitem l j.
Proof.
  intros Hi Hj Hij. unfold getitem.
  rewrite length_list_set, !norm_index_in_range by assumption.
  rewrite nth_error_list_set_other by lia. reflexivity.
Qed.

(** A loop whose body keeps an invariant on the indices it visits does
    not raise and ends in a state with the invariant. *)
Lemma for_each_invariant {I S : Type} (P : S -> Prop) (Q : I -> Prop)
  (body : I -> S -> result S) (l : list I) (s : S) :
  (forall i, In i l -> Q i) ->
  (forall i s0, Q i -> P s0 -> exists s1, body i s0 = Ok s1 /\ P s1) ->
  P s -> exists s', for_each l body s = Ok s' /\ P s'.
Proof.
  intros HQ Hbody. revert s. induction l as [|i l IH]; intros s Hs.
  - exists s. split; [reflexivity|assumption].
  - destruct (Hbody i s) as (s1 & E1 & H1); [apply HQ; now left|assumption|].
    cbn [for_each]. rewrite E1. cbn [rbind].
    apply IH; [|assumption]. intros j Hj. apply HQ. now right.
Qed.

Lemma interior_body_ok cav i (nxt : list float) :
  well_formed cav ->
  Z.of_nat (length nxt) = wave_cavity_phi_pi.N (wave_cavity_phi_pi.p cav) ->
  (1 <= i < wave_cavity_phi_pi.N (wave_cavity_phi_pi.p cav) - 1)%Z ->
  exists nxt',
    wave_cavity_phi_pi.interior_body cav i nxt = Ok nxt'
    /\ Z.of_nat (length nxt') = wave_cavity_phi_pi.N (wave_cavity_phi_pi.p cav).
Proof.
  intros (Hp & Hu & Hn & Hg) Hlen Hi.
  unfold wave_cavity_phi_pi.interior_body.
  destruct (@getitem_in_range _ (wave_cavity_phi_pi.u cav) (i + 1)) as [ur ->]; [lia|].
  destruct (@getitem_in_range _ (wave_cavity_phi_pi.u cav) i) as [uc ->]; [lia|].
  destruct (@getitem_in_range _ (wave_cavity_phi_pi.u cav) (i - 1)) as [ul ->]; [lia|].
  destruct (@getitem_in_range _ (wave_cavity_phi_pi.gamma cav) i) as [gi ->]; [lia|].
  destruct (@getitem_in_range _ (wave_cavity_phi_pi.u_prev cav) i) as [up ->]; [lia|].
  cbn [rbind]. rewrite setitem_in_range by lia.
  eexists. split; [reflexivity|]. rewrite length_list_set. exact Hlen.
Qed.

(** The boundary writes succeed and fix the two end nodes: zero when
    confined, the old neighbour's value when open. *)
Lemma boundary_update_ok cav (nxt : list float) :
  well_formed cav ->
  Z.of_nat (length nxt) = wave_cavity_phi_pi.N (wave_cavity_phi_pi.p cav) ->
  (3 <= wave_cavity_phi_pi.N (wave_cavity_phi_pi.p cav))%Z ->
  exists nxt',
    wave_cavity_phi_pi.boundary_update cav nxt = Ok nxt'
    /\ Z.of_nat (length nxt') = wave_cavity_phi_pi.N (wave_cavity_phi_pi.p cav)
    /\ getitem nxt' 0
       = match wave_cavity_phi_pi.mode cav with
         | confined => Ok 0.0%float
         | open => getitem (wave_cavity_phi_pi.u cav) 1
         end
    /\ getitem nxt' (wave_cavity_phi_pi.N (wave_cavity_phi_pi.p cav) - 1)
       = match wave_cavity_phi_pi.mode cav with
         | confined => Ok 0.0%float
         | open => getitem (wave_cavity_phi_pi.u cav)
                     (wave_cavity_phi_pi.N (wave_cavity_phi_pi.p cav) - 2)
         end.
Proof.
  intros (Hp & Hu & Hn & Hg) Hlen HN.
  unfold wave_cavity_phi_pi.boundary_update.
  set (n := wave_cavity_phi_pi.N (wave_cavity_phi_pi.p cav)) in *.
  destruct (wave_cavity_phi_pi.mode cav).
  - rewrite setitem_in_range by lia. cbn [rbind].
    rewrite setitem_in_range by (rewrite length_list_set; lia).
    eexists. split; [reflexivity|].
    split; [rewrite !length_list_set; exact Hlen|]. split.
    + rewrite getitem_list_set_other by (rewrite ?length_list_set; lia).
      apply (getitem_list_set_same nxt (i := 0%Z)). lia.
    + apply getitem_list_set_same. rewrite length_list_set. lia.
  - destruct (@getitem_in_range _ (wave_cavity_phi_pi.u cav) 1) as [a Ea]; [lia|].
    destruct (@getitem_in_range _ (wave_cavity_phi_pi.u cav) (n - 2)) as [b Eb]; [lia|].
    rewrite Ea, Eb. cbn [rbind].
    rewrite setitem_in_range by lia. cbn [rbind].
    rewrite setitem_in_range by (rewrite length_list_set; lia).
    eexists. split; [reflexivity|].
    split; [rewrite !length_list_set; exact Hlen|]. split.
    + rewrite getitem_list_set_other by (rewrite ?length_list_set; lia).
      apply (getitem_list_set_same nxt (i := 0%Z)). lia.
    + apply getitem_list_set_same. rewrite length_list_set. lia.
Qed.



Lemma for_each_preserves {I S : Type} (P : S -> Prop)
  (body : I -> S -> result S) (l : list I) (s s' : S) :
  (forall i s0 s1, body i s0 = Ok s1 -> P s0 -> P s1) ->
  for_each l body s = Ok s' -> P s -> P s'.
Proof.
  intros Hbody. revert s. induction l as [|i l IH]; intros s E Hs.
  - cbn in E. injection E as <-. exact Hs.
  - cbn [for_each] in E. destruct (body i s) as [s1|e] eqn:E1; [|discriminate E].
    cbn [rbind] in E. apply (IH s1 E). apply (Hbody i s s1 E1 Hs).
Qed.

Lemma additem_length (l l' : list float) i d :
  additem l i d = Ok l' -> length l' = length l.
Proof.
  unfold additem, setitem. destruct (getitem l i) as [x|e]; [|discriminate].
  cbn [rbind]. destruct (norm_index _ i); [|discriminate].
  intros E. injection E as <-. apply length_list_set.
Qed.

(** Every field the constructor returns is well-formed. *)
Lemma WaveCavity_init_well_formed {lib : Library} pr m g cav :
  (0 <= wave_cavity_phi_pi.N pr)%Z ->
  fst (wave_cavity_phi_pi.WaveCavity_init pr m g) = Ok cav ->
  well_formed cav /\ wave_cavity_phi_pi.p cav = pr /\ wave_cavity_phi_pi.mode cav = m.
Proof.
  intros HN. unfold wave_cavity_phi_pi.WaveCavity_init, bind, random_seed, lift, raise.
  destruct (truediv _ _) as [r0|e]; cbn [fst]; [|discriminate].
  destruct (1.0 <? r0)%float; cbn [fst]; [discriminate|].
  destruct (wave_cavity_phi_pi.damping_profile pr m) as [gam|e] eqn:Eg;
    cbn [fst]; [|discriminate].
  unfold ret. cbn [fst]. intros E. injection E as <-.
  assert (Hrep : forall x : float,
             Z.of_nat (length (replicate x (wave_cavity_phi_pi.N pr)))
             = wave_cavity_phi_pi.N pr).
  { intros x. unfold replicate. rewrite repeat_length. lia. }
  split; [|split; reflexivity].
  unfold well_formed. cbn. repeat split; try apply Hrep.
  unfold wave_cavity_phi_pi.damping_profile in Eg. destruct m.
  - injection Eg as <-. apply Hrep.
  - apply (for_each_preserves
             (fun l : list float => Z.of_nat (length l) = wave_cavity_phi_pi.N pr)
             _ _ _ (s' := gam)) in Eg; [exact Eg| |apply Hrep].
    intros i s0 s1 Eb Hs. unfold wave_cavity_phi_pi.pml_body in Eb.
    destruct (truediv _ _) as [gg|e]; [|discriminate Eb]. cbn [rbind] in Eb.
    destruct (additem s0 i gg) as [s2|e] eqn:E2; [|discriminate Eb].
    cbn [rbind] in Eb. apply additem_length in E2, Eb. lia.
Qed.

(** ** The 1-D absorbing profile, for every configuration *)

Lemma getitem_replicate {A : Type} (x : A) n i :
  (0 <= i < n)%Z -> getitem (replicate x n) i = Ok x.
Proof.
  intros Hi. unfold getitem, replicate.
  rewrite repeat_length, norm_index_in_range by lia.
  destruct (nth_error (repeat x (Z.to_nat n)) (Z.to_nat i)) as [y|] eqn:E.
  - apply nth_error_In, repeat_spec in E. now subst.
  - apply nth_error_None in E. rewrite repeat_length in E. lia.
Qed.

(** One iteration of the layer loop: depth [j] is handled at both ends. *)
Lemma pml_body_step pr (j : Z) (l : list float) :
  let n := wave_cavity_phi_pi.N pr in
  let L := wave_cavity_phi_pi.pml_len pr in
  (float_of_Z L =? 0)%float = false ->
  (0 <= j < L)%Z -> (2 * L <= n)%Z ->
  Z.of_nat (length l) = n ->
  (forall i, (0 <= i < n)%Z -> getitem l i = Ok (profile_1d_after pr j i)) ->
  exists l',
    wave_cavity_phi_pi.pml_body pr j l = Ok l'
    /\ Z.of_nat (length l') = n
    /\ forall i, (0 <= i < n)%Z -> getitem l' i = Ok (profile_1d_after pr (j + 1) i).
Proof.
  intros n L Hnz Hj HL Hlen Hinv.
  unfold wave_cavity_phi_pi.pml_body, truediv. fold L. rewrite Hnz. cbn [rbind].
  change (wave_cavity_phi_pi.pml_max pr * float_of_Z (j + 1) / float_of_Z L)%float
    with (layer_extra_1d pr j).
  unfold additem at 1. rewrite Hinv by lia. cbn [rbind].
  rewrite setitem_in_range by lia. cbn [rbind].
  set (l1 := list_set l (Z.to_nat j) _).
  assert (Hlen1 : Z.of_nat (length l1) = n) by (unfold l1; now rewrite length_list_set).
  unfold additem. fold n.
  assert (E1 : getitem l1 (n - 1 - j) = Ok (profile_1d_after pr j (n - 1 - j))).
  { unfold l1. rewrite getitem_list_set_other by lia. apply Hinv. lia. }
  rewrite E1. cbn [rbind]. rewrite setitem_in_range by lia.
  eexists. split; [reflexivity|]. split; [now rewrite length_list_set|].
  intros i Hi.
  destruct (Z.eq_dec i (n - 1 - j)) as [->|Hne1].
  { rewrite getitem_list_set_same by lia. f_equal.
    unfold profile_1d_after. fold n.
    destruct (Z.ltb_spec (n - 1 - j) j); [lia|].
    destruct (Z.ltb_spec (n - 1 - j) (n - 1 - j)); [lia|].
    destruct (Z.ltb_spec (n - 1 - j) (j + 1)); [lia|].
    destruct (Z.ltb_spec (n - 1 - (j + 1)) (n - 1 - j)); [|lia].
    replace (n - 1 - (n - 1 - j))%Z with j by lia. reflexivity. }
  rewrite getitem_list_set_other by lia.
  destruct (Z.eq_dec i j) as [->|Hne2].
  { unfold l1. rewrite getitem_list_set_same by lia. f_equal.
    unfold profile_1d_after. fold n.
    destruct (Z.ltb_spec j j); [lia|].
    destruct (Z.ltb_spec (n - 1 - j) j); [lia|].
    destruct (Z.ltb_spec j (j + 1)); [reflexivity|lia]. }
  unfold l1. rewrite getitem_list_set_other by lia.
  rewrite Hinv by lia. f_equal.
  unfold profile_1d_after. fold n.
  destruct (Z.ltb_spec i j); destruct (Z.ltb_spec i (j + 1)); try lia; try reflexivity.
  destruct (Z.ltb_spec (n - 1 - j) i);
    destruct (Z.ltb_spec (n - 1 - (j + 1)) i); try lia; reflexivity.
Qed.

Lemma pml_loop pr (k : nat) : forall (j : Z) (l : list float),
  let n := wave_cavity_phi_pi.N pr in
  let L := wave_cavity_phi_pi.pml_len pr in
  (float_of_Z L =? 0)%float = false ->
  (0 <= j)%Z -> (j + Z.of_nat k <= L)%Z -> (2 * L <= n)%Z ->
  Z.of_nat (length l) = n ->
  (forall i, (0 <= i < n)%Z -> getitem l i = Ok (profile_1d_after pr j i)) ->
  exists l',
    for_each (range_from j k) (wave_cavity_phi_pi.pml_body pr) l = Ok l'
    /\ Z.of_nat (length l') = n
    /\ forall i, (0 <= i < n)%Z ->
         getitem l' i = Ok (profile_1d_after pr (j + Z.of_nat k) i).
Proof.
  induction k as [|k IH]; intros j l n L Hnz Hj Hk HL Hlen Hinv.
  - exists l. split; [reflexivity|]. split; [assumption|].
    intros i Hi. rewrite Z.add_0_r. now apply Hinv.
  - cbn [range_from for_each].
    destruct (@pml_body_step pr j l Hnz) as (l1 & E1 & Hlen1 & Hinv1);
      try assumption; [lia|].
    rewrite E1. cbn [rbind].
    destruct (IH (j + 1)%Z l1 Hnz) as (l' & E & Hlen' & Hinv');
      try assumption; [lia|lia|].
    exists l'. split; [exact E|]. split; [exact Hlen'|].
    intros i Hi. rewrite Hinv' by assumption. f_equal. f_equal. lia.
Qed.

(** X16. In every 1-D configuration whose two layers fit side by side, the
    absorbing profile adds [pml_max * (i + 1) / L] at the node [i] nodes
    away from either end and nothing in between: the smallest addition,
    [pml_max * 1 / L], at the outermost nodes, growing inwards. *)
Lemma pml_profile_1d pr :
  let n := wave_cavity_phi_pi.N pr in
  let L := wave_cavity_phi_pi.pml_len pr in
  (float_of_Z L =? 0)%float = false ->
  (0 < L)%Z -> (2 * L <= n)%Z ->
  exists gam,
    wave_cavity_phi_pi.damping_profile pr open = Ok gam
    /\ (forall i, (0 <= i < n)%Z -> getitem gam i = Ok (profile_1d_after pr L i))
    /\ getitem gam 0
       = Ok (wave_cavity_phi_pi.gamma_interior pr
             + wave_cavity_phi_pi.pml_max pr * 1 / float_of_Z L)%float
    /\ getitem gam (n - 1) = getitem gam 0.
Proof.
  intros n L Hnz HL0 HL.
  unfold wave_cavity_phi_pi.damping_profile, range. rewrite Z.sub_0_r.
  destruct (@pml_loop pr (Z.to_nat L) 0%Z
              (replicate (wave_cavity_phi_pi.gamma_interior pr) n) Hnz)
    as (gam & E & Hlen & Hinv); try lia.
  { unfold replicate. rewrite repeat_length. lia. }
  { intros i Hi. rewrite getitem_replicate by assumption. f_equal.
    unfold profile_1d_after. fold n.
    destruct (Z.ltb_spec i 0); [lia|].
    destruct (Z.ltb_spec (n - 1 - 0) i); [lia|reflexivity]. }
  exists gam. split; [exact E|].
  assert (Hall : forall i, (0 <= i < n)%Z -> getitem gam i = Ok (profile_1d_after pr L i)).
  { intros i Hi. rewrite Hinv by assumption. f_equal. f_equal. lia. }
  split; [exact Hall|].
  assert (H0 : getitem gam 0
               = Ok (wave_cavity_phi_pi.gamma_interior pr
                     + wave_cavity_phi_pi.pml_max pr * 1 / float_of_Z L)%float).
  { rewrite Hall by lia. unfold profile_1d_after.
    destruct (Z.ltb_spec 0 L); [reflexivity|lia]. }
  split; [exact H0|].
  rewrite H0, Hall by lia. unfold profile_1d_after. fold n L.
  destruct (Z.ltb_spec (n - 1) L); [lia|].
  destruct (Z.ltb_spec (n - 1 - L) (n - 1)); [|lia].
  replace (n - 1 - (n - 1))%Z with 0%Z by lia. reflexivity.
Qed.

(** The 3-D constructor computes the specified ramp at every depth inside
    the layer, and on a small grid (6 nodes per axis, layer length 2) the
    profile is the baseline plus the full maximum on the outermost shell,
    plus half of it one node in, and the baseline inside. *)
Lemma pml_profile_3d_follows_spec :
  (forall pr d,
      (d < wave3d_phi_pi.pml_len pr)%Z ->
      (float_of_Z (wave3d_phi_pi.pml_len pr) =? 0)%float = false ->
      wave3d_phi_pi.layer_damping pr d
      = Ok (spec_layer_extra (wave3d_phi_pi.pml_max pr) (wave3d_phi_pi.pml_len pr) d))
  /\ (let gam := wave3d_phi_pi.damping_profile small_3d_params open in
      rbind gam (fun l => getitem l (wave3d_phi_pi.idx 6 0 3 3)) = Ok (2e-3 + 0.06)%float
      /\ rbind gam (fun l => getitem l (wave3d_phi_pi.idx 6 1 3 3))
         = Ok (2e-3 + 0.06 * 1 / 2)%float
      /\ rbind gam (fun l => getitem l (wave3d_phi_pi.idx 6 2 3 3)) = Ok 2e-3%float
      /\ rbind gam (fun l => getitem l (wave3d_phi_pi.idx 6 5 5 5)) = Ok (2e-3 + 0.06)%float).
Proof.
  split.
  - intros pr d Hd Hnz. unfold wave3d_phi_pi.layer_damping, truediv, spec_layer_extra.
    destruct (Z.ltb_spec d (wave3d_phi_pi.pml_len pr)); [|lia].
    rewrite Hnz. reflexivity.
  - vm_compute. repeat split.
Qed.

(** ** The unlocked phase error on binary64 floats *)

(** Zero times a finite float is a zero. *)
Lemma zero_times_finite (x z : float) :
  (exists s, Prim2SF x = S754_zero s) -> finite z = true ->
  exists s', Prim2SF (x * z)%float = S754_zero s'.
Proof.
  intros [s Hx] Hz. unfold finite in Hz. rewrite mul_spec, Hx.
  destruct (Prim2SF z) as [sz|sz| |sz m e]; try discriminate Hz;
    eexists; reflexivity.
Qed.

(** Adding a zero changes nothing, except that [-0.0 + 0.0] is [0.0]. *)
Lemma add_zero_right (d t : float) :
  (exists s, Prim2SF t = S754_zero s) -> not_negative_zero d = true ->
  (d + t)%float = d.
Proof.
  intros [s Ht] Hd. apply Prim2SF_inj. rewrite add_spec, Ht.
  unfold not_negative_zero in Hd.
  destruct (Prim2SF d) as [sd|sd| |sd m e]; try reflexivity.
  destruct sd; [discriminate Hd|]. destruct s; reflexivity.
Qed.

(** With zero jitter amplitude and gain 0, one application of the rule on
    floats returns the phase error unchanged, bit for bit, provided the
    deviate and [sqrt(dt)] are finite. *)
Lemma unlocked_step_float {lib : Library} (h delta xi : float) :
  finite (PrimFloat.sqrt h) = true -> finite xi = true ->
  not_negative_zero delta = true ->
  phase_step 0.0%float h (0.0 * PrimFloat.sqrt h)%float delta xi = delta.
Proof.
  intros Hh Hxi Hd. unfold phase_step. cbn [spos sadd smul float_scalar].
  change (0.0 <? 0.0)%float with false. cbv iota.
  apply add_zero_right; [|exact Hd].
  apply zero_times_finite; [|exact Hxi].
  apply zero_times_finite; [|exact Hh].
  exists false. reflexivity.
Qed.

Lemma unlocked_iter_float {lib : Library} (h : float) (xi : nat -> float) (n : nat)
  (delta0 : float) :
  finite (PrimFloat.sqrt h) = true -> (forall k, finite (xi k) = true) ->
  not_negative_zero delta0 = true ->
  phase_iter 0.0%float h (0.0 * PrimFloat.sqrt h)%float xi n delta0 = delta0.
Proof.
  intros Hh Hxi Hd. induction n as [|n IH]; [reflexivity|].
  cbn [phase_iter]. rewrite IH. apply unlocked_step_float; auto.
Qed.


(** * Further properties of the code *)

(** ** Loops over ranges *)

Lemma firstn_range_from (k n : nat) (lo : Z) :
  firstn k (range_from lo n) = range_from lo (Nat.min k n).
Proof.
  revert lo n. induction k as [|k IH]; intros lo [|n]; try reflexivity.
  cbn [range_from firstn Nat.min]. now rewrite IH.
Qed.

Lemma range_from_app (a b : nat) (lo : Z) :
  range_from lo (a + b) = range_from lo a ++ range_from (lo + Z.of_nat a) b.
Proof.
  revert lo. induction a as [|a IH]; intros lo.
  - cbn. now rewrite Z.add_0_r.
  - cbn [range_from Nat.add app]. rewrite IH. do 3 f_equal. lia.
Qed.

(** A loop over [lo, lo + n) whose body keeps an index-dependent invariant
    does not raise and ends with the invariant at [lo + n]. *)
Lemma for_eachM_range {lib : Library} {St : Type} (P : Z -> St -> Prop)
  (body : Z -> St -> M St) (n : nat) : forall (lo : Z) (s : St) (g : rng),
  (forall i s0 g0, (lo <= i < lo + Z.of_nat n)%Z -> P i s0 ->
     exists s1 g1, body i s0 g0 = (Ok s1, g1) /\ P (i + 1)%Z s1) ->
  P lo s ->
  exists s' g', for_eachM (range_from lo n) body s g = (Ok s', g')
                /\ P (lo + Z.of_nat n)%Z s'.
Proof.
  induction n as [|n IH]; intros lo s g Hbody Hs.
  - exists s, g. split; [reflexivity|]. now rewrite Z.add_0_r.
  - destruct (Hbody lo s g) as (s1 & g1 & E1 & H1); [lia|assumption|].
    destruct (IH (lo + 1)%Z s1 g1) as (s' & g' & E & H').
    { intros i s0 g0 Hi. apply Hbody. lia. }
    { exact H1. }
    exists s', g'. split.
    + cbn [range_from for_eachM]. unfold bind. rewrite E1. exact E.
    + replace (lo + Z.of_nat (S n))%Z with (lo + 1 + Z.of_nat n)%Z by lia. exact H'.
Qed.

(** ** The 1-D run *)

(** On a well-formed field of at least three nodes a step returns a
    well-formed field of the same parameters and mode, after two draws. *)
Lemma step_well_formed {lib : Library} cav n g :
  well_formed cav ->
  (3 <= wave_cavity_phi_pi.N (wave_cavity_phi_pi.p cav))%Z ->
  exists cav',
    wave_cavity_phi_pi.step cav n g = (Ok cav', draws 2 g)
    /\ well_formed cav'
    /\ wave_cavity_phi_pi.p cav' = wave_cavity_phi_pi.p cav
    /\ wave_cavity_phi_pi.mode cav' = wave_cavity_phi_pi.mode cav.
Proof.
  intros Hwf HN. pose proof Hwf as (Hp & Hu & Hn & Hg).
  set (nn := wave_cavity_phi_pi.N (wave_cavity_phi_pi.p cav)) in *.
  unfold wave_cavity_phi_pi.step, wave_cavity_phi_pi.phase_update,
    wave_cavity_phi_pi.drive_sample, bind, lift, ret, random_gauss.
  cbn [fst snd].
  destruct (@for_each_invariant Z (list float)
              (fun l => Z.of_nat (length l) = nn)
              (fun i => (1 <= i < nn - 1)%Z)
              (wave_cavity_phi_pi.interior_body cav)
              (range 1 (nn - 1)) (wave_cavity_phi_pi.u_next cav))
    as (nxt1 & E1 & L1).
  { intros i Hi. apply In_range in Hi. exact Hi. }
  { intros i s0 Hi Hs. apply interior_body_ok; assumption. }
  { exact Hn. }
  fold nn. rewrite E1.
  match goal with
  | |- context [additem nxt1 ?i ?d] =>
      destruct (@forcing_touches_only_source (wave_cavity_phi_pi.p cav) nxt1 d HN L1)
        as (x & nxt2 & _ & E2 & L2 & _)
  end.
  rewrite E2.
  destruct (@boundary_update_ok cav nxt2 Hwf) as (nxt3 & E3 & L3 & _);
    [fold nn; lia|exact HN|].
  rewrite E3.
  eexists. split; [reflexivity|].
  split; [|split; reflexivity].
  unfold well_formed. cbn. fold nn. repeat split; assumption.
Qed.

(** With non-zero steps the energy of a well-formed field is computed
    without raising. *)
Lemma energy_ok cav :
  well_formed cav ->
  (wave_cavity_phi_pi.dt (wave_cavity_phi_pi.p cav) =? 0)%float = false ->
  (wave_cavity_phi_pi.dx (wave_cavity_phi_pi.p cav) =? 0)%float = false ->
  exists e, wave_cavity_phi_pi.energy cav = Ok e.
Proof.
  intros (Hp & Hu & Hn & Hg) Hdt Hdx.
  set (nn := wave_cavity_phi_pi.N (wave_cavity_phi_pi.p cav)) in *.
  unfold wave_cavity_phi_pi.energy. fold nn.
  destruct (@for_each_invariant Z (float * float) (fun _ => True)
              (fun i => (1 <= i < nn - 1)%Z)
              (wave_cavity_phi_pi.energy_body cav)
              (range 1 (nn - 1)) (0.0%float, 0.0%float))
    as (sums & E & _).
  { intros i Hi. apply In_range in Hi. exact Hi. }
  { intros i s0 Hi _. unfold wave_cavity_phi_pi.energy_body, truediv.
    destruct (@getitem_in_range _ (wave_cavity_phi_pi.u cav) i) as [uc ->]; [lia|].
    destruct (@getitem_in_range _ (wave_cavity_phi_pi.u_prev cav) i) as [up ->]; [lia|].
    destruct (@getitem_in_range _ (wave_cavity_phi_pi.u cav) (i + 1)) as [ur ->]; [lia|].
    destruct (@getitem_in_range _ (wave_cavity_phi_pi.u cav) (i - 1)) as [ul ->]; [lia|].
    rewrite Hdt, Hdx. cbn [rbind]. eexists. split; [reflexivity|exact I]. }
  { exact I. }
  rewrite E. cbn [rbind]. eexists. reflexivity.
Qed.

(** With a zero time step the energy of a well-formed field of at least
    three nodes divides by zero at its first node. *)
Lemma energy_zero_dt cav :
  well_formed cav ->
  (3 <= wave_cavity_phi_pi.N (wave_cavity_phi_pi.p cav))%Z ->
  (wave_cavity_phi_pi.dt (wave_cavity_phi_pi.p cav) =? 0)%float = true ->
  wave_cavity_phi_pi.energy cav = Raise ZeroDivisionError.
Proof.
  intros (Hp & Hu & Hn & Hg) HN Hdt.
  set (nn := wave_cavity_phi_pi.N (wave_cavity_phi_pi.p cav)) in *.
  unfold wave_cavity_phi_pi.energy, range. fold nn.
  destruct (Z.to_nat (nn - 1 - 1)) as [|k] eqn:Ek; [lia|].
  cbn [range_from for_each].
  unfold wave_cavity_phi_pi.energy_body at 1. unfold truediv.
  destruct (@getitem_in_range _ (wave_cavity_phi_pi.u cav) 1) as [uc ->]; [lia|].
  destruct (@getitem_in_range _ (wave_cavity_phi_pi.u_prev cav) 1) as [up ->]; [lia|].
  cbn [rbind]. rewrite Hdt. reflexivity.
Qed.

Lemma samples_after_succ steps i :
  (0 <= i)%Z ->
  samples_after steps (i + 1)
  = (samples_after steps i + (if (steps / 2 <? i)%Z then 1 else 0))%Z.
Proof.
  intros Hi. unfold samples_after. set (h := (steps / 2)%Z).
  destruct (Z.ltb_spec h i); lia.
Qed.

(** What the loop of [run_once] keeps true: the field is well-formed and
    belongs to the run's parameters, and the energies collected are those of
    the indices past burn-in. *)
Lemma run_body_invariant {lib : Library} pr i
  (st : wave_cavity_phi_pi.WaveCavity * list float) g :
  (0 <= i)%Z ->
  (3 <= wave_cavity_phi_pi.N pr)%Z ->
  (wave_cavity_phi_pi.dx pr =? 0)%float = false ->
  ((wave_cavity_phi_pi.dt pr =? 0)%float = false \/ (wave_cavity_phi_pi.steps pr / 2 <? i)%Z = false) ->
  well_formed (fst st) /\ wave_cavity_phi_pi.p (fst st) = pr
  /\ Z.of_nat (length (snd st)) = samples_after (wave_cavity_phi_pi.steps pr) i ->
  exists st' g',
    wave_cavity_phi_pi.run_body pr i st g = (Ok st', g')
    /\ (well_formed (fst st') /\ wave_cavity_phi_pi.p (fst st') = pr
        /\ Z.of_nat (length (snd st'))
           = samples_after (wave_cavity_phi_pi.steps pr) (i + 1)).
Proof.
  intros Hi0 HN Hdx Hdt (Hwf & Hp & Hlen).
  unfold wave_cavity_phi_pi.run_body, bind.
  destruct (@step_well_formed lib (fst st) i g Hwf) as (cav' & E & Hwf' & Hp' & _).
  { rewrite Hp. exact HN. }
  rewrite E. rewrite samples_after_succ by assumption.
  destruct (wave_cavity_phi_pi.steps pr / 2 <? i)%Z eqn:Ei.
  - destruct Hdt as [Hdt|Hdt]; [|discriminate Hdt].
    destruct (@energy_ok cav' Hwf') as [e He].
    { rewrite Hp', Hp. exact Hdt. }
    { rewrite Hp', Hp. exact Hdx. }
    unfold lift, ret. rewrite He. eexists. eexists. split; [reflexivity|].
    cbn [fst snd]. rewrite length_app. cbn [length].
    split; [exact Hwf'|]. split; [congruence|lia].
  - unfold ret. eexists. eexists. split; [reflexivity|].
    cbn [fst snd]. split; [exact Hwf'|]. split; [congruence|lia].
Qed.

Lemma WaveCavity_init_dx {lib : Library} pr m g cav :
  fst (wave_cavity_phi_pi.WaveCavity_init pr m g) = Ok cav ->
  (wave_cavity_phi_pi.dx pr =? 0)%float = false.
Proof.
  unfold wave_cavity_phi_pi.WaveCavity_init, bind, random_seed, lift, truediv.
  destruct (wave_cavity_phi_pi.dx pr =? 0)%float; [discriminate|reflexivity].
Qed.

(** The loop of [run_once] over its first [n] indices, from a field the
    constructor returned. *)
Lemma run_loop_ok {lib : Library} pr (n : nat) cav0 g0 :
  (3 <= wave_cavity_phi_pi.N pr)%Z ->
  (wave_cavity_phi_pi.dx pr =? 0)%float = false ->
  ((wave_cavity_phi_pi.dt pr =? 0)%float = false
   \/ (Z.of_nat n <= Z.max 0 (wave_cavity_phi_pi.steps pr / 2 + 1))%Z) ->
  well_formed cav0 -> wave_cavity_phi_pi.p cav0 = pr ->
  exists cav es g',
    for_eachM (range_from 0 n) (wave_cavity_phi_pi.run_body pr) (cav0, []) g0
    = (Ok (cav, es), g')
    /\ well_formed cav /\ wave_cavity_phi_pi.p cav = pr
    /\ Z.of_nat (length es) = samples_after (wave_cavity_phi_pi.steps pr) (Z.of_nat n).
Proof.
  intros HN Hdx Hdt Hwf Hp.
  destruct (@for_eachM_range lib _
              (fun i st => well_formed (fst st) /\ wave_cavity_phi_pi.p (fst st) = pr
                           /\ Z.of_nat (length (snd st))
                              = samples_after (wave_cavity_phi_pi.steps pr) i)
              (wave_cavity_phi_pi.run_body pr) n 0%Z (cav0, []) g0)
    as ([cav es] & g' & E & Hinv).
  - intros i s0 g1 Hi Hs. apply run_body_invariant; try assumption; [lia|].
    destruct Hdt as [Hdt|Hn]; [now left|right].
    destruct (Z.ltb_spec (wave_cavity_phi_pi.steps pr / 2) i); [lia|reflexivity].
  - cbn [fst snd length]. split; [exact Hwf|]. split; [exact Hp|].
    unfold samples_after. lia.
  - exists cav, es, g'. cbn [fst snd] in Hinv. destruct Hinv as (H1 & H2 & H3).
    rewrite Z.add_0_l in H3.
    split; [exact E|]. split; [exact H1|]. split; [exact H2|exact H3].
Qed.







(** ** Samples of the parametric run *)

(** One iteration of the loop of [simulate_parametric] does not raise and
    appends one energy and one squared displacement exactly when its index
    is past burn-in. *)
Lemma loop_body_samples {lib : Library} pr su i st g :
  exists st',
    phi_pi_parametric_sim.loop_body pr su i st g = (Ok st', draws 6 g)
    /\ length (phi_pi_parametric_sim.E_vals st')
       = (length (phi_pi_parametric_sim.E_vals st)
          + (if (phi_pi_parametric_sim.steps su / 2 <? i)%Z then 1 else 0))%nat
    /\ length (phi_pi_parametric_sim.x2_vals st')
       = (length (phi_pi_parametric_sim.x2_vals st)
          + (if (phi_pi_parametric_sim.steps su / 2 <? i)%Z then 1 else 0))%nat.
Proof.
  unfold phi_pi_parametric_sim.loop_body, phi_pi_parametric_sim.acc,
    bind, random_gauss, ret.
  cbn [fst snd].
  destruct (phi_pi_parametric_sim.steps su / 2 <? i)%Z;
    eexists; (split; [reflexivity|]); cbn [phi_pi_parametric_sim.E_vals
                                           phi_pi_parametric_sim.x2_vals];
    rewrite ?length_app; cbn [length]; split; lia.
Qed.

Lemma parametric_loop_samples {lib : Library} pr su (n : nat) g :
  exists st g',
    for_eachM (range_from 0 n) (phi_pi_parametric_sim.loop_body pr su)
      (phi_pi_parametric_sim.initial_state pr) g = (Ok st, g')
    /\ Z.of_nat (length (phi_pi_parametric_sim.E_vals st))
       = samples_after (phi_pi_parametric_sim.steps su) (Z.of_nat n)
    /\ length (phi_pi_parametric_sim.x2_vals st)
       = length (phi_pi_parametric_sim.E_vals st).
Proof.
  destruct (@for_eachM_range lib _
              (fun i st => Z.of_nat (length (phi_pi_parametric_sim.E_vals st))
                           = samples_after (phi_pi_parametric_sim.steps su) i
                           /\ length (phi_pi_parametric_sim.x2_vals st)
                              = length (phi_pi_parametric_sim.E_vals st))
              (phi_pi_parametric_sim.loop_body pr su) n 0%Z
              (phi_pi_parametric_sim.initial_state pr) g)
    as (st & g' & E & HE & Hx).
  - intros i s0 g0 Hi (HE & Hx).
    destruct (loop_body_samples pr su i s0 g0) as (s1 & E1 & L1 & L2).
    exists s1, (draws 6 g0). split; [exact E1|].
    rewrite samples_after_succ by lia. split; [|lia].
    rewrite L1. destruct (phi_pi_parametric_sim.steps su / 2 <? i)%Z; lia.
  - cbn. split; [|reflexivity]. unfold samples_after. lia.
  - exists st, g'. rewrite Z.add_0_l in HE. split; [exact E|]. split; assumption.
Qed.







(** ** The metrics of the wireless run *)

Lemma ltb_leb (a b : float) : (a <? b)%float = true -> (a <=? b)%float = true.
Proof.
  rewrite ltb_spec, leb_spec. unfold SFltb, SFleb.
  destruct (SFcompare (Prim2SF a) (Prim2SF b)) as [[| |]|]; congruence.
Qed.

Lemma leb_refl_of_leb (a b : float) :
  (a <=? b)%float = true -> (a <=? a)%float = true /\ (b <=? b)%float = true.
Proof.
  rewrite !leb_spec. unfold SFleb.
  destruct (Prim2SF a) as [[|]|[|]| |[|] ma ea];
    destruct (Prim2SF b) as [[|]|[|]| |[|] mb eb]; cbn; try discriminate;
    intros _; rewrite ?Z.compare_refl, ?Pos.compare_refl; split; reflexivity.
Qed.

(** [max(lo, min(hi, q))] lies between [lo] and [hi] for every float [q],
    the NaN included. *)
Lemma clamp_bounds (lo hi q : float) :
  (lo <=? hi)%float = true ->
  (lo <=? fmax lo (fmin hi q))%float = true
  /\ (fmax lo (fmin hi q) <=? hi)%float = true.
Proof.
  intros H. destruct (leb_refl_of_leb H) as (Hlo & Hhi).
  unfold fmax, fmin.
  destruct (q <? hi)%float eqn:Eq.
  - destruct (lo <? q)%float eqn:El.
    + split; apply ltb_leb; assumption.
    + split; assumption.
  - destruct (lo <? hi)%float; split; assumption.
Qed.

Lemma fmax_lower (lo x : float) :
  (lo <=? lo)%float = true -> (lo <=? fmax lo x)%float = true.
Proof.
  intros H. unfold fmax. destruct (lo <? x)%float eqn:E; [now apply ltb_leb|exact H].
Qed.

(** The divisor of the efficiency proxy is never zero. *)
Lemma guarded_divisor_not_zero (a : float) :
  ((if (1e-12 <? a)%float then a else 1e-12%float) =? 0)%float = false.
Proof.
  destruct (1e-12 <? a)%float eqn:E; [|reflexivity].
  revert E. rewrite ltb_spec, FloatAxioms.eqb_spec.
  change (Prim2SF 0) with (S754_zero false).
  set (k := Prim2SF 1e-12). vm_compute in k. subst k.
  destruct (Prim2SF a) as [s|s| |s m e]; simpl; try discriminate;
    destruct s; simpl; try discriminate; reflexivity.
Qed.

Lemma length_slice_from_half {A : Type} (l : list A) :
  length (slice_from l (Z.of_nat (length l) / 2))
  = (length l - Z.to_nat (Z.of_nat (length l) / 2))%nat.
Proof.
  unfold slice_from, slice_bound. rewrite length_skipn.
  set (n := Z.of_nat (length l)).
  assert (0 <= n / 2 <= n)%Z.
  { pose proof (Z.div_mod n 2). pose proof (Z.mod_pos_bound n 2). lia. }
  destruct (Z.ltb_spec (n / 2) 0); [lia|].
  rewrite Z.min_r, Z.max_r by lia. reflexivity.
Qed.

Lemma slice_from_half_nonempty {A : Type} (l : list A) :
  (0 < length l)%nat -> (0 < length (slice_from l (Z.of_nat (length l) / 2)))%nat.
Proof.
  intros H. rewrite length_slice_from_half.
  pose proof (Z.div_mod (Z.of_nat (length l)) 2).
  pose proof (Z.mod_pos_bound (Z.of_nat (length l)) 2). lia.
Qed.

Lemma wireless_start_histories {lib : Library} lock pr sd g su lp0 :
  fst (phi_pi_wireless_sim.start lock pr sd g) = Ok (su, lp0) ->
  phi_pi_wireless_sim.energy_hist lp0 = []
  /\ phi_pi_wireless_sim.drive_power_hist lp0 = []
  /\ phi_pi_wireless_sim.diss_power_hist lp0 = []
  /\ phi_pi_wireless_sim.x_hist lp0 = []
  /\ sweep_phi_pi.compute_gamma pr = Ok (phi_pi_wireless_sim.gamma su).
Proof.
  unfold phi_pi_wireless_sim.start, sweep_phi_pi.compute_gamma,
    bind, random_seed, lift, random_random, ret.
  destruct (phi_pi_wireless_sim._gamma_from_Q _ _) as [g0|e]; cbn [fst snd rbind];
    [|discriminate].
  destruct (truediv _ _) as [q|e]; cbn [fst]; [|discriminate].
  destruct (int_of_float q) as [n|e]; cbn [fst]; [|discriminate].
  intros E. injection E as <- <-. repeat split.
Qed.

(** The loop of [simulate] never raises; each iteration appends one entry
    to each of the four histories. *)
Lemma wireless_loop_histories {lib : Library} lock pr su (n : nat) lp0 g :
  phi_pi_wireless_sim.energy_hist lp0 = [] ->
  phi_pi_wireless_sim.drive_power_hist lp0 = [] ->
  phi_pi_wireless_sim.diss_power_hist lp0 = [] ->
  phi_pi_wireless_sim.x_hist lp0 = [] ->
  exists lp g',
    for_eachM (range_from 0 n) (phi_pi_wireless_sim.loop_body lock pr su) lp0 g
    = (Ok lp, g')
    /\ length (phi_pi_wireless_sim.energy_hist lp) = n
    /\ length (phi_pi_wireless_sim.drive_power_hist lp) = n
    /\ length (phi_pi_wireless_sim.diss_power_hist lp) = n
    /\ length (phi_pi_wireless_sim.x_hist lp) = n.
Proof.
  intros H1 H2 H3 H4.
  destruct (@for_eachM_range lib _
              (fun i lp =>
                 Z.of_nat (length (phi_pi_wireless_sim.energy_hist lp)) = i
                 /\ Z.of_nat (length (phi_pi_wireless_sim.drive_power_hist lp)) = i
                 /\ Z.of_nat (length (phi_pi_wireless_sim.diss_power_hist lp)) = i
                 /\ Z.of_nat (length (phi_pi_wireless_sim.x_hist lp)) = i)
              (phi_pi_wireless_sim.loop_body lock pr su) n 0%Z lp0 g)
    as (lp & g' & E & L1 & L2 & L3 & L4).
  - intros i s0 g0 _ (L1 & L2 & L3 & L4).
    unfold phi_pi_wireless_sim.loop_body, phi_pi_wireless_sim.derivatives,
      bind, random_gauss, ret.
    cbn [fst snd]. eexists. eexists. split; [reflexivity|].
    cbn [phi_pi_wireless_sim.energy_hist phi_pi_wireless_sim.drive_power_hist
         phi_pi_wireless_sim.diss_power_hist phi_pi_wireless_sim.x_hist].
    rewrite !length_app. cbn [length]. lia.
  - rewrite H1, H2, H3, H4. cbn. tauto.
  - exists lp, g'. split; [exact E|]. lia.
Qed.

(** X7. A run of [simulate] whose step count [int(T / dt)] is not positive
    does not return metrics: the loop is skipped, the histories stay empty
    and the first mean of the metrics raises [StatisticsError]. *)
Theorem simulate_empty_run_raises {lib : Library} lock pr sd g su lp0 :
  fst (phi_pi_wireless_sim.start lock pr sd g) = Ok (su, lp0) ->
  (phi_pi_wireless_sim.n_steps su <= 0)%Z ->
  fst (phi_pi_wireless_sim.simulate lock pr sd g) = Raise StatisticsError.
Proof.
  intros Hst Hn.
  destruct (wireless_start_histories _ _ _ _ Hst) as (H1 & H2 & H3 & H4 & _).
  unfold phi_pi_wireless_sim.simulate, bind at 1.
  destruct (phi_pi_wireless_sim.start lock pr sd g) as [[[su' lp']|e] g1];
    cbn [fst] in Hst; [|discriminate Hst].
  injection Hst as -> ->. cbn [fst snd].
  unfold range. replace (Z.to_nat (phi_pi_wireless_sim.n_steps su - 0)) with 0%nat by lia.
  cbn [range_from for_eachM]. unfold bind, ret, lift. cbn [fst].
  unfold phi_pi_wireless_sim.metrics. rewrite H1. reflexivity.
Qed.

Lemma simulate_empty_run_raises_witness :
  fst (@phi_pi_wireless_sim.simulate counting_library true (wireless_run 1.0 0.5) 3 0%Z)
  = Raise StatisticsError.
Proof.
  eapply (@simulate_empty_run_raises counting_library true (wireless_run 1.0 0.5) 3 0%Z).
  - vm_compute. reflexivity.
  - vm_compute. discriminate.
Defined.

Lemma compute_gamma_lower pr gm :
  sweep_phi_pi.compute_gamma pr = Ok gm -> (1e-8 <=? gm)%float = true.
Proof.
  unfold sweep_phi_pi.compute_gamma.
  destruct (phi_pi_wireless_sim._gamma_from_Q _ _) as [g0|e]; cbn [rbind];
    [|discriminate].
  intros E. injection E as <-. apply fmax_lower. reflexivity.
Qed.

(** The run of [simulate] after a successful setup: the loop does not
    raise, fills the histories, and the metrics are computed from them. *)
Lemma simulate_after_start {lib : Library} lock pr sd g su lp0 :
  fst (phi_pi_wireless_sim.start lock pr sd g) = Ok (su, lp0) ->
  exists lp,
    fst (phi_pi_wireless_sim.simulate lock pr sd g) = phi_pi_wireless_sim.metrics su lp
    /\ length (phi_pi_wireless_sim.energy_hist lp)
       = Z.to_nat (phi_pi_wireless_sim.n_steps su)
    /\ length (phi_pi_wireless_sim.drive_power_hist lp)
       = Z.to_nat (phi_pi_wireless_sim.n_steps su)
    /\ length (phi_pi_wireless_sim.diss_power_hist lp)
       = Z.to_nat (phi_pi_wireless_sim.n_steps su)
    /\ length (phi_pi_wireless_sim.x_hist lp)
       = Z.to_nat (phi_pi_wireless_sim.n_steps su).
Proof.
  intros Hst.
  destruct (wireless_start_histories _ _ _ _ Hst) as (H1 & H2 & H3 & H4 & _).
  unfold phi_pi_wireless_sim.simulate, bind at 1.
  destruct (phi_pi_wireless_sim.start lock pr sd g) as [[[su' lp']|e] g1];
    cbn [fst] in Hst; [|discriminate Hst].
  injection Hst as -> ->. cbn [fst snd].
  unfold range. rewrite Z.sub_0_r.
  destruct (wireless_loop_histories lock pr su
              (Z.to_nat (phi_pi_wireless_sim.n_steps su)) lp0 g1 H1 H2 H3 H4)
    as (lp & g' & E & L).
  exists lp. unfold bind. rewrite E. unfold lift. cbn [fst].
  split; [reflexivity|exact L].
Qed.

(** The statements after the loop of [simulate], on non-empty histories. *)
Lemma wireless_metrics_clamped {lib : Library} su lp :
  (0 < length (phi_pi_wireless_sim.energy_hist lp))%nat ->
  length (phi_pi_wireless_sim.drive_power_hist lp)
  = length (phi_pi_wireless_sim.energy_hist lp) ->
  length (phi_pi_wireless_sim.diss_power_hist lp)
  = length (phi_pi_wireless_sim.energy_hist lp) ->
  length (phi_pi_wireless_sim.x_hist lp)
  = length (phi_pi_wireless_sim.energy_hist lp) ->
  phi_pi_wireless_sim.metrics su lp = Raise ValueError
  \/ exists mt,
       phi_pi_wireless_sim.metrics su lp = Ok mt
       /\ (0 <=? phi_pi_wireless_sim.eff_proxy mt)%float = true
       /\ (phi_pi_wireless_sim.eff_proxy mt <=? 2)%float = true
       /\ phi_pi_wireless_sim.gamma_out mt = phi_pi_wireless_sim.gamma su.
Proof.
  intros Hpos L2 L3 L4.
  unfold phi_pi_wireless_sim.metrics.
  set (half := (Z.of_nat (length (phi_pi_wireless_sim.energy_hist lp)) / 2)%Z).
  assert (N1 : (0 < length (slice_from (phi_pi_wireless_sim.energy_hist lp) half))%nat).
  { apply slice_from_half_nonempty. lia. }
  assert (N2 : (0 < length (slice_from (phi_pi_wireless_sim.x_hist lp) half))%nat).
  { unfold half. rewrite <- L4. apply slice_from_half_nonempty. lia. }
  assert (N3 : (0 < length (slice_from (phi_pi_wireless_sim.drive_power_hist lp) half))%nat).
  { unfold half. rewrite <- L2. apply slice_from_half_nonempty. lia. }
  assert (N4 : (0 < length (slice_from (phi_pi_wireless_sim.diss_power_hist lp) half))%nat).
  { unfold half. rewrite <- L3. apply slice_from_half_nonempty. lia. }
  rewrite (fmean_nonempty _ N1). cbn [rbind].
  destruct (slice_from (phi_pi_wireless_sim.energy_hist lp) half) as [|e0 et] eqn:Es;
    [cbn in N1; lia|].
  cbn [max_list rbind].
  rewrite fmean_nonempty by (rewrite length_map; exact N2). cbn [rbind].
  unfold math_sqrt.
  destruct (stat_fmean _ <? 0)%float; cbn [rbind]; [left; reflexivity|].
  rewrite (fmean_nonempty _ N3), (fmean_nonempty _ N4). cbn [rbind].
  unfold truediv. rewrite guarded_divisor_not_zero. cbn [rbind].
  right. eexists. split; [reflexivity|].
  cbn [phi_pi_wireless_sim.eff_proxy phi_pi_wireless_sim.gamma_out].
  split; [|split; [|reflexivity]]; apply clamp_bounds; reflexivity.
Qed.



Lemma metrics_gamma_out {lib : Library} su lp mt :
  phi_pi_wireless_sim.metrics su lp = Ok mt ->
  phi_pi_wireless_sim.gamma_out mt = phi_pi_wireless_sim.gamma su.
Proof.
  unfold phi_pi_wireless_sim.metrics.
  repeat match goal with
         | |- context [rbind ?r _] => destruct r; cbn [rbind]; try discriminate
         end.
  intros E. injection E as <-. reflexivity.
Qed.

Lemma simulate_start_raises {lib : Library} lock pr sd g e :
  fst (phi_pi_wireless_sim.start lock pr sd g) = Raise e ->
  fst (phi_pi_wireless_sim.simulate lock pr sd g) = Raise e.
Proof.
  intros H. unfold phi_pi_wireless_sim.simulate, bind at 1.
  destruct (phi_pi_wireless_sim.start lock pr sd g) as [[sl|e'] g1];
    cbn [fst] in H; [discriminate H|].
  injection H as ->. reflexivity.
Qed.

(** X9. The damping [compute_gamma] returns for a parameter record is the
    damping [simulate] integrates with and reports under the key [gamma],
    for either lock setting, every seed and every active gain put in the
    record afterwards, as the sweep does when it sets the gain to a multiple
    of that damping; it is at least [1e-8].  When [compute_gamma] raises,
    [simulate] raises the same exception. *)
Theorem compute_gamma_agrees_with_simulate {lib : Library} pr lock gain sd g :
  (forall gm mt,
     sweep_phi_pi.compute_gamma pr = Ok gm ->
     fst (phi_pi_wireless_sim.simulate lock (sweep_phi_pi.with_G_gain pr gain) sd g)
     = Ok mt ->
     phi_pi_wireless_sim.gamma_out mt = gm /\ (1e-8 <=? gm)%float = true)
  /\ (forall e,
     sweep_phi_pi.compute_gamma pr = Raise e ->
     fst (phi_pi_wireless_sim.simulate lock (sweep_phi_pi.with_G_gain pr gain) sd g)
     = Raise e).
Proof.
  assert (Hsame : sweep_phi_pi.compute_gamma (sweep_phi_pi.with_G_gain pr gain)
                  = sweep_phi_pi.compute_gamma pr) by reflexivity.
  split.
  - intros gm mt Hc Hs.
    split; [|exact (compute_gamma_lower _ Hc)].
    destruct (fst (phi_pi_wireless_sim.start lock (sweep_phi_pi.with_G_gain pr gain) sd g))
      as [[su lp0]|e] eqn:Hst.
    + destruct (wireless_start_histories _ _ _ _ Hst) as (_ & _ & _ & _ & Hg).
      destruct (simulate_after_start _ _ _ _ Hst) as (lp & Hm & _).
      rewrite Hm in Hs. apply metrics_gamma_out in Hs.
      rewrite Hsame, Hc in Hg. injection Hg as ->. exact Hs.
    + rewrite (simulate_start_raises _ _ _ _ Hst) in Hs. discriminate Hs.
  - intros e Hc. apply simulate_start_raises.
    revert Hc. unfold sweep_phi_pi.compute_gamma, phi_pi_wireless_sim.start,
      bind, random_seed, lift.
    cbn [sweep_phi_pi.with_G_gain phi_pi_wireless_sim.f0 phi_pi_wireless_sim.Q0].
    destruct (phi_pi_wireless_sim._gamma_from_Q _ _) as [g0|e']; cbn [rbind fst];
      [discriminate|].
    intros E. injection E as ->. reflexivity.
Qed.

(** X10. [_scale] of the heat map returns a number in [0, 1] whenever it
    returns, for every value, the NaN included, and returns 0.0 when the
    range is empty or reversed. *)
Theorem scale_in_unit_interval (value vmin vmax r : float) :
  parametric_sweep._scale value vmin vmax = Ok r ->
  (0 <=? r)%float = true /\ (r <=? 1)%float = true
  /\ ((vmax <=? vmin)%float = true -> r = 0%float).
Proof.
  unfold parametric_sweep._scale.
  destruct (vmax <=? vmin)%float.
  - intros E. injection E as <-. repeat split; reflexivity.
  - destruct (truediv _ _) as [q|e]; cbn [rbind]; [|discriminate].
    intros E. injection E as <-.
    destruct (@clamp_bounds 0 1 q eq_refl) as (B1 & B2).
    split; [exact B1|]. split; [exact B2|]. discriminate.
Qed.

Lemma scale_in_unit_interval_witness :
  (0 <=? 0.5)%float = true /\ (0.5 <=? 1)%float = true
  /\ ((5000.0 <=? 0.0)%float = true -> 0.5%float = 0%float).
Proof.
  apply (@scale_in_unit_interval 2500.0 0.0 5000.0 0.5). vm_compute. reflexivity.
Defined.

(** ** A confined run does not see the absorbing layer *)

(** Two loops whose bodies correspond under a map of the state end in
    corresponding states, with the same generator and the same exception. *)
Lemma for_eachM_map {lib : Library} {I S T : Type} (f : S -> T)
  (b1 : I -> T -> M T) (b2 : I -> S -> M S) (l : list I) :
  (forall i s g, b1 i (f s) g = (map_result f (fst (b2 i s g)), snd (b2 i s g))) ->
  forall s g,
    for_eachM l b1 (f s) g
    = (map_result f (fst (for_eachM l b2 s g)), snd (for_eachM l b2 s g)).
Proof.
  intros Hb. induction l as [|i l IH]; intros s g.
  - reflexivity.
  - cbn [for_eachM]. unfold bind. rewrite Hb.
    destruct (b2 i s g) as [[s1|e] g1]; cbn [fst snd map_result]; [apply IH|reflexivity].
Qed.

Lemma step_relayer {lib : Library} len mx cav n g :
  wave_cavity_phi_pi.step (relayer len mx cav) n g
  = (map_result (relayer len mx) (fst (wave_cavity_phi_pi.step cav n g)),
     snd (wave_cavity_phi_pi.step cav n g)).
Proof.
  destruct cav as [pr m r0 up uc un gam om ph].
  unfold wave_cavity_phi_pi.step, wave_cavity_phi_pi.phase_update,
    wave_cavity_phi_pi.drive_sample.
  unfold bind, lift, ret, random_gauss.
  cbn [fst snd].
  change (wave_cavity_phi_pi.interior_body
            (relayer len mx
               {| wave_cavity_phi_pi.p := pr; wave_cavity_phi_pi.mode := m;
                  wave_cavity_phi_pi.r := r0; wave_cavity_phi_pi.u_prev := up;
                  wave_cavity_phi_pi.u := uc; wave_cavity_phi_pi.u_next := un;
                  wave_cavity_phi_pi.gamma := gam; wave_cavity_phi_pi.omega := om;
                  wave_cavity_phi_pi.phase := ph |}))
    with (wave_cavity_phi_pi.interior_body
            {| wave_cavity_phi_pi.p := pr; wave_cavity_phi_pi.mode := m;
               wave_cavity_phi_pi.r := r0; wave_cavity_phi_pi.u_prev := up;
               wave_cavity_phi_pi.u := uc; wave_cavity_phi_pi.u_next := un;
               wave_cavity_phi_pi.gamma := gam; wave_cavity_phi_pi.omega := om;
               wave_cavity_phi_pi.phase := ph |}).
  cbn [relayer with_layer wave_cavity_phi_pi.p wave_cavity_phi_pi.N
       wave_cavity_phi_pi.u_next wave_cavity_phi_pi.u wave_cavity_phi_pi.u_prev
       wave_cavity_phi_pi.mode wave_cavity_phi_pi.r wave_cavity_phi_pi.gamma
       wave_cavity_phi_pi.omega wave_cavity_phi_pi.phase].
  destruct (for_each _ _ un) as [nxt1|e]; cbn [fst snd map_result]; [|reflexivity].
  change (wave_cavity_phi_pi.source_index (with_layer pr len mx))
    with (wave_cavity_phi_pi.source_index pr).
  cbn [with_layer wave_cavity_phi_pi.dt].
  destruct (additem nxt1 _ _) as [nxt2|e]; cbn [fst snd map_result]; [|reflexivity].
  unfold wave_cavity_phi_pi.boundary_update.
  cbn [relayer with_layer wave_cavity_phi_pi.p wave_cavity_phi_pi.N
       wave_cavity_phi_pi.u wave_cavity_phi_pi.mode].
  destruct m.
  - destruct (setitem nxt2 0 _) as [a|e]; cbn [rbind fst snd map_result]; [|reflexivity].
    destruct (setitem a _ _) as [b|e]; reflexivity.
  - destruct (getitem uc 1) as [a|e]; cbn [rbind fst snd map_result]; [|reflexivity].
    destruct (setitem nxt2 0 a) as [b|e]; cbn [rbind fst snd map_result]; [|reflexivity].
    destruct (getitem uc _) as [d|e]; cbn [rbind fst snd map_result]; [|reflexivity].
    destruct (setitem b _ d) as [b'|e]; reflexivity.
Qed.

Lemma energy_relayer len mx cav :
  wave_cavity_phi_pi.energy (relayer len mx cav) = wave_cavity_phi_pi.energy cav.
Proof. destruct cav. reflexivity. Qed.

Lemma run_body_relayer {lib : Library} len mx pr n st g :
  wave_cavity_phi_pi.run_body (with_layer pr len mx) n (relayer len mx (fst st), snd st) g
  = (map_result (fun s => (relayer len mx (fst s), snd s))
       (fst (wave_cavity_phi_pi.run_body pr n st g)),
     snd (wave_cavity_phi_pi.run_body pr n st g)).
Proof.
  unfold wave_cavity_phi_pi.run_body, bind. cbn [fst snd].
  rewrite step_relayer.
  destruct (wave_cavity_phi_pi.step (fst st) n g) as [[cav1|e] g1];
    cbn [fst snd map_result]; [|reflexivity].
  change (wave_cavity_phi_pi.steps (with_layer pr len mx))
    with (wave_cavity_phi_pi.steps pr).
  destruct (wave_cavity_phi_pi.steps pr / 2 <? n)%Z; [|reflexivity].
  unfold lift, ret. rewrite energy_relayer.
  destruct (wave_cavity_phi_pi.energy cav1) as [en|e]; reflexivity.
Qed.

Lemma init_confined_relayer {lib : Library} len mx pr g :
  wave_cavity_phi_pi.WaveCavity_init (with_layer pr len mx) confined g
  = (map_result (relayer len mx) (fst (wave_cavity_phi_pi.WaveCavity_init pr confined g)),
     snd (wave_cavity_phi_pi.WaveCavity_init pr confined g)).
Proof.
  unfold wave_cavity_phi_pi.WaveCavity_init, bind, random_seed, lift, ret, raise,
    wave_cavity_phi_pi.damping_profile.
  cbn [with_layer wave_cavity_phi_pi.c wave_cavity_phi_pi.dt wave_cavity_phi_pi.dx
       wave_cavity_phi_pi.seed wave_cavity_phi_pi.N wave_cavity_phi_pi.gamma_interior
       wave_cavity_phi_pi.f_cycles].
  destruct (truediv _ _) as [r0|e]; cbn [fst snd map_result]; [|reflexivity].
  destruct (1.0 <? r0)%float; reflexivity.
Qed.

Lemma bind_map {lib : Library} {A B C : Type} (f : A -> B)
  (m1 : M B) (m2 : M A) (k1 : B -> M C) (k2 : A -> M C) g :
  m1 g = (map_result f (fst (m2 g)), snd (m2 g)) ->
  (forall a g', k1 (f a) g' = k2 a g') ->
  bind m1 k1 g = bind m2 k2 g.
Proof.
  intros Hm Hk. unfold bind. rewrite Hm.
  destruct (m2 g) as [[a|e] g1]; cbn [fst snd map_result]; [apply Hk|reflexivity].
Qed.

(** X11. In confined mode the whole run of [run_once] is independent of the
    absorbing layer: replacing [pml_len] and [pml_max] in the parameter
    record changes neither the returned pair (or the exception raised) nor
    the state the generator is left in.  The absorption sweep relies on it
    when it computes the confined baseline once for all layer strengths. *)
Theorem confined_run_ignores_layer {lib : Library} pr len mx g :
  wave_cavity_phi_pi.run_once confined (with_layer pr len mx) g
  = wave_cavity_phi_pi.run_once confined pr g.
Proof.
  unfold wave_cavity_phi_pi.run_once.
  apply bind_map with (f := relayer len mx); [apply init_confined_relayer|].
  intros cav g1.
  apply bind_map with (f := fun s => (relayer len mx (fst s), snd s));
    [|reflexivity].
  change (wave_cavity_phi_pi.steps (with_layer pr len mx))
    with (wave_cavity_phi_pi.steps pr).
  apply (@for_eachM_map lib _ _ _ (fun s => (relayer len mx (fst s), snd s))
           (wave_cavity_phi_pi.run_body (with_layer pr len mx))
           (wave_cavity_phi_pi.run_body pr) _
           (fun i s g0 => run_body_relayer len mx pr i s g0) (cav, []) g1).
Qed.

(** ** The 3-D step *)

Lemma euclid_unique (n a b a' b' : Z) :
  (0 <= b < n)%Z -> (0 <= b' < n)%Z -> (a * n + b = a' * n + b')%Z ->
  a = a' /\ b = b'.
Proof.
  intros Hb Hb' E.
  assert (a = a') by nia. subst a'. split; [reflexivity|lia].
Qed.

(** [idx] stays inside the buffers and separates the nodes. *)
Lemma idx_range (n i j k : Z) :
  (0 <= i < n)%Z -> (0 <= j < n)%Z -> (0 <= k < n)%Z ->
  (0 <= wave3d_phi_pi.idx n i j k < n * n * n)%Z.
Proof.
  intros Hi Hj Hk. unfold wave3d_phi_pi.idx.
  assert (0 <= k * n + j <= n * n - 1)%Z by nia.
  nia.
Qed.

Lemma idx_inj (n i j k i' j' k' : Z) :
  (0 <= i < n)%Z -> (0 <= i' < n)%Z -> (0 <= j < n)%Z -> (0 <= j' < n)%Z ->
  wave3d_phi_pi.idx n i j k = wave3d_phi_pi.idx n i' j' k' ->
  i = i' /\ j = j' /\ k = k'.
Proof.
  intros Hi Hi' Hj Hj' E. unfold wave3d_phi_pi.idx in E.
  apply euclid_unique in E; [|assumption|assumption].
  destruct E as (E & ->).
  apply euclid_unique in E; [|assumption|assumption].
  destruct E as (-> & ->). repeat split.
Qed.

Lemma flat_range (n i j k t : Z) :
  t = wave3d_phi_pi.idx n i j k ->
  (0 <= i < n)%Z -> (0 <= j < n)%Z -> (0 <= k < n)%Z ->
  (0 <= t < n * n * n)%Z.
Proof. intros ->. apply idx_range. Qed.

Lemma getitem_flat (n i j k t : Z) (l : list float) :
  t = wave3d_phi_pi.idx n i j k ->
  (0 <= i < n)%Z -> (0 <= j < n)%Z -> (0 <= k < n)%Z ->
  Z.of_nat (length l) = (n * n * n)%Z ->
  exists x, getitem l t = Ok x.
Proof.
  intros Ht Hi Hj Hk Hlen. apply getitem_in_range. rewrite Hlen.
  apply (flat_range Ht); assumption.
Qed.

Lemma for_each_range_invariant {S : Type} (P : S -> Prop)
  (body : Z -> S -> result S) (lo hi : Z) (s : S) :
  (forall i s0, (lo <= i < hi)%Z -> P s0 -> exists s1, body i s0 = Ok s1 /\ P s1) ->
  P s -> exists s', for_each (range lo hi) body s = Ok s' /\ P s'.
Proof.
  intros Hbody Hs.
  apply (@for_each_invariant Z S P (fun i => (lo <= i < hi)%Z)); try assumption.
  intros i Hi. apply In_range in Hi. exact Hi.
Qed.

(** Reads of a buffer at the flat index of a node of the grid succeed. *)
Ltac read_flat n a b c :=
  match goal with
  | |- context [rbind (getitem ?l ?t) _] =>
      let x := fresh "x" in
      destruct (@getitem_flat n a b c t l) as [x ->];
      [unfold wave3d_phi_pi.idx; ring | lia | lia | lia | assumption | cbn [rbind]]
  end.

Section Region.

(** A region of the grid of [n] nodes per axis that is to hold zeros. *)
Variable n : Z.
Variable region : Z -> Z -> Z -> Prop.

(** A write keeps the zeros of the region when it lands outside it or
    stores [0.0]. *)
Lemma setitem_kept (i j k t : Z) (l : list float) (v : float) :
  t = wave3d_phi_pi.idx n i j k ->
  (0 <= i < n)%Z -> (0 <= j < n)%Z -> (0 <= k < n)%Z ->
  (~ region i j k \/ v = 0%float) ->
  kept_zero region n l ->
  exists l', setitem l t v = Ok l'
    /\ kept_zero region n l'.
Proof.
  intros -> Hi Hj Hk Hout (Hlen & Hf).
  pose proof (idx_range Hi Hj Hk) as Hr.
  rewrite setitem_in_range by lia.
  eexists. split; [reflexivity|]. split; [rewrite length_list_set; exact Hlen|].
  intros i0 j0 k0 Hi0 Hj0 Hk0 HR.
  destruct (Z.eq_dec (wave3d_phi_pi.idx n i j k) (wave3d_phi_pi.idx n i0 j0 k0))
    as [E|E].
  - pose proof E as E'. apply idx_inj in E'; try assumption.
    destruct E' as (<- & <- & <-).
    destruct Hout as [Hout| ->]; [contradiction|].
    apply getitem_list_set_same. lia.
  - rewrite getitem_list_set_other; [apply Hf; assumption|lia| |exact E].
    rewrite Hlen. apply idx_range; assumption.
Qed.

Lemma additem_kept (i j k t : Z) (l : list float) (d : float) :
  t = wave3d_phi_pi.idx n i j k ->
  (0 <= i < n)%Z -> (0 <= j < n)%Z -> (0 <= k < n)%Z ->
  ~ region i j k ->
  kept_zero region n l ->
  exists l', additem l t d = Ok l'
    /\ kept_zero region n l'.
Proof.
  intros Ht Hi Hj Hk Hout H. unfold additem.
  destruct (@getitem_flat n i j k t l) as [x ->]; try assumption; [exact (proj1 H)|].
  cbn [rbind]. apply setitem_kept with (i := i) (j := j) (k := k); try assumption.
  now left.
Qed.

Ltac write_flat a b c :=
  match goal with
  | |- context [rbind (setitem ?l ?t ?v) _] =>
      let l' := fresh "nx" in
      let E := fresh "E" in
      let H := fresh "Hnx" in
      destruct (@setitem_kept a b c t l v) as (l' & E & H);
      [unfold wave3d_phi_pi.idx; ring | lia | lia | lia | | assumption
      | rewrite E; cbn [rbind] ]
  end.

Variable w : wave3d_phi_pi.Wave3D.
Hypothesis size : wave3d_phi_pi.N_ w = n.
Hypothesis at_least_two : (2 <= n)%Z.
Hypothesis length_u_prev : Z.of_nat (length (wave3d_phi_pi.u_prev w)) = (n * n * n)%Z.
Hypothesis length_u : Z.of_nat (length (wave3d_phi_pi.u w)) = (n * n * n)%Z.
Hypothesis length_gamma : Z.of_nat (length (wave3d_phi_pi.gamma w)) = (n * n * n)%Z.

(** The region contains no interior node. *)
Hypothesis region_avoids_interior :
  forall i j k, (1 <= i <= n - 2)%Z -> (1 <= j <= n - 2)%Z -> (1 <= k <= n - 2)%Z ->
                ~ region i j k.

Lemma interior_body_kept k j i (nxt : list float) :
  (1 <= k < n - 1)%Z -> (1 <= j < n - 1)%Z -> (1 <= i < n - 1)%Z ->
  kept_zero region n nxt ->
  exists nxt', wave3d_phi_pi.interior_body w k j i nxt = Ok nxt'
    /\ kept_zero region n nxt'.
Proof.
  intros Hk Hj Hi Hn.
  unfold wave3d_phi_pi.interior_body. rewrite size. cbv zeta.
  read_flat n (i - 1)%Z j k. read_flat n (i + 1)%Z j k.
  read_flat n i (j - 1)%Z k. read_flat n i (j + 1)%Z k.
  read_flat n i j (k - 1)%Z. read_flat n i j (k + 1)%Z.
  read_flat n i j k. read_flat n i j k. read_flat n i j k.
  apply (@setitem_kept i j k); try assumption; try lia.
  - unfold wave3d_phi_pi.idx. ring.
  - left. apply region_avoids_interior; lia.
Qed.

Lemma interior_update_kept (nxt : list float) :
  kept_zero region n nxt ->
  exists nxt', wave3d_phi_pi.interior_update w nxt = Ok nxt'
    /\ kept_zero region n nxt'.
Proof.
  intros Hn. unfold wave3d_phi_pi.interior_update. rewrite size. cbv zeta.
  apply for_each_range_invariant; [|exact Hn]. intros k s0 Hk Hs0.
  apply for_each_range_invariant; [|exact Hs0]. intros j s1 Hj Hs1.
  apply for_each_range_invariant; [|exact Hs1]. intros i s2 Hi Hs2.
  apply interior_body_kept; assumption.
Qed.

(** The confined boundary loops store zeros only. *)
Lemma confined_boundary_kept (nxt : list float) :
  kept_zero region n nxt ->
  exists nxt', wave3d_phi_pi.confined_boundary w nxt = Ok nxt'
    /\ kept_zero region n nxt'.
Proof.
  intros Hn. unfold wave3d_phi_pi.confined_boundary. rewrite size. cbv zeta.
  destruct (@for_each_invariant Z (list float) (kept_zero region n)
              (fun k => (0 <= k < n)%Z)
              (fun k => for_each (range 0 n) (fun j nx =>
                 rbind (setitem nx (k * n * n + j * n + 0) 0.0%float) (fun nx1 =>
                 setitem nx1 (k * n * n + j * n + (n - 1)) 0.0%float)))
              [0%Z; (n - 1)%Z] nxt) as (nxt1 & E1 & H1).
  { intros k [<-|[<-|[]]]; lia. }
  { intros k s0 Hk Hs0.
    apply for_each_range_invariant; [|exact Hs0]. intros j s1 Hj Hs1.
    write_flat 0%Z j k; [now right|].
    apply (@setitem_kept (n - 1)%Z j k); try assumption; try lia; [|now right].
    unfold wave3d_phi_pi.idx. ring. }
  { exact Hn. }
  rewrite E1. cbn [rbind].
  apply for_each_range_invariant; [|exact H1]. intros k s0 Hk Hs0.
  apply for_each_range_invariant; [|exact Hs0]. intros i s1 Hi Hs1.
  write_flat i 0%Z k; [now right|].
  apply (@setitem_kept i (n - 1)%Z k); try assumption; try lia; [|now right].
  unfold wave3d_phi_pi.idx. ring.
Qed.

(** The open boundary loops write the [i]- and [j]-faces only. *)
Lemma open_boundary_kept (nxt : list float) :
  (forall i j k, (i = 0 \/ i = n - 1 \/ j = 0 \/ j = n - 1)%Z -> ~ region i j k) ->
  kept_zero region n nxt ->
  exists nxt', wave3d_phi_pi.open_boundary w nxt = Ok nxt'
    /\ kept_zero region n nxt'.
Proof.
  intros Hside Hn. unfold wave3d_phi_pi.open_boundary. rewrite size. cbv zeta.
  destruct (@for_each_range_invariant (list float) (kept_zero region n)
              (fun k => for_each (range 0 n) (fun j nx =>
                 rbind (getitem (wave3d_phi_pi.u w) (k * n * n + j * n + 1)) (fun a =>
                 rbind (setitem nx (k * n * n + j * n + 0) a) (fun nx1 =>
                 rbind (getitem (wave3d_phi_pi.u w) (k * n * n + j * n + (n - 2)))
                   (fun b => setitem nx1 (k * n * n + j * n + (n - 1)) b)))))
              0%Z n nxt) as (nxt1 & E1 & H1).
  { intros k s0 Hk Hs0.
    apply for_each_range_invariant; [|exact Hs0]. intros j s1 Hj Hs1.
    read_flat n 1%Z j k. write_flat 0%Z j k; [left; apply Hside; lia|].
    read_flat n (n - 2)%Z j k.
    apply (@setitem_kept (n - 1)%Z j k); try assumption; try lia;
      [|left; apply Hside; lia].
    unfold wave3d_phi_pi.idx. ring. }
  { exact Hn. }
  rewrite E1. cbn [rbind].
  apply for_each_range_invariant; [|exact H1]. intros k s0 Hk Hs0.
  apply for_each_range_invariant; [|exact Hs0]. intros i s1 Hi Hs1.
  read_flat n i 1%Z k. write_flat i 0%Z k; [left; apply Hside; lia|].
  read_flat n i (n - 2)%Z k.
  apply (@setitem_kept i (n - 1)%Z k); try assumption; try lia;
    [|left; apply Hside; lia].
  unfold wave3d_phi_pi.idx. ring.
Qed.

End Region.

(** One call of [Wave3D.step] on a well-formed field does not raise,
    consumes two deviates and keeps the field well-formed, with its zeros
    throughout a region that contains neither an interior node nor the
    source, and, in open mode, no node of an [i]- or [j]-face. *)
Lemma step_3d_ok {lib : Library} region w n g :
  well_formed_on region w ->
  (forall i j k,
      (1 <= i <= wave3d_phi_pi.N_ w - 2)%Z -> (1 <= j <= wave3d_phi_pi.N_ w - 2)%Z ->
      (1 <= k <= wave3d_phi_pi.N_ w - 2)%Z -> ~ region i j k) ->
  ~ region (wave3d_phi_pi.N_ w / 2)%Z (wave3d_phi_pi.N_ w / 2)%Z
      (wave3d_phi_pi.N_ w / 2)%Z ->
  (wave3d_phi_pi.mode w = confined
   \/ forall i j k,
        (i = 0 \/ i = wave3d_phi_pi.N_ w - 1 \/ j = 0 \/ j = wave3d_phi_pi.N_ w - 1)%Z ->
        ~ region i j k) ->
  exists w',
    wave3d_phi_pi.step w n g = (Ok w', draws 2 g)
    /\ well_formed_on region w'
    /\ wave3d_phi_pi.p w' = wave3d_phi_pi.p w
    /\ wave3d_phi_pi.mode w' = wave3d_phi_pi.mode w
    /\ wave3d_phi_pi.N_ w' = wave3d_phi_pi.N_ w.
Proof.
  intros (HN & Hsrc & Hp & Hu & Hn & Hg & Fp & Fu & Fn) Hint Hc Hmode.
  set (nn := wave3d_phi_pi.N_ w) in *.
  unfold wave3d_phi_pi.step, wave3d_phi_pi.drive_sample.
  unfold bind, lift, ret, random_gauss. cbn [fst snd].
  destruct (@interior_update_kept nn region w eq_refl Hp Hu Hg Hint
              (wave3d_phi_pi.u_next w) (conj Hn Fn)) as (nxt1 & E1 & H1).
  rewrite E1, Hsrc. fold nn.
  assert (Hhalf : (0 <= nn / 2 < nn)%Z).
  { pose proof (Z.div_mod nn 2). pose proof (Z.mod_pos_bound nn 2). lia. }
  match goal with
  | |- context [additem nxt1 ?t ?d] =>
      destruct (@additem_kept nn region (nn / 2) (nn / 2) (nn / 2) t nxt1 d)
        as (nxt2 & E2 & H2)
  end; try reflexivity; try assumption.
  rewrite E2.
  assert (Hb : exists nxt3, wave3d_phi_pi.boundary_update w nxt2 = Ok nxt3
                            /\ kept_zero region nn nxt3).
  { unfold wave3d_phi_pi.boundary_update.
    destruct (wave3d_phi_pi.mode w).
    - apply confined_boundary_kept; [reflexivity|lia|exact H2].
    - destruct Hmode as [Hmode|Hmode]; [discriminate Hmode|].
      apply open_boundary_kept; try assumption. reflexivity. }
  destruct Hb as (nxt3 & E3 & L3 & F3). rewrite E3.
  eexists. split; [reflexivity|].
  split; [|repeat split].
  unfold well_formed_on.
  cbn [wave3d_phi_pi.N_ wave3d_phi_pi.src wave3d_phi_pi.u_prev wave3d_phi_pi.u
       wave3d_phi_pi.u_next wave3d_phi_pi.gamma].
  fold nn. repeat (split; [first [assumption|reflexivity]|]). assumption.
Qed.

(** Every field the 3-D constructor returns on at least two nodes per axis
    is well-formed, with zeros everywhere. *)
Lemma Wave3D_init_well_formed {lib : Library} region pr m g w :
  (2 <= wave3d_phi_pi.N pr)%Z ->
  fst (wave3d_phi_pi.Wave3D_init pr m g) = Ok w ->
  well_formed_on region w /\ wave3d_phi_pi.p w = pr
  /\ wave3d_phi_pi.N_ w = wave3d_phi_pi.N pr
  /\ wave3d_phi_pi.mode w = m
  /\ (wave3d_phi_pi.dx pr =? 0)%float = false.
Proof.
  intros HN. unfold wave3d_phi_pi.Wave3D_init, bind, random_seed, lift, raise, truediv.
  destruct (wave3d_phi_pi.dx pr =? 0)%float; cbn [fst]; [discriminate|].
  destruct (wave3d_phi_pi.courant_max <? _)%float; cbn [fst]; [discriminate|].
  destruct (wave3d_phi_pi.damping_profile pr m) as [gam|e] eqn:Eg;
    cbn [fst]; [|discriminate].
  unfold ret. cbn [fst]. intros E. injection E as <-.
  set (n := wave3d_phi_pi.N pr) in *.
  assert (Hrep : forall x : float,
             Z.of_nat (length (replicate x (n * n * n))) = (n * n * n)%Z).
  { intros x. unfold replicate. rewrite repeat_length. nia. }
  assert (Hz : zero_on region n (replicate 0%float (n * n * n))).
  { intros i j k Hi Hj Hk _. apply getitem_replicate. apply idx_range; lia. }
  split; [|repeat split].
  unfold well_formed_on.
  cbn [wave3d_phi_pi.N_ wave3d_phi_pi.src wave3d_phi_pi.u_prev wave3d_phi_pi.u
       wave3d_phi_pi.u_next wave3d_phi_pi.gamma].
  fold n. repeat (split; [first [assumption|reflexivity|apply Hrep]|]).
  split; [|repeat (split; [assumption|]); assumption].
  unfold wave3d_phi_pi.damping_profile in Eg. fold n in Eg. destruct m.
  - injection Eg as <-. apply Hrep.
  - apply (for_each_preserves
             (fun l : list float => Z.of_nat (length l) = (n * n * n)%Z)
             _ _ _ (s' := gam)) in Eg; [exact Eg| |apply Hrep].
    intros k s0 s1 Ek Hs0.
    apply (for_each_preserves
             (fun l : list float => Z.of_nat (length l) = (n * n * n)%Z)
             _ _ _ (s' := s1)) in Ek; [exact Ek| |exact Hs0].
    intros j s2 s3 Ej Hs2.
    apply (for_each_preserves
             (fun l : list float => Z.of_nat (length l) = (n * n * n)%Z)
             _ _ _ (s' := s3)) in Ej; [exact Ej| |exact Hs2].
    intros i s4 s5 Eb Hs4. unfold wave3d_phi_pi.pml_body in Eb.
    destruct (wave3d_phi_pi.layer_damping _ _) as [gg|e]; [|discriminate Eb].
    cbn [rbind] in Eb. apply additem_length in Eb. lia.
Qed.

(** With non-zero steps the energy of a well-formed 3-D field is computed
    without raising. *)
Lemma energy_3d_ok {lib : Library} region w :
  well_formed_on region w ->
  (wave3d_phi_pi.dt (wave3d_phi_pi.p w) =? 0)%float = false ->
  (wave3d_phi_pi.dx (wave3d_phi_pi.p w) =? 0)%float = false ->
  exists e, wave3d_phi_pi.energy w = Ok e.
Proof.
  intros (HN & Hsrc & Hp & Hu & Hn & Hg & _) Hdt Hdx.
  set (n := wave3d_phi_pi.N_ w) in *.
  unfold wave3d_phi_pi.energy. fold n.
  destruct (@for_each_range_invariant (float * float) (fun _ => True)
              (fun k => for_each (range 1 (n - 1)) (fun j =>
                 for_each (range 1 (n - 1)) (fun i => wave3d_phi_pi.energy_body w k j i)))
              1%Z (n - 1)%Z (0.0%float, 0.0%float)) as (sums & E & _).
  { intros k s0 Hk _.
    apply for_each_range_invariant; [|exact I]. intros j s1 Hj _.
    apply for_each_range_invariant; [|exact I]. intros i s2 Hi _.
    unfold wave3d_phi_pi.energy_body, truediv. fold n. cbv zeta.
    rewrite Hdt, Hdx.
    read_flat n i j k. read_flat n i j k.
    read_flat n (i + 1)%Z j k. read_flat n (i - 1)%Z j k.
    read_flat n i (j + 1)%Z k. read_flat n i (j - 1)%Z k.
    read_flat n i j (k + 1)%Z. read_flat n i j (k - 1)%Z.
    eexists. split; [reflexivity|exact I]. }
  { exact I. }
  cbv zeta. rewrite E. cbn [rbind]. eexists. reflexivity.
Qed.

(** The loop of the 3-D [run_once] from a field the constructor returned:
    nothing raises, and the zeros of a region no statement of [step] writes
    a non-zero value to are still there after every iteration. *)
Lemma run_3d_kept {lib : Library} region pr m g w0 :
  fst (wave3d_phi_pi.Wave3D_init pr m g) = Ok w0 ->
  (2 <= wave3d_phi_pi.N pr)%Z ->
  (wave3d_phi_pi.dt pr =? 0)%float = false ->
  (forall i j k,
      (1 <= i <= wave3d_phi_pi.N pr - 2)%Z -> (1 <= j <= wave3d_phi_pi.N pr - 2)%Z ->
      (1 <= k <= wave3d_phi_pi.N pr - 2)%Z -> ~ region i j k) ->
  ~ region (wave3d_phi_pi.N pr / 2)%Z (wave3d_phi_pi.N pr / 2)%Z
      (wave3d_phi_pi.N pr / 2)%Z ->
  (m = confined
   \/ forall i j k,
        (i = 0 \/ i = wave3d_phi_pi.N pr - 1 \/ j = 0 \/ j = wave3d_phi_pi.N pr - 1)%Z ->
        ~ region i j k) ->
  forall k : nat,
    exists w es,
      fst (wave3d_phi_pi.run_prefix k m pr g) = Ok (w, es)
      /\ well_formed_on region w
      /\ wave3d_phi_pi.N_ w = wave3d_phi_pi.N pr
      /\ Z.of_nat (length es)
         = samples_after (wave3d_phi_pi.steps pr)
             (Z.of_nat (Nat.min k (Z.to_nat (wave3d_phi_pi.steps pr)))).
Proof.
  intros Hinit HN Hdt Hint Hc Hmode k.
  destruct (@Wave3D_init_well_formed lib region pr m g w0 HN Hinit)
    as (Hwf & Hp & HN0 & Hm & Hdx).
  destruct (wave3d_phi_pi.Wave3D_init pr m g) as [r0 g0] eqn:Ei.
  cbn [fst] in Hinit. subst r0.
  unfold wave3d_phi_pi.run_prefix, bind. rewrite Ei.
  unfold range. rewrite firstn_range_from, Z.sub_0_r.
  destruct (@for_eachM_range lib _
              (fun i st => well_formed_on region (fst st)
                           /\ wave3d_phi_pi.p (fst st) = pr
                           /\ wave3d_phi_pi.N_ (fst st) = wave3d_phi_pi.N pr
                           /\ wave3d_phi_pi.mode (fst st) = m
                           /\ Z.of_nat (length (snd st))
                              = samples_after (wave3d_phi_pi.steps pr) i)
              (wave3d_phi_pi.run_body pr)
              (Nat.min k (Z.to_nat (wave3d_phi_pi.steps pr))) 0%Z (w0, []) g0)
    as ([w es] & g' & E & Hwf' & _ & HN' & _ & Hlen).
  - intros i [w1 es1] g1 Hi (Hwf1 & Hp1 & HN1 & Hm1 & Hlen1). cbn [fst snd] in *.
    unfold wave3d_phi_pi.run_body, bind. cbn [fst snd].
    destruct (@step_3d_ok lib region w1 i g1 Hwf1)
      as (w' & E & Hwf' & Hp' & Hm' & HN').
    { rewrite HN1. exact Hint. }
    { rewrite HN1. exact Hc. }
    { rewrite HN1, Hm1. exact Hmode. }
    rewrite E. rewrite samples_after_succ by lia.
    destruct (wave3d_phi_pi.steps pr / 2 <? i)%Z eqn:Ei'.
    + destruct (@energy_3d_ok lib region w' Hwf') as [e He].
      { rewrite Hp', Hp1. exact Hdt. }
      { rewrite Hp', Hp1. exact Hdx. }
      unfold lift, ret. rewrite He. eexists. eexists. split; [reflexivity|].
      cbn [fst snd]. rewrite length_app. cbn [length].
      repeat (split; [first [assumption|congruence]|]). lia.
    + unfold ret. eexists. eexists. split; [reflexivity|].
      cbn [fst snd]. repeat (split; [first [assumption|congruence]|]). lia.
  - cbn [fst snd length]. repeat (split; [assumption|]).
    unfold samples_after. lia.
  - cbn [fst snd] in Hwf', HN', Hlen. rewrite Z.add_0_l in Hlen.
    exists w, es. rewrite E. split; [reflexivity|].
    split; [exact Hwf'|]. split; [exact HN'|exact Hlen].
Qed.





(** ** The 2-D step *)

Lemma getitem_In {A : Type} (l : list A) i x : getitem l i = Ok x -> In x l.
Proof.
  unfold getitem. destruct (norm_index _ i) as [k|]; [|discriminate].
  destruct (nth_error l k) as [y|] eqn:E; [|discriminate].
  intros H. injection H as <-. apply (nth_error_In _ _ E).
Qed.

Lemma In_list_set {A : Type} (l : list A) k v x :
  In x (list_set l k v) -> x = v \/ In x l.
Proof.
  revert k. induction l as [|a l IH]; intros [|k]; simpl; try tauto.
  - intros [<-|H]; tauto.
  - intros [<-|H]; [tauto|]. apply IH in H. tauto.
Qed.

Lemma getitem_row (h w y : Z) (g : list (list float)) :
  grid_shape h w g -> (0 <= y < h)%Z ->
  exists row, getitem g y = Ok row /\ Z.of_nat (length row) = w.
Proof.
  intros (Hlen & Hrows) Hy.
  destruct (@getitem_in_range _ g y) as [row E]; [lia|].
  exists row. split; [exact E|]. apply Hrows. apply (getitem_In _ _ E).
Qed.

Lemma setitem_row (h w y : Z) (g : list (list float)) (row : list float) :
  grid_shape h w g -> (0 <= y < h)%Z -> Z.of_nat (length row) = w ->
  setitem g y row = Ok (list_set g (Z.to_nat y) row)
  /\ grid_shape h w (list_set g (Z.to_nat y) row).
Proof.
  intros (Hlen & Hrows) Hy Hrow. split; [apply setitem_in_range; lia|].
  split; [rewrite length_list_set; exact Hlen|].
  intros r Hr. apply In_list_set in Hr. destruct Hr as [->|Hr]; [exact Hrow|].
  apply Hrows. exact Hr.
Qed.

Lemma cell_ok (h w y x : Z) (g : list (list float)) :
  grid_shape h w g -> (0 <= y < h)%Z -> (0 <= x < w)%Z ->
  exists v, ascii_phi_pi.cell g y x = Ok v.
Proof.
  intros Hg Hy Hx. unfold ascii_phi_pi.cell.
  destruct (getitem_row Hg Hy) as (row & -> & Hrow). cbn [rbind].
  apply getitem_in_range. lia.
Qed.

(** A write of a cell keeps the shape, is read back, and leaves the other
    cells as they were. *)
Lemma set_cell_ok (h w y x : Z) (g : list (list float)) (v : float) :
  grid_shape h w g -> (0 <= y < h)%Z -> (0 <= x < w)%Z ->
  exists g',
    ascii_phi_pi.set_cell g y x v = Ok g' /\ grid_shape h w g'
    /\ ascii_phi_pi.cell g' y x = Ok v
    /\ forall y' x', (0 <= y' < h)%Z -> (0 <= x' < w)%Z -> (y' <> y \/ x' <> x) ->
                     ascii_phi_pi.cell g' y' x' = ascii_phi_pi.cell g y' x'.
Proof.
  intros Hg Hy Hx. unfold ascii_phi_pi.set_cell.
  destruct (getitem_row Hg Hy) as (row & Er & Hrow). rewrite Er. cbn [rbind].
  rewrite setitem_in_range by lia. cbn [rbind].
  destruct (@setitem_row h w y g (list_set row (Z.to_nat x) v) Hg Hy) as (-> & Hg').
  { rewrite length_list_set. exact Hrow. }
  pose proof Hg as (Hlen & _).
  eexists. split; [reflexivity|]. split; [exact Hg'|]. split.
  - unfold ascii_phi_pi.cell. rewrite getitem_list_set_same by lia. cbn [rbind].
    apply getitem_list_set_same. lia.
  - intros y' x' Hy' Hx' Hne. unfold ascii_phi_pi.cell.
    destruct (Z.eq_dec y' y) as [->|Hyy].
    + rewrite getitem_list_set_same by lia. rewrite Er. cbn [rbind].
      apply getitem_list_set_other; lia.
    + rewrite getitem_list_set_other by lia. reflexivity.
Qed.

(** A write of [0.0] keeps the zeros of the grid. *)
Lemma set_cell_zero (h w y x : Z) (g : list (list float)) :
  grid_shape h w g -> (0 <= y < h)%Z -> (0 <= x < w)%Z ->
  exists g',
    ascii_phi_pi.set_cell g y x 0.0%float = Ok g' /\ grid_shape h w g'
    /\ ascii_phi_pi.cell g' y x = Ok 0.0%float
    /\ forall y' x', (0 <= y' < h)%Z -> (0 <= x' < w)%Z ->
                     ascii_phi_pi.cell g y' x' = Ok 0.0%float ->
                     ascii_phi_pi.cell g' y' x' = Ok 0.0%float.
Proof.
  intros Hg Hy Hx.
  destruct (@set_cell_ok h w y x g 0.0%float Hg Hy Hx) as (g' & E & Hg' & Hs & Ho).
  exists g'. split; [exact E|]. split; [exact Hg'|]. split; [exact Hs|].
  intros y' x' Hy' Hx' Hz.
  destruct (Z.eq_dec y' y) as [->|Hyy]; [destruct (Z.eq_dec x' x) as [->|Hxx]|].
  - exact Hs.
  - rewrite Ho by (try assumption; now right). exact Hz.
  - rewrite Ho by (try assumption; now left). exact Hz.
Qed.

Lemma add_cell_ok (h w y x : Z) (g : list (list float)) (d : float) :
  grid_shape h w g -> (0 <= y < h)%Z -> (0 <= x < w)%Z ->
  exists g', ascii_phi_pi.add_cell g y x d = Ok g' /\ grid_shape h w g'.
Proof.
  intros Hg Hy Hx. unfold ascii_phi_pi.add_cell, additem.
  destruct (getitem_row Hg Hy) as (row & -> & Hrow). cbn [rbind].
  destruct (@getitem_in_range _ row x) as [v ->]; [lia|]. cbn [rbind].
  rewrite setitem_in_range by lia. cbn [rbind].
  destruct (@setitem_row h w y g (list_set row (Z.to_nat x) (v + d)%float) Hg Hy)
    as (-> & Hg').
  { rewrite length_list_set. exact Hrow. }
  eexists. split; [reflexivity|exact Hg'].
Qed.

Lemma for_each_range_indexed {St : Type} (P : Z -> St -> Prop)
  (body : Z -> St -> result St) (n : nat) : forall (lo : Z) (s : St),
  (forall i s0, (lo <= i < lo + Z.of_nat n)%Z -> P i s0 ->
     exists s1, body i s0 = Ok s1 /\ P (i + 1)%Z s1) ->
  P lo s ->
  exists s', for_each (range_from lo n) body s = Ok s' /\ P (lo + Z.of_nat n)%Z s'.
Proof.
  induction n as [|n IH]; intros lo s Hbody Hs.
  - exists s. split; [reflexivity|]. now rewrite Z.add_0_r.
  - destruct (Hbody lo s) as (s1 & E1 & H1); [lia|exact Hs|].
    cbn [range_from for_each]. rewrite E1. cbn [rbind].
    destruct (IH (lo + 1)%Z s1) as (s' & E & H'); [|exact H1|].
    + intros i s0 Hi. apply Hbody. lia.
    + exists s'. split; [exact E|].
      replace (lo + Z.of_nat (S n))%Z with (lo + 1 + Z.of_nat n)%Z by lia. exact H'.
Qed.

Lemma cell_body_ok s r2 (up uc dn pv nx : list float) (w x : Z) :
  Z.of_nat (length up) = w -> Z.of_nat (length uc) = w ->
  Z.of_nat (length dn) = w -> Z.of_nat (length pv) = w ->
  (1 <= x < w - 1)%Z -> Z.of_nat (length nx) = w ->
  exists nx', ascii_phi_pi.cell_body s r2 up uc dn pv x nx = Ok nx'
              /\ Z.of_nat (length nx') = w.
Proof.
  intros Hup Huc Hdn Hpv Hx Hnx. unfold ascii_phi_pi.cell_body.
  destruct (@getitem_in_range _ uc (x - 1)) as [a1 ->]; [lia|]. cbn [rbind].
  destruct (@getitem_in_range _ uc (x + 1)) as [a2 ->]; [lia|]. cbn [rbind].
  destruct (@getitem_in_range _ up x) as [a3 ->]; [lia|]. cbn [rbind].
  destruct (@getitem_in_range _ dn x) as [a4 ->]; [lia|]. cbn [rbind].
  destruct (@getitem_in_range _ uc x) as [a5 ->]; [lia|]. cbn [rbind].
  destruct (@getitem_in_range _ pv x) as [a6 ->]; [lia|]. cbn [rbind].
  rewrite setitem_in_range by lia.
  eexists. split; [reflexivity|]. rewrite length_list_set. exact Hnx.
Qed.

Lemma row_body_ok s r2 (y : Z) (nxt : list (list float)) :
  let h := ascii_phi_pi.H s in
  let w := ascii_phi_pi.W s in
  grid_shape h w (ascii_phi_pi.u_prev s) -> grid_shape h w (ascii_phi_pi.u s) ->
  (1 <= y < h - 1)%Z -> grid_shape h w nxt ->
  exists nxt', ascii_phi_pi.row_body s r2 y nxt = Ok nxt' /\ grid_shape h w nxt'.
Proof.
  intros h w Hp Hu Hy Hn. unfold ascii_phi_pi.row_body.
  destruct (@getitem_row h w (y - 1) _ Hu) as (up & -> & Hup); [lia|]. cbn [rbind].
  destruct (@getitem_row h w y _ Hu) as (uc & -> & Huc); [lia|]. cbn [rbind].
  destruct (@getitem_row h w (y + 1) _ Hu) as (dn & -> & Hdn); [lia|]. cbn [rbind].
  destruct (@getitem_row h w y _ Hn) as (nx & -> & Hnx); [lia|]. cbn [rbind].
  destruct (@getitem_row h w y _ Hp) as (pv & -> & Hpv); [lia|]. cbn [rbind].
  destruct (@for_each_range_invariant (list float)
              (fun l => Z.of_nat (length l) = w)
              (ascii_phi_pi.cell_body s r2 up uc dn pv) 1%Z (w - 1)%Z nx)
    as (nx' & E & Hnx').
  { intros x s0 Hx Hs0. apply cell_body_ok; assumption. }
  { exact Hnx. }
  fold w. rewrite E. cbn [rbind].
  destruct (@setitem_row h w y nxt nx' Hn) as (-> & Hn'); [lia|exact Hnx'|].
  eexists. split; [reflexivity|exact Hn'].
Qed.

(** The confined boundary loops leave zeros on all four edges. *)
Lemma confined_edges_zero s (nxt : list (list float)) :
  let h := ascii_phi_pi.H s in
  let w := ascii_phi_pi.W s in
  ascii_phi_pi.boundary s = confined ->
  (1 <= h)%Z -> (1 <= w)%Z -> grid_shape h w nxt ->
  exists nxt', ascii_phi_pi.boundary_update s nxt = Ok nxt'
               /\ grid_shape h w nxt' /\ border_zero h w nxt'.
Proof.
  intros h w Hmode Hh Hw Hn. unfold ascii_phi_pi.boundary_update.
  rewrite Hmode. fold h w. cbv zeta. unfold range. rewrite !Z.sub_0_r.
  destruct (@for_each_range_indexed (list (list float))
              (fun x g => grid_shape h w g
                          /\ forall x', (0 <= x' < x)%Z ->
                                        ascii_phi_pi.cell g 0 x' = Ok 0.0%float
                                        /\ ascii_phi_pi.cell g (h - 1) x' = Ok 0.0%float)
              (fun x g => rbind (ascii_phi_pi.set_cell g 0 x 0.0%float) (fun g1 =>
                          ascii_phi_pi.set_cell g1 (h - 1) x 0.0%float))
              (Z.to_nat w) 0%Z nxt) as (nxt1 & E1 & Hs1 & Hz1).
  { intros x g0 Hx (Hg0 & Hz0).
    destruct (@set_cell_zero h w 0 x g0 Hg0) as (g1 & -> & Hg1 & Hs1 & Hk1); [lia|lia|].
    cbn [rbind].
    destruct (@set_cell_zero h w (h - 1) x g1 Hg1) as (g2 & -> & Hg2 & Hs2 & Hk2);
      [lia|lia|].
    eexists. split; [reflexivity|]. split; [exact Hg2|].
    intros x' Hx'. destruct (Z.eq_dec x' x) as [->|Hne].
    - split; [apply Hk2; [lia|lia|exact Hs1]|exact Hs2].
    - destruct (Hz0 x') as (Ha & Hb); [lia|].
      split; apply Hk2; try lia; apply Hk1; try lia; assumption. }
  { split; [exact Hn|]. intros x' Hx'. lia. }
  rewrite E1. cbn [rbind]. rewrite Z.add_0_l, Z2Nat.id in Hz1 by lia.
  destruct (@for_each_range_indexed (list (list float))
              (fun y g => grid_shape h w g
                          /\ (forall x', (0 <= x' < w)%Z ->
                                         ascii_phi_pi.cell g 0 x' = Ok 0.0%float
                                         /\ ascii_phi_pi.cell g (h - 1) x' = Ok 0.0%float)
                          /\ forall y', (0 <= y' < y)%Z ->
                                        ascii_phi_pi.cell g y' 0 = Ok 0.0%float
                                        /\ ascii_phi_pi.cell g y' (w - 1) = Ok 0.0%float)
              (fun y g => rbind (ascii_phi_pi.set_cell g y 0 0.0%float) (fun g1 =>
                          ascii_phi_pi.set_cell g1 y (w - 1) 0.0%float))
              (Z.to_nat h) 0%Z nxt1) as (nxt2 & E2 & Hs2 & Hr2 & Hc2).
  { intros y g0 Hy (Hg0 & Hr0 & Hc0).
    destruct (@set_cell_zero h w y 0 g0 Hg0) as (g1 & -> & Hg1 & Hw1 & Hk1); [lia|lia|].
    cbn [rbind].
    destruct (@set_cell_zero h w y (w - 1) g1 Hg1) as (g2 & -> & Hg2 & Hw2 & Hk2);
      [lia|lia|].
    eexists. split; [reflexivity|]. split; [exact Hg2|]. split.
    - intros x' Hx'. destruct (Hr0 x' Hx') as (Ha & Hb).
      split; apply Hk2; try lia; apply Hk1; try lia; assumption.
    - intros y' Hy'. destruct (Z.eq_dec y' y) as [->|Hne].
      + split; [apply Hk2; [lia|lia|exact Hw1]|exact Hw2].
      + destruct (Hc0 y') as (Ha & Hb); [lia|].
        split; apply Hk2; try lia; apply Hk1; try lia; assumption. }
  { split; [exact Hs1|]. split; [exact Hz1|]. intros y' Hy'. lia. }
  rewrite Z.add_0_l, Z2Nat.id in Hc2 by lia.
  exists nxt2. split; [exact E2|]. split; [exact Hs2|].
  intros y x Hy Hx [-> | [-> | [-> | ->]]].
  - apply Hr2. exact Hx.
  - apply Hr2. exact Hx.
  - apply Hc2. exact Hy.
  - apply Hc2. exact Hy.
Qed.

(** The open boundary loops read the neighbours of the edges: they need
    two rows and two columns. *)
Lemma open_edges_ok s (nxt : list (list float)) :
  let h := ascii_phi_pi.H s in
  let w := ascii_phi_pi.W s in
  ascii_phi_pi.boundary s = open ->
  (2 <= h)%Z -> (2 <= w)%Z -> grid_shape h w (ascii_phi_pi.u s) -> grid_shape h w nxt ->
  exists nxt', ascii_phi_pi.boundary_update s nxt = Ok nxt' /\ grid_shape h w nxt'.
Proof.
  intros h w Hmode Hh Hw Hu Hn. unfold ascii_phi_pi.boundary_update.
  rewrite Hmode. fold h w. cbv zeta.
  destruct (@for_each_range_invariant (list (list float)) (grid_shape h w)
              (fun x g =>
                 rbind (ascii_phi_pi.cell (ascii_phi_pi.u s) 1 x) (fun a =>
                 rbind (ascii_phi_pi.set_cell g 0 x a) (fun g1 =>
                 rbind (ascii_phi_pi.cell (ascii_phi_pi.u s) (h - 2) x) (fun b =>
                 ascii_phi_pi.set_cell g1 (h - 1) x b))))
              0%Z w nxt) as (nxt1 & E1 & Hs1).
  { intros x g0 Hx Hg0.
    destruct (@cell_ok h w 1 x _ Hu) as (a & ->); [lia|lia|]. cbn [rbind].
    destruct (@set_cell_ok h w 0 x g0 a Hg0) as (g1 & -> & Hg1 & _); [lia|lia|].
    cbn [rbind].
    destruct (@cell_ok h w (h - 2) x _ Hu) as (b & ->); [lia|lia|]. cbn [rbind].
    destruct (@set_cell_ok h w (h - 1) x g1 b Hg1) as (g2 & -> & Hg2 & _); [lia|lia|].
    eexists. split; [reflexivity|exact Hg2]. }
  { exact Hn. }
  rewrite E1. cbn [rbind].
  apply for_each_range_invariant; [|exact Hs1]. intros y g0 Hy Hg0.
  destruct (@cell_ok h w y 1 _ Hu) as (a & ->); [lia|lia|]. cbn [rbind].
  destruct (@set_cell_ok h w y 0 g0 a Hg0) as (g1 & -> & Hg1 & _); [lia|lia|].
  cbn [rbind].
  destruct (@cell_ok h w y (w - 2) _ Hu) as (b & ->); [lia|lia|]. cbn [rbind].
  destruct (@set_cell_ok h w y (w - 1) g1 b Hg1) as (g2 & -> & Hg2 & _); [lia|lia|].
  eexists. split; [reflexivity|exact Hg2].
Qed.

Lemma zero_grid_shape (w h : Z) :
  grid_shape (Z.max 0 h) (Z.max 0 w) (ascii_phi_pi.zero_grid w h).
Proof.
  unfold ascii_phi_pi.zero_grid, grid_shape, range.
  rewrite length_map, length_range_from. split; [lia|].
  intros row Hr. apply in_map_iff in Hr. destruct Hr as (i & <- & _).
  unfold replicate. rewrite repeat_length. lia.
Qed.

(** What the constructor of the 2-D field returns. *)
Lemma Sim2D_init_state {lib : Library} w h g s :
  fst (ascii_phi_pi.Sim2D_init w h g) = Ok s ->
  ascii_phi_pi.H s = h /\ ascii_phi_pi.W s = w
  /\ ascii_phi_pi.sy s = (h / 2)%Z /\ ascii_phi_pi.sx s = (w / 2)%Z
  /\ ascii_phi_pi.boundary s = confined
  /\ ascii_phi_pi.u_prev s = ascii_phi_pi.zero_grid w h
  /\ ascii_phi_pi.u s = ascii_phi_pi.zero_grid w h
  /\ ascii_phi_pi.u_next s = ascii_phi_pi.zero_grid w h.
Proof.
  unfold ascii_phi_pi.Sim2D_init, bind, lift, random_seed, ret.
  destruct (truediv _ _) as [r0|e]; cbn [fst]; [|discriminate].
  intros E. injection E as <-. repeat split.
Qed.

Lemma Sim2D_init_well_formed {lib : Library} w h g s :
  (1 <= h)%Z -> (1 <= w)%Z ->
  fst (ascii_phi_pi.Sim2D_init w h g) = Ok s ->
  well_formed_2d s.
Proof.
  intros Hh Hw Hs.
  destruct (@Sim2D_init_state _ _ _ _ _ Hs) as (EH & EW & Ey & Ex & _ & Ep & Eu & En).
  unfold well_formed_2d. rewrite EH, EW, Ey, Ex, Ep, Eu, En.
  pose proof (zero_grid_shape w h) as Hz.
  rewrite !Z.max_r in Hz by lia.
  repeat (split; [first [assumption|reflexivity]|]). assumption.
Qed.



(** On a grid of at most two columns the interior loop of a row has no
    cell to visit and stores the row back as it was. *)
Lemma row_body_narrow s r2 (y h wl : Z) (nxt : list (list float)) :
  (ascii_phi_pi.W s <= 2)%Z ->
  grid_shape h wl (ascii_phi_pi.u_prev s) -> grid_shape h wl (ascii_phi_pi.u s) ->
  (1 <= y < h - 1)%Z -> grid_shape h wl nxt ->
  exists nxt', ascii_phi_pi.row_body s r2 y nxt = Ok nxt' /\ grid_shape h wl nxt'.
Proof.
  intros HW Hp Hu Hy Hn. unfold ascii_phi_pi.row_body.
  destruct (@getitem_row h wl (y - 1) _ Hu) as (up & -> & Hup); [lia|]. cbn [rbind].
  destruct (@getitem_row h wl y _ Hu) as (uc & -> & Huc); [lia|]. cbn [rbind].
  destruct (@getitem_row h wl (y + 1) _ Hu) as (dn & -> & Hdn); [lia|]. cbn [rbind].
  destruct (@getitem_row h wl y _ Hn) as (nx & -> & Hnx); [lia|]. cbn [rbind].
  destruct (@getitem_row h wl y _ Hp) as (pv & -> & Hpv); [lia|]. cbn [rbind].
  unfold range.
  replace (Z.to_nat (ascii_phi_pi.W s - 1 - 1)) with 0%nat by lia.
  cbn [range_from for_each rbind].
  destruct (@setitem_row h wl y nxt nx Hn) as (-> & Hn'); [lia|exact Hnx|].
  eexists. split; [reflexivity|exact Hn'].
Qed.

Lemma getitem_nil {A : Type} (i : Z) : getitem (@nil A) i = Raise IndexError.
Proof.
  unfold getitem, norm_index. cbn [length Z.of_nat].
  destruct (i <? 0)%Z eqn:E.
  - destruct (Z.leb_spec 0 (i + 0)); [|reflexivity]. apply Z.ltb_lt in E. lia.
  - reflexivity.
Qed.

(** X15. A 2-D field constructed with no row or no column ([H <= 0] or
    [W <= 0], which [main] requests on a terminal of at most six lines)
    is built without complaint, and its first [step] raises [IndexError]
    at the source cell. *)
Theorem sim2d_empty_grid_step_raises {lib : Library} w h g s n g' :
  fst (ascii_phi_pi.Sim2D_init w h g) = Ok s ->
  (h <= 0 \/ w <= 0)%Z ->
  fst (ascii_phi_pi.step s n g') = Raise IndexError.
Proof.
  intros Hs Hdeg.
  destruct (@Sim2D_init_state _ _ _ _ _ Hs) as (EH & EW & Ey & Ex & _ & Ep & Eu & En).
  pose proof (zero_grid_shape w h) as Hz.
  unfold ascii_phi_pi.step. unfold bind, lift, ret, random_gauss. cbn [fst snd].
  rewrite EH, Ey, Ex.
  destruct (Z.le_gt_cases h 0) as [Hh|Hh].
  - unfold range. replace (Z.to_nat (h - 1 - 1)) with 0%nat by lia.
    cbn [range_from for_each]. rewrite En.
    unfold ascii_phi_pi.zero_grid, range.
    replace (Z.to_nat (h - 0)) with 0%nat by lia.
    cbn [range_from map]. unfold ascii_phi_pi.add_cell.
    rewrite getitem_nil. reflexivity.
  - destruct Hdeg as [Hdeg|Hw]; [lia|].
    rewrite Z.max_r, Z.max_l in Hz by lia.
    match goal with
    | |- context [for_each _ (ascii_phi_pi.row_body s ?r2) _] =>
        destruct (@for_each_range_invariant (list (list float)) (grid_shape h 0)
                    (ascii_phi_pi.row_body s r2) 1%Z (h - 1)%Z (ascii_phi_pi.u_next s))
          as (nxt1 & E1 & G1)
    end.
    { intros y g0 Hy Hg0. apply row_body_narrow; try assumption; try lia.
      - rewrite Ep. exact Hz.
      - rewrite Eu. exact Hz. }
    { rewrite En. exact Hz. }
    rewrite E1. unfold ascii_phi_pi.add_cell, additem.
    assert (Hhalf : (0 <= h / 2 < h)%Z).
    { pose proof (Z.div_mod h 2). pose proof (Z.mod_pos_bound h 2). lia. }
    destruct (@getitem_row h 0 (h / 2) nxt1 G1 Hhalf) as (row & -> & Hrow).
    cbn [rbind]. destruct row as [|a row]; [|cbn [length] in Hrow; lia].
    rewrite getitem_nil. reflexivity.
Qed.

Lemma sim2d_empty_grid_step_raises_witness :
  exists s,
    fst (@ascii_phi_pi.Sim2D_init counting_library 80 0 0%Z) = Ok s
    /\ fst (@ascii_phi_pi.step counting_library s 0 7%Z) = Raise IndexError.
Proof.
  destruct (fst (@ascii_phi_pi.Sim2D_init counting_library 80 0 0%Z)) as [s|e] eqn:Es;
    [|vm_compute in Es; discriminate Es].
  exists s. split; [reflexivity|].
  apply (@sim2d_empty_grid_step_raises counting_library 80 0 0%Z s 0 7%Z Es).
  left. lia.
Defined.

(** ** Instances of the closed forms *)

Lemma pml_profile_1d_witness :
  exists gam,
    wave_cavity_phi_pi.damping_profile (small_cavity 6 0.5) open = Ok gam
    /\ getitem gam 0 = Ok (1e-3 + 0.02 * 1 / 1)%float
    /\ getitem gam 2 = Ok 1e-3%float
    /\ getitem gam 4 = getitem gam 0.
Proof.
  destruct (@pml_profile_1d (small_cavity 6 0.5)) as (gam & E & Hall & H0 & Hn).
  - reflexivity.
  - cbn. lia.
  - cbn. lia.
  - exists gam. split; [exact E|]. split; [exact H0|].
    split; [|exact Hn]. rewrite Hall by (cbn; lia). reflexivity.
Defined.

